(** * LP-Simulator: valuation and projection engine

    A shallow embedding of the pure computations of the LP simulator:

    - [updateSimulation] / [removeSimulation]       (src/App.tsx)
    - the bound/percentage conversions of [handleInputChange],
      the [calculations] snapshot and the [chartData] projection
      (the simulation card component).

    JavaScript numbers are IEEE-754 binary64 values.  The engine is written
    once, over an interface [Num] of the arithmetic it uses, and read at two
    instances:

    - [FloatNum]: Rocq's primitive binary64 floats, which compute exactly what
      the JavaScript code computes (round to nearest even, NaN, infinities);
    - [XRealNum]: exact arithmetic on the reals extended with one value that
      is not a real number.  A zero divisor and the square root of a
      negative number produce it (where JavaScript gives an infinity or
      NaN), every operation propagates it and every comparison with it is
      false.  This is the reading of "within floating-point tolerance": no
      rounding and no overflow, but an unguarded division still shows in the
      result.

    Statements about all binary64 numbers are derived from the
    specification of the primitive floats ([SpecFloat], [FloatAxioms]);
    statements about given numbers are computed. *)

From Stdlib Require Import ZArith List String Bool Lia.
From Stdlib Require Import Floats.
From Stdlib Require Import Reals Lra.
Import ListNotations.

Set Implicit Arguments.
Set Warnings "-inexact-float".

(** ** The arithmetic interface *)

Declare Scope js_scope.
Delimit Scope js_scope with js.

Class Num (T : Type) : Type := {
  of_Z : Z -> T;               (* integer literals: 0, 1, 2, 100, 365, -1 *)
  num_add : T -> T -> T;
  num_sub : T -> T -> T;
  num_mul : T -> T -> T;
  num_div : T -> T -> T;
  Math_sqrt : T -> T;
  Math_min : T -> T -> T;
  num_ltb : T -> T -> bool;    (* x < y *)
  num_leb : T -> T -> bool     (* x <= y *)
}.

Notation "x + y" := (num_add x y) : js_scope.
Notation "x - y" := (num_sub x y) : js_scope.
Notation "x * y" := (num_mul x y) : js_scope.
Notation "x / y" := (num_div x y) : js_scope.
Notation "x <? y" := (num_ltb x y) : js_scope.
Notation "x <=? y" := (num_leb x y) : js_scope.
Notation "x >? y" := (num_ltb y x) : js_scope.
Notation "x >=? y" := (num_leb y x) : js_scope.

Section NumHelpers.
Context {T : Type} `{Num T}.

Definition zero : T := of_Z 0.
Definition one : T := of_Z 1.

(** [isNaN(x)]: NaN is the only number that is not [<=] itself. *)
Definition isNaN (x : T) : bool := negb (x <=? x)%js.

(** [!x] for a number: [0], [-0] and [NaN] are falsy. *)
Definition falsy (x : T) : bool := negb ((x <? zero)%js || (zero <? x)%js).

(** [!x] for an optional number: [undefined] is falsy too. *)
Definition not_opt (x : option T) : bool :=
  match x with
  | None => true
  | Some v => falsy v
  end.

(** [x ?? d] *)
Definition nullish (x : option T) (d : T) : T :=
  match x with
  | None => d
  | Some v => v
  end.
End NumHelpers.

(** ** Data model (the [Simulation] interface of the types file) *)

Inductive ShortToken : Type := TokenA | TokenB.

Definition ShortToken_eqb (a b : ShortToken) : bool :=
  match a, b with
  | TokenA, TokenA | TokenB, TokenB => true
  | _, _ => false
  end.

Module Simulation.
Record t (T : Type) : Type := mk {
  id : string;
  protocol : string;
  tokenA : string;
  tokenB : string;
  initialInvestment : option T;
  amountA : option T;
  amountB : option T;
  apr : T;
  duration : T;
  lowerPriceBound : T;
  upperPriceBound : T;
  startDate : string;
  initialPriceA : T;
  initialPriceB : T;
  latestPriceA : T;
  latestPriceB : T;
  tradeVolume : option T;
  volumeFee : option T;
  isHedgeEnabled : option bool;
  shortAmount : T;
  fundingRate : T;
  shortToken : ShortToken
}.

(** Reading a model given over [A] at another number type. *)
Definition map {A B : Type} (f : A -> B) (s : t A) : t B :=
  mk (id s) (protocol s) (tokenA s) (tokenB s)
     (option_map f (initialInvestment s))
     (option_map f (amountA s)) (option_map f (amountB s))
     (f (apr s)) (f (duration s))
     (f (lowerPriceBound s)) (f (upperPriceBound s))
     (startDate s)
     (f (initialPriceA s)) (f (initialPriceB s))
     (f (latestPriceA s)) (f (latestPriceB s))
     (option_map f (tradeVolume s)) (option_map f (volumeFee s))
     (isHedgeEnabled s)
     (f (shortAmount s)) (f (fundingRate s)) (shortToken s).

(** The same model with other range bounds. *)
Definition withBounds {T : Type} (lower upper : T) (s : t T) : t T :=
  mk (id s) (protocol s) (tokenA s) (tokenB s) (initialInvestment s)
     (amountA s) (amountB s) (apr s) (duration s)
     lower upper
     (startDate s) (initialPriceA s) (initialPriceB s)
     (latestPriceA s) (latestPriceB s) (tradeVolume s) (volumeFee s)
     (isHedgeEnabled s) (shortAmount s) (fundingRate s) (shortToken s).
End Simulation.

(** [Partial<Simulation>]: every key may be absent.  A key of an optional
    field may also be present and hold [undefined]. *)
Module Partial.
Record t (T : Type) : Type := mk {
  id : option string;
  protocol : option string;
  tokenA : option string;
  tokenB : option string;
  initialInvestment : option (option T);
  amountA : option (option T);
  amountB : option (option T);
  apr : option T;
  duration : option T;
  lowerPriceBound : option T;
  upperPriceBound : option T;
  startDate : option string;
  initialPriceA : option T;
  initialPriceB : option T;
  latestPriceA : option T;
  latestPriceB : option T;
  tradeVolume : option (option T);
  volumeFee : option (option T);
  isHedgeEnabled : option (option bool);
  shortAmount : option T;
  fundingRate : option T;
  shortToken : option ShortToken
}.

(** [{}] *)
Definition empty (T : Type) : t T :=
  mk None None None None None None None None None None None
     None None None None None None None None None None None.

(** [Object.keys(p).length > 0] *)
Definition hasKeys {T : Type} (p : t T) : bool :=
  let present {A : Type} (o : option A) : bool :=
    match o with
    | Some _ => true
    | None => false
    end in
  present (id p) || present (protocol p) || present (tokenA p)
  || present (tokenB p) || present (initialInvestment p)
  || present (amountA p) || present (amountB p) || present (apr p)
  || present (duration p) || present (lowerPriceBound p)
  || present (upperPriceBound p) || present (startDate p)
  || present (initialPriceA p) || present (initialPriceB p)
  || present (latestPriceA p) || present (latestPriceB p)
  || present (tradeVolume p) || present (volumeFee p)
  || present (isHedgeEnabled p) || present (shortAmount p)
  || present (fundingRate p) || present (shortToken p).
End Partial.

(** The object returned by [calculations]. *)
Module PriceRange.
Record t (T : Type) : Type := mk {
  min : T;
  max : T;
  current : T;
  isInRange : bool
}.
End PriceRange.

Module Calc.
Record t (T : Type) : Type := mk {
  initialInvestment : T;
  earnedFees : T;
  impermanentLoss : T;
  impermanentLossPct : T;
  holdValue : T;
  finalLpValue : T;
  lpNetReturn : T;
  lpNetReturnPct : T;
  shortPnl : T;
  fundingPnl : T;
  totalNetReturn : T;
  totalNetReturnPct : T;
  finalTotalValue : T;
  isInRange : bool;
  priceRange : PriceRange.t T
}.
End Calc.

(** The locals of one iteration of the [chartData] loop. *)
Module Day.
Record t (T : Type) : Type := mk {
  progress : T;
  currentPriceA : T;
  currentPriceB : T;
  holdValue : T;
  earnedFees : T;
  currentPriceRatio : T;
  lpValue : T;
  shortPnl : T;
  fundingPnl : T;
  totalValue : T
}.
End Day.

(** The object pushed on [dataPoints]. *)
Module Point.
Record t (T : Type) : Type := mk {
  day : T;
  totalValue : T;
  holdValue : T;
  earnedFees : T
}.
End Point.

(** ** src/App.tsx *)

Module App.
Section App.
Context {T : Type}.

(** [{ ...sim, ...updatedSim }] *)
Definition override {A : Type} (old : A) (new : option A) : A :=
  match new with
  | Some v => v
  | None => old
  end.

Definition spread (sim : Simulation.t T) (updatedSim : Partial.t T)
  : Simulation.t T :=
  Simulation.mk
    (override (Simulation.id sim) (Partial.id updatedSim))
    (override (Simulation.protocol sim) (Partial.protocol updatedSim))
    (override (Simulation.tokenA sim) (Partial.tokenA updatedSim))
    (override (Simulation.tokenB sim) (Partial.tokenB updatedSim))
    (override (Simulation.initialInvestment sim)
              (Partial.initialInvestment updatedSim))
    (override (Simulation.amountA sim) (Partial.amountA updatedSim))
    (override (Simulation.amountB sim) (Partial.amountB updatedSim))
    (override (Simulation.apr sim) (Partial.apr updatedSim))
    (override (Simulation.duration sim) (Partial.duration updatedSim))
    (override (Simulation.lowerPriceBound sim)
              (Partial.lowerPriceBound updatedSim))
    (override (Simulation.upperPriceBound sim)
              (Partial.upperPriceBound updatedSim))
    (override (Simulation.startDate sim) (Partial.startDate updatedSim))
    (override (Simulation.initialPriceA sim)
              (Partial.initialPriceA updatedSim))
    (override (Simulation.initialPriceB sim)
              (Partial.initialPriceB updatedSim))
    (override (Simulation.latestPriceA sim)
              (Partial.latestPriceA updatedSim))
    (override (Simulation.latestPriceB sim)
              (Partial.latestPriceB updatedSim))
    (override (Simulation.tradeVolume sim) (Partial.tradeVolume updatedSim))
    (override (Simulation.volumeFee sim) (Partial.volumeFee updatedSim))
    (override (Simulation.isHedgeEnabled sim)
              (Partial.isHedgeEnabled updatedSim))
    (override (Simulation.shortAmount sim) (Partial.shortAmount updatedSim))
    (override (Simulation.fundingRate sim) (Partial.fundingRate updatedSim))
    (override (Simulation.shortToken sim) (Partial.shortToken updatedSim)).

(** [prev.map(sim => sim.id === id ? { ...sim, ...updatedSim } : sim)] *)
Definition updateSimulation (id : string) (updatedSim : Partial.t T)
    (prev : list (Simulation.t T)) : list (Simulation.t T) :=
  List.map
    (fun sim =>
       if String.eqb (Simulation.id sim) id then spread sim updatedSim
       else sim)
    prev.

(** [prev.filter(sim => sim.id !== id)].  The handler also removes the
    card's texts from local storage, which is not part of the list. *)
Definition removeSimulation (id : string) (prev : list (Simulation.t T))
  : list (Simulation.t T) :=
  List.filter (fun sim => negb (String.eqb (Simulation.id sim) id)) prev.
End App.
End App.

(** ** The simulation card: bound conversions, snapshot and projection *)

Module Partial_set.
(** [{ lowerPriceBound: v }] and [{ upperPriceBound: v }] *)
Definition lowerPriceBound {T : Type} (v : T) : Partial.t T :=
  Partial.mk None None None None None None None None None (Some v) None
             None None None None None None None None None None None.

Definition upperPriceBound {T : Type} (v : T) : Partial.t T :=
  Partial.mk None None None None None None None None None None (Some v)
             None None None None None None None None None None None.
End Partial_set.

(** The keys of [handleInputChange] that convert between a bound and its
    percentage deviation. *)
Inductive BoundKey : Type :=
  | pctLower | pctUpper | lowerPriceBound | upperPriceBound.

Module Engine.
Section Engine.
Context {T : Type} `{Num T}.
Local Open Scope js_scope.

(** [b ? ... : ...] on an optional boolean: [undefined] is falsy. *)
Definition truthy (b : option bool) : bool :=
  match b with
  | Some true => true
  | _ => false
  end.

(** [simulation.initialPriceB > 0 ? simulation.initialPriceA /
    simulation.initialPriceB : 0] *)
Definition initialPriceRatio (simulation : Simulation.t T) : T :=
  if Simulation.initialPriceB simulation >? zero
  then Simulation.initialPriceA simulation / Simulation.initialPriceB simulation
  else zero.

(** [handleInputChange], for the four bound keys, after
    [numValue = parseFloat(value)].  The result is the percentage that the
    handler recomputes (the number it then formats with [toFixed(2)] into
    the text field), if any, and [simUpdate]. *)
Definition handleInputChange (key : BoundKey) (numValue : T)
    (simulation : Simulation.t T) : option T * Partial.t T :=
  let isValidNumber := negb (isNaN numValue) in
  let initialPriceRatio := initialPriceRatio simulation in
  match key with
  | pctLower =>
      if isValidNumber && (initialPriceRatio >? zero) then
        let newPriceBound :=
          initialPriceRatio * (one - numValue / of_Z 100) in
        (None, Partial_set.lowerPriceBound newPriceBound)
      else (None, Partial.empty T)
  | pctUpper =>
      if isValidNumber && (initialPriceRatio >? zero) then
        let newPriceBound :=
          initialPriceRatio * (one + numValue / of_Z 100) in
        (None, Partial_set.upperPriceBound newPriceBound)
      else (None, Partial.empty T)
  | lowerPriceBound =>
      if isValidNumber then
        (if initialPriceRatio >? zero then
           let pct :=
             ((initialPriceRatio - numValue) / initialPriceRatio)
             * of_Z 100 in
           Some pct
         else None,
         Partial_set.lowerPriceBound numValue)
      else (None, Partial.empty T)
  | upperPriceBound =>
      if isValidNumber then
        (if initialPriceRatio >? zero then
           let pct :=
             ((numValue - initialPriceRatio) / initialPriceRatio)
             * of_Z 100 in
           Some pct
         else None,
         Partial_set.upperPriceBound numValue)
      else (None, Partial.empty T)
  end.

(** [(2 * Math.sqrt(priceRatioChange)) / (1 + priceRatioChange) - 1],
    written out in [calculations] and in [chartData]. *)
Definition impermanentLossFactor (priceRatioChange : T) : T :=
  (of_Z 2 * Math_sqrt priceRatioChange) / (one + priceRatioChange) - one.

(** The liquidity-based value that [calculations] assigns to the local
    [effectiveLpValue] and never reads. [None] is the unassigned local. *)
Definition effectiveLpValue
    (initialAmountA initialAmountB latestPriceA latestPriceB
     latestPriceRatio initialPriceRatio lowerPriceBound upperPriceBound : T)
  : option T :=
  if latestPriceRatio <? lowerPriceBound then
    let L :=
      (initialAmountA * Math_sqrt initialPriceRatio + initialAmountB)
      / (Math_sqrt upperPriceBound - Math_sqrt lowerPriceBound) in
    let effectiveLpValue0 :=
      L * (Math_sqrt upperPriceBound - Math_sqrt lowerPriceBound)
      * Math_sqrt latestPriceA in
    let effectiveLpValue1 :=
      initialAmountA * latestPriceA + initialAmountB * latestPriceB in
    let sqrtP := Math_sqrt latestPriceRatio in
    let sqrtPa := Math_sqrt lowerPriceBound in
    let sqrtPb := Math_sqrt upperPriceBound in
    let liquidity :=
      Math_min (initialAmountA / (one / sqrtP - one / sqrtPb))
               (initialAmountB / (sqrtP - sqrtPa)) in
    let effectiveLpValue2 :=
      initialAmountA * latestPriceA + initialAmountB * latestPriceB in
    if latestPriceRatio <? lowerPriceBound then
      Some (liquidity * (sqrtPb - sqrtPa) * Math_sqrt latestPriceB)
    else if latestPriceRatio >? upperPriceBound then
      Some (liquidity * (one / sqrtPa - one / sqrtPb) * latestPriceA)
    else
      let amount0 := liquidity * (one / sqrtP - one / sqrtPb) in
      let amount1 := liquidity * (sqrtP - sqrtPa) in
      Some (amount0 * latestPriceA + amount1 * latestPriceB)
  else None.

(** The [calculations] memo. *)
Definition calculations (simulation : Simulation.t T) : Calc.t T :=
  let apr := Simulation.apr simulation in
  let duration := Simulation.duration simulation in
  let initialPriceA := Simulation.initialPriceA simulation in
  let initialPriceB := Simulation.initialPriceB simulation in
  let latestPriceA := Simulation.latestPriceA simulation in
  let latestPriceB := Simulation.latestPriceB simulation in
  let lowerPriceBound := Simulation.lowerPriceBound simulation in
  let upperPriceBound := Simulation.upperPriceBound simulation in
  let isHedgeEnabled := Simulation.isHedgeEnabled simulation in
  let shortAmount := Simulation.shortAmount simulation in
  let fundingRate := Simulation.fundingRate simulation in
  let shortToken := Simulation.shortToken simulation in
  let initialAmountA := nullish (Simulation.amountA simulation) zero in
  let initialAmountB := nullish (Simulation.amountB simulation) zero in
  let initialInvestment :=
    initialAmountA * initialPriceA + initialAmountB * initialPriceB in
  let holdValue :=
    initialAmountA * latestPriceA + initialAmountB * latestPriceB in
  let latestPriceRatio :=
    if latestPriceB >? zero then latestPriceA / latestPriceB else zero in
  let initialPriceRatio :=
    if initialPriceB >? zero then initialPriceA / initialPriceB else zero in
  let isInRange :=
    (latestPriceRatio >=? lowerPriceBound)
    && (latestPriceRatio <=? upperPriceBound) in
  let finalLpValue :=
    if (initialPriceRatio >? zero) && (latestPriceRatio >? zero)
       && (upperPriceBound >? lowerPriceBound)
    then
      let effectiveLpValue :=
        effectiveLpValue initialAmountA initialAmountB latestPriceA
          latestPriceB latestPriceRatio initialPriceRatio lowerPriceBound
          upperPriceBound in
      let priceRatioChange := latestPriceRatio / initialPriceRatio in
      let impermanentLossFactor := impermanentLossFactor priceRatioChange in
      holdValue * (one + impermanentLossFactor)
    else holdValue in
  let impermanentLoss := finalLpValue - holdValue in
  let impermanentLossPct :=
    if holdValue >? zero then (impermanentLoss / holdValue) * of_Z 100
    else zero in
  let earnedFees :=
    initialInvestment * (apr / of_Z 100) * (duration / of_Z 365) in
  let lpNetReturn := (finalLpValue + earnedFees) - initialInvestment in
  let lpNetReturnPct :=
    if initialInvestment >? zero
    then (lpNetReturn / initialInvestment) * of_Z 100
    else zero in
  let shortPnl :=
    if truthy isHedgeEnabled then
      if ShortToken_eqb shortToken TokenA
      then (if initialPriceA >? zero
            then shortAmount * (one - latestPriceA / initialPriceA)
            else zero)
      else (if initialPriceB >? zero
            then shortAmount * (one - latestPriceB / initialPriceB)
            else zero)
    else zero in
  let fundingPnl :=
    if truthy isHedgeEnabled
    then of_Z (-1) * shortAmount * (fundingRate / of_Z 100) * duration
    else zero in
  let totalNetReturn := lpNetReturn + shortPnl + fundingPnl in
  let totalNetReturnPct :=
    if initialInvestment >? zero
    then (totalNetReturn / initialInvestment) * of_Z 100
    else zero in
  let finalTotalValue := initialInvestment + totalNetReturn in
  Calc.mk initialInvestment earnedFees impermanentLoss impermanentLossPct
    holdValue finalLpValue lpNetReturn lpNetReturnPct shortPnl fundingPnl
    totalNetReturn totalNetReturnPct finalTotalValue isInRange
    (PriceRange.mk lowerPriceBound upperPriceBound latestPriceRatio
                   isInRange).

(** The body of the [for] loop of [chartData]: [amountA] and [amountB] are
    the (truthy) numbers of the model, [initialInvestment] the constant
    computed before the loop. *)
Definition chartDay (simulation : Simulation.t T)
    (amountA amountB initialInvestment day : T) : Day.t T :=
  let duration := Simulation.duration simulation in
  let apr := Simulation.apr simulation in
  let initialPriceA := Simulation.initialPriceA simulation in
  let initialPriceB := Simulation.initialPriceB simulation in
  let latestPriceA := Simulation.latestPriceA simulation in
  let latestPriceB := Simulation.latestPriceB simulation in
  let isHedgeEnabled := Simulation.isHedgeEnabled simulation in
  let shortToken := Simulation.shortToken simulation in
  let shortAmount := Simulation.shortAmount simulation in
  let fundingRate := Simulation.fundingRate simulation in
  let progress := if duration >? zero then day / duration else one in
  let currentPriceA :=
    initialPriceA + (latestPriceA - initialPriceA) * progress in
  let currentPriceB :=
    if initialPriceB >? zero
    then initialPriceB + (latestPriceB - initialPriceB) * progress
    else one in
  let holdValue := (amountA * currentPriceA) + (amountB * currentPriceB) in
  let earnedFees :=
    initialInvestment * (apr / of_Z 100) * (day / of_Z 365) in
  let initialPriceRatio :=
    if initialPriceB >? zero then initialPriceA / initialPriceB else zero in
  let currentPriceRatio :=
    if currentPriceB >? zero then currentPriceA / currentPriceB else zero in
  let lpValue :=
    if (initialPriceRatio >? zero) && (currentPriceRatio >? zero) then
      let priceRatioChange := currentPriceRatio / initialPriceRatio in
      if priceRatioChange >? zero then
        let impermanentLossFactor :=
          impermanentLossFactor priceRatioChange in
        holdValue * (one + impermanentLossFactor)
      else holdValue
    else holdValue in
  let shortPnl :=
    if truthy isHedgeEnabled then
      if ShortToken_eqb shortToken TokenA
      then (if initialPriceA >? zero
            then shortAmount * (one - currentPriceA / initialPriceA)
            else zero)
      else (if initialPriceB >? zero
            then shortAmount * (one - currentPriceB / initialPriceB)
            else zero)
    else zero in
  let fundingPnl :=
    if truthy isHedgeEnabled
    then of_Z (-1) * shortAmount * (fundingRate / of_Z 100) * day
    else zero in
  let totalValue := lpValue + earnedFees + shortPnl + fundingPnl in
  Day.mk progress currentPriceA currentPriceB holdValue earnedFees
         currentPriceRatio lpValue shortPnl fundingPnl totalValue.

(** [{ day, totalValue, holdValue, earnedFees }] *)
Definition dataPoint (day : T) (d : Day.t T) : Point.t T :=
  Point.mk day (Day.totalValue d) (Day.holdValue d) (Day.earnedFees d).

(** [for (let day = ...; day <= duration; day++) { ...; dataPoints.push(...) }]
    from the current value of [day], with the points pushed so far.  The
    loop need not end (for an infinite [duration] it does not): [fuel]
    bounds the number of tests of the loop condition, and [None] is a loop
    still running when the fuel is spent. *)
Fixpoint chartLoop (fuel : nat) (simulation : Simulation.t T)
    (amountA amountB initialInvestment : T)
    (day : T) (dataPoints : list (Point.t T)) : option (list (Point.t T)) :=
  match fuel with
  | O => None
  | S fuel' =>
      if day <=? Simulation.duration simulation then
        chartLoop fuel' simulation amountA amountB initialInvestment
          (day + one)
          (dataPoints
             ++ [dataPoint day
                   (chartDay simulation amountA amountB initialInvestment
                             day)])
      else Some dataPoints
  end.

(** The [chartData] memo.  After the guard both amounts are numbers. *)
Definition chartData (fuel : nat) (simulation : Simulation.t T)
  : option (list (Point.t T)) :=
  if (Simulation.duration simulation <=? zero)
     || not_opt (Simulation.amountA simulation)
     || not_opt (Simulation.amountB simulation)
  then Some []
  else
    match Simulation.amountA simulation, Simulation.amountB simulation with
    | Some amountA, Some amountB =>
        let initialInvestment :=
          (amountA * Simulation.initialPriceA simulation)
          + (amountB * Simulation.initialPriceB simulation) in
        chartLoop fuel simulation amountA amountB initialInvestment zero []
    | _, _ => Some []
    end.

(** The locals of the iteration of the loop at [day], for a model that
    passes the guard of [chartData] ([None] when an amount is undefined). *)
Definition iteration (simulation : Simulation.t T) (day : T)
  : option (Day.t T) :=
  match Simulation.amountA simulation, Simulation.amountB simulation with
  | Some amountA, Some amountB =>
      let initialInvestment :=
        (amountA * Simulation.initialPriceA simulation)
        + (amountB * Simulation.initialPriceB simulation) in
      Some (chartDay simulation amountA amountB initialInvestment day)
  | _, _ => None
  end.
End Engine.
End Engine.

(** ** Binary64 instance: what the JavaScript engine computes *)

Definition float_of_Z (z : Z) : float :=
  match z with
  | Z0 => PrimFloat.zero
  | Zpos _ => PrimFloat.of_uint63 (Uint63.of_Z z)
  | Zneg p => PrimFloat.opp (PrimFloat.of_uint63 (Uint63.of_Z (Zpos p)))
  end.

(** A mantissa shifted left by [n] bits ([n <= 0] leaves it as it is). *)
Definition pshift (m : positive) (n : Z) : positive :=
  match n with
  | Zpos p => Pos.iter xO m p
  | _ => m
  end.

(** The binary64 representation of a whole number [k] with [0 < k < 2^53]:
    positive, the 53-bit mantissa [k * 2^(53 - digits k)] and the exponent
    [digits k - 53]. *)
Definition normal_of_pos (k : positive) : spec_float :=
  S754_finite false (pshift k (53 - Zpos (digits2_pos k)))
              (Zpos (digits2_pos k) - 53).

(** [Math.min] of two numbers: NaN if either is NaN, and [-0] below [+0]. *)
Definition float_min (x y : float) : float :=
  if PrimFloat.is_nan x || PrimFloat.is_nan y then PrimFloat.nan
  else if PrimFloat.ltb x y then x
  else if PrimFloat.ltb y x then y
  else if PrimFloat.get_sign x then x else y.

#[export] Instance FloatNum : Num float := {|
  of_Z := float_of_Z;
  num_add := PrimFloat.add;
  num_sub := PrimFloat.sub;
  num_mul := PrimFloat.mul;
  num_div := PrimFloat.div;
  Math_sqrt := PrimFloat.sqrt;
  Math_min := float_min;
  num_ltb := PrimFloat.ltb;
  num_leb := PrimFloat.leb
|}.

(** ** Exact instance: the reals with a not-a-number value *)

Inductive xreal : Type :=
  | Xnan : xreal
  | Xreal : R -> xreal.

Module XR.
Definition lift2 (f : R -> R -> R) (x y : xreal) : xreal :=
  match x, y with
  | Xreal a, Xreal b => Xreal (f a b)
  | _, _ => Xnan
  end.

Definition div (x y : xreal) : xreal :=
  match x, y with
  | Xreal a, Xreal b =>
      if Req_dec_T b 0 then Xnan else Xreal (a / b)
  | _, _ => Xnan
  end.

Definition sqrt (x : xreal) : xreal :=
  match x with
  | Xreal a => if Rlt_dec a 0 then Xnan else Xreal (R_sqrt.sqrt a)
  | Xnan => Xnan
  end.

Definition ltb (x y : xreal) : bool :=
  match x, y with
  | Xreal a, Xreal b => if Rlt_dec a b then true else false
  | _, _ => false
  end.

Definition leb (x y : xreal) : bool :=
  match x, y with
  | Xreal a, Xreal b => if Rle_dec a b then true else false
  | _, _ => false
  end.

Definition finite (x : xreal) : Prop :=
  match x with
  | Xreal _ => True
  | Xnan => False
  end.
End XR.

#[export] Instance XRealNum : Num xreal := {|
  of_Z := fun z => Xreal (IZR z);
  num_add := XR.lift2 Rplus;
  num_sub := XR.lift2 Rminus;
  num_mul := XR.lift2 Rmult;
  num_div := XR.div;
  Math_sqrt := XR.sqrt;
  Math_min := XR.lift2 Rmin;
  num_ltb := XR.ltb;
  num_leb := XR.leb
|}.

(** A position whose fields are real numbers, read in exact arithmetic. *)
Definition exact (s : Simulation.t R) : Simulation.t xreal :=
  Simulation.map Xreal s.

(** ** Reference statements, in the words of the specification *)

Module Spec.
(** "replaces the matching simulation by the field-wise merge of its old
    value with the patch": each field is the patch's when the patch has
    the key, the old one otherwise. *)
Definition merged {T : Type} (old : Simulation.t T) (patch : Partial.t T)
    (new : Simulation.t T) : Prop :=
  let pick {A : Type} (o : A) (p : option A) (n : A) : Prop :=
    match p with
    | Some v => n = v
    | None => n = o
    end in
  pick (Simulation.id old) (Partial.id patch) (Simulation.id new)
  /\ pick (Simulation.protocol old) (Partial.protocol patch)
          (Simulation.protocol new)
  /\ pick (Simulation.tokenA old) (Partial.tokenA patch)
          (Simulation.tokenA new)
  /\ pick (Simulation.tokenB old) (Partial.tokenB patch)
          (Simulation.tokenB new)
  /\ pick (Simulation.initialInvestment old)
          (Partial.initialInvestment patch)
          (Simulation.initialInvestment new)
  /\ pick (Simulation.amountA old) (Partial.amountA patch)
          (Simulation.amountA new)
  /\ pick (Simulation.amountB old) (Partial.amountB patch)
          (Simulation.amountB new)
  /\ pick (Simulation.apr old) (Partial.apr patch) (Simulation.apr new)
  /\ pick (Simulation.duration old) (Partial.duration patch)
          (Simulation.duration new)
  /\ pick (Simulation.lowerPriceBound old) (Partial.lowerPriceBound patch)
          (Simulation.lowerPriceBound new)
  /\ pick (Simulation.upperPriceBound old) (Partial.upperPriceBound patch)
          (Simulation.upperPriceBound new)
  /\ pick (Simulation.startDate old) (Partial.startDate patch)
          (Simulation.startDate new)
  /\ pick (Simulation.initialPriceA old) (Partial.initialPriceA patch)
          (Simulation.initialPriceA new)
  /\ pick (Simulation.initialPriceB old) (Partial.initialPriceB patch)
          (Simulation.initialPriceB new)
  /\ pick (Simulation.latestPriceA old) (Partial.latestPriceA patch)
          (Simulation.latestPriceA new)
  /\ pick (Simulation.latestPriceB old) (Partial.latestPriceB patch)
          (Simulation.latestPriceB new)
  /\ pick (Simulation.tradeVolume old) (Partial.tradeVolume patch)
          (Simulation.tradeVolume new)
  /\ pick (Simulation.volumeFee old) (Partial.volumeFee patch)
          (Simulation.volumeFee new)
  /\ pick (Simulation.isHedgeEnabled old) (Partial.isHedgeEnabled patch)
          (Simulation.isHedgeEnabled new)
  /\ pick (Simulation.shortAmount old) (Partial.shortAmount patch)
          (Simulation.shortAmount new)
  /\ pick (Simulation.fundingRate old) (Partial.fundingRate patch)
          (Simulation.fundingRate new)
  /\ pick (Simulation.shortToken old) (Partial.shortToken patch)
          (Simulation.shortToken new).

(** One element of the list before and after [updateSimulation id patch]. *)
Definition updated {T : Type} (id : string) (patch : Partial.t T)
    (old new : Simulation.t T) : Prop :=
  (Simulation.id old <> id -> new = old)
  /\ (Simulation.id old = id -> merged old patch new).

(** The list before and after [removeSimulation id]: the simulations with
    that id are dropped, the others stay, in their order. *)
Inductive removed {T : Type} (id : string)
  : list (Simulation.t T) -> list (Simulation.t T) -> Prop :=
| removed_nil : removed id [] []
| removed_drop : forall sim l l',
    Simulation.id sim = id -> removed id l l' -> removed id (sim :: l) l'
| removed_keep : forall sim l l',
    Simulation.id sim <> id -> removed id l l' ->
    removed id (sim :: l) (sim :: l').

Section Valuation.
Context {T : Type} `{Num T}.
Local Open Scope js_scope.

(** Section 4.2: [holdValue = amountA*latestPriceA + amountB*latestPriceB]. *)
Definition holdValue (s : Simulation.t T) : T :=
  nullish (Simulation.amountA s) zero * Simulation.latestPriceA s
  + nullish (Simulation.amountB s) zero * Simulation.latestPriceB s.

(** Section 4.2: [initialRatio = initialPriceB>0 ? initialPriceA/initialPriceB : 0]
    and [latestRatio = latestPriceB>0 ? latestPriceA/latestPriceB : 0]. *)
Definition initialRatio (s : Simulation.t T) : T :=
  if zero <? Simulation.initialPriceB s
  then Simulation.initialPriceA s / Simulation.initialPriceB s
  else zero.

Definition latestRatio (s : Simulation.t T) : T :=
  if zero <? Simulation.latestPriceB s
  then Simulation.latestPriceA s / Simulation.latestPriceB s
  else zero.

(** Section 4.2: [ilFactor = 2*sqrt(k)/(1+k) - 1]. *)
Definition ilFactor (k : T) : T :=
  of_Z 2 * Math_sqrt k / (of_Z 1 + k) - of_Z 1.

(** "both ratios are positive and [upperPriceBound > lowerPriceBound]" *)
Definition lossModelled (s : Simulation.t T) : bool :=
  (zero <? initialRatio s) && (zero <? latestRatio s)
  && (Simulation.lowerPriceBound s <? Simulation.upperPriceBound s).

(** Section 4.4: [pctLower = (priceRatio - lowerPriceBound) / priceRatio * 100]
    and [lowerPriceBound = priceRatio * (1 - pctLower/100)]; for the upper
    bound, [pctUpper = (upperPriceBound - priceRatio) / priceRatio * 100] and
    [upperPriceBound = priceRatio * (1 + pctUpper/100)]. *)
Definition pctLower (priceRatio lowerPriceBound : T) : T :=
  (priceRatio - lowerPriceBound) / priceRatio * of_Z 100.

Definition lowerPriceBound (priceRatio pctLower : T) : T :=
  priceRatio * (of_Z 1 - pctLower / of_Z 100).

Definition pctUpper (priceRatio upperPriceBound : T) : T :=
  (upperPriceBound - priceRatio) / priceRatio * of_Z 100.

Definition upperPriceBound (priceRatio pctUpper : T) : T :=
  priceRatio * (of_Z 1 + pctUpper / of_Z 100).

(** "exactly [n + 1] points, one for each integer day from 0 to [n] in
    increasing order, each point carrying fields day, totalValue, holdValue
    and earnedFees": [day i] is the number of the whole day [i], and the
    values of a point are those of the iteration of the loop at its day. *)
Definition projected (day : nat -> T) (s : Simulation.t T) (n : nat)
    (pts : list (Point.t T)) : Prop :=
  List.length pts = S n
  /\ List.map (@Point.day T) pts = List.map day (seq 0 (S n))
  /\ forall i, (i <= n)%nat ->
       exists d : Day.t T,
         Engine.iteration s (day i) = Some d
         /\ nth_error pts i
            = Some (Point.mk (day i) (Day.totalValue d) (Day.holdValue d)
                             (Day.earnedFees d)).
End Valuation.
End Spec.

(** The point that the loop of [chartData] pushes at the whole day [i], for
    a position with real fields read in exact arithmetic. *)
Definition pointAt (s : Simulation.t R)
    (amountA amountB initialInvestment : xreal) (i : nat) : Point.t xreal :=
  Engine.dataPoint (Xreal (INR i))
    (Engine.chartDay (exact s) amountA amountB initialInvestment
                     (Xreal (INR i))).

(** ** Finite results *)

(** Every number of a snapshot computed in exact arithmetic is a real. *)
Definition Calc_finite (c : Calc.t xreal) : Prop :=
  XR.finite (Calc.initialInvestment c)
  /\ XR.finite (Calc.earnedFees c)
  /\ XR.finite (Calc.impermanentLoss c)
  /\ XR.finite (Calc.impermanentLossPct c)
  /\ XR.finite (Calc.holdValue c)
  /\ XR.finite (Calc.finalLpValue c)
  /\ XR.finite (Calc.lpNetReturn c)
  /\ XR.finite (Calc.lpNetReturnPct c)
  /\ XR.finite (Calc.shortPnl c)
  /\ XR.finite (Calc.fundingPnl c)
  /\ XR.finite (Calc.totalNetReturn c)
  /\ XR.finite (Calc.totalNetReturnPct c)
  /\ XR.finite (Calc.finalTotalValue c)
  /\ XR.finite (PriceRange.min (Calc.priceRange c))
  /\ XR.finite (PriceRange.max (Calc.priceRange c))
  /\ XR.finite (PriceRange.current (Calc.priceRange c)).

Definition Point_finite (p : Point.t xreal) : Prop :=
  XR.finite (Point.day p)
  /\ XR.finite (Point.totalValue p)
  /\ XR.finite (Point.holdValue p)
  /\ XR.finite (Point.earnedFees p).

(** The same on binary64 numbers, as tests. *)
Definition float_opt_finite (x : option float) : bool :=
  match x with
  | None => true
  | Some v => PrimFloat.is_finite v
  end.

Definition Simulation_finiteb (s : Simulation.t float) : bool :=
  float_opt_finite (Simulation.initialInvestment s)
  && float_opt_finite (Simulation.amountA s)
  && float_opt_finite (Simulation.amountB s)
  && PrimFloat.is_finite (Simulation.apr s)
  && PrimFloat.is_finite (Simulation.duration s)
  && PrimFloat.is_finite (Simulation.lowerPriceBound s)
  && PrimFloat.is_finite (Simulation.upperPriceBound s)
  && PrimFloat.is_finite (Simulation.initialPriceA s)
  && PrimFloat.is_finite (Simulation.initialPriceB s)
  && PrimFloat.is_finite (Simulation.latestPriceA s)
  && PrimFloat.is_finite (Simulation.latestPriceB s)
  && float_opt_finite (Simulation.tradeVolume s)
  && float_opt_finite (Simulation.volumeFee s)
  && PrimFloat.is_finite (Simulation.shortAmount s)
  && PrimFloat.is_finite (Simulation.fundingRate s).

(** [|x - y| < tol] on binary64 numbers. *)
Definition within (tol x y : float) : bool :=
  PrimFloat.ltb (PrimFloat.abs (PrimFloat.sub x y)) tol.

(** ** Concrete positions *)

Module Scenario.
(** A position with the given numbers; the texts and the unused optional
    fields are those of a freshly added simulation. *)
Definition make {T : Type} (amountA amountB apr duration lower upper
    initialPriceA initialPriceB latestPriceA latestPriceB : T)
    (isHedgeEnabled : bool) (shortToken : ShortToken)
    (shortAmount fundingRate : T) : Simulation.t T :=
  Simulation.mk "1700000000000" "Uniswap V3" "ETH" "USDC" None
    (Some amountA) (Some amountB) apr duration lower upper "2024-01-01"
    initialPriceA initialPriceB latestPriceA latestPriceB None None
    (Some isHedgeEnabled) shortAmount fundingRate shortToken.

Section Binary64.
Local Open Scope float_scope.

(** The deposit of the specification's scenario: 0.5 ETH at 3000 and
    1500 USDC at 1, 25% APR over 30 days, range [2400, 3600], prices
    unchanged. *)
Definition deposit : Simulation.t float :=
  make 0.5 1500 25 30 2400 3600 3000 1 3000 1 false TokenA 1500 0.01.

(** The same position hedged by a short of 1500 on token A at a funding
    rate of 0.01, with token A down to 2700. *)
Definition hedged : Simulation.t float :=
  make 0.5 1500 25 30 2400 3600 3000 1 2700 1 true TokenA 1500 0.01.

(** The deposit with token B priced 0 at the start and 2 at the end. *)
Definition zeroPriceB : Simulation.t float :=
  make 0.5 1500 25 30 2400 3600 3000 0 3000 2 false TokenA 1500 0.01.

(** A position with token B priced 0 and an amount and a price of token A
    whose product exceeds the binary64 range. *)
Definition huge : Simulation.t float :=
  make 1e200 1500 25 30 2400 3600 1e200 0 3000 1 false TokenA 1500 0.01.

(** The deposit lasting two days and a half. *)
Definition halfDay : Simulation.t float :=
  make 0.5 1500 25 2.5 2400 3600 3000 1 3000 1 false TokenA 1500 0.01.

(** The deposit with unchanged prices [1e200] and [1e-200]: both price
    ratios exceed the binary64 range. *)
Definition steep : Simulation.t float :=
  make 0.5 1500 25 30 2400 3600 1e200 1e-200 1e200 1e-200 false TokenA 1500
       0.01.
End Binary64.

Section Exact.
Local Open Scope R_scope.

(** The hedged position with real fields. *)
Definition hedgedR : Simulation.t R :=
  make (1 / 2) 1500 25 (INR 30) 2400 3600 3000 1 2700 1 true TokenA 1500
       (1 / 100).

(** The unhedged deposit with real fields. *)
Definition depositR : Simulation.t R :=
  make (1 / 2) 1500 25 (INR 30) 2400 3600 3000 1 3000 1 false TokenA 1500
       (1 / 100).
End Exact.
End Scenario.

(** ** The control flow of the projection loop *)

(** The values that [day] takes in the body of the loop of [chartData],
    from the current [day], with the same fuel as [Engine.chartLoop]. *)
Fixpoint daysLoop {T : Type} `{Num T} (fuel : nat) (duration day : T)
  : option (list T) :=
  match fuel with
  | O => None
  | S fuel' =>
      if (day <=? duration)%js
      then option_map (cons day) (daysLoop fuel' duration (day + one)%js)
      else Some []
  end.

(** A whole number of days as a binary64 number. *)
Definition float_of_nat (n : nat) : float := float_of_Z (Z.of_nat n).

(** The first whole number that binary64 numbers cannot tell from its
    successor: [2^53 + 1] rounds to [2^53]. *)
Definition two53 : Z := 2 ^ 53.

(** ** The other handlers: object literals passed to [onUpdate] *)

Module Patch.
(** [{ amountA: v }] and [{ amountB: v }] *)
Definition amountA {T : Type} (v : T) : Partial.t T :=
  Partial.mk None None None None None (Some (Some v)) None None None None
    None None None None None None None None None None None None.

Definition amountB {T : Type} (v : T) : Partial.t T :=
  Partial.mk None None None None None None (Some (Some v)) None None None
    None None None None None None None None None None None None.

(** [{ initialPriceA: v }], ..., [{ fundingRate: v }]: the keys of the
    generic numeric handler. *)
Definition initialPriceA {T : Type} (v : T) : Partial.t T :=
  Partial.mk None None None None None None None None None None None None
    (Some v) None None None None None None None None None.

Definition initialPriceB {T : Type} (v : T) : Partial.t T :=
  Partial.mk None None None None None None None None None None None None
    None (Some v) None None None None None None None None.

Definition apr {T : Type} (v : T) : Partial.t T :=
  Partial.mk None None None None None None None (Some v) None None None None
    None None None None None None None None None None.

Definition duration {T : Type} (v : T) : Partial.t T :=
  Partial.mk None None None None None None None None (Some v) None None None
    None None None None None None None None None None.

Definition latestPriceA {T : Type} (v : T) : Partial.t T :=
  Partial.mk None None None None None None None None None None None None
    None None (Some v) None None None None None None None.

Definition latestPriceB {T : Type} (v : T) : Partial.t T :=
  Partial.mk None None None None None None None None None None None None
    None None None (Some v) None None None None None None.

Definition shortAmount {T : Type} (v : T) : Partial.t T :=
  Partial.mk None None None None None None None None None None None None
    None None None None None None None (Some v) None None.

Definition fundingRate {T : Type} (v : T) : Partial.t T :=
  Partial.mk None None None None None None None None None None None None
    None None None None None None None None (Some v) None.

(** [{ protocol: v }], [{ tokenA: v }], [{ tokenB: v }] and
    [{ startDate: v }]: the keys that hold a text. *)
Definition protocol (T : Type) (v : string) : Partial.t T :=
  Partial.mk None (Some v) None None None None None None None None None None
    None None None None None None None None None None.

Definition tokenA (T : Type) (v : string) : Partial.t T :=
  Partial.mk None None (Some v) None None None None None None None None None
    None None None None None None None None None None.

Definition tokenB (T : Type) (v : string) : Partial.t T :=
  Partial.mk None None None (Some v) None None None None None None None None
    None None None None None None None None None None.

Definition startDate (T : Type) (v : string) : Partial.t T :=
  Partial.mk None None None None None None None None None None None (Some v)
    None None None None None None None None None None.


(** [{ isHedgeEnabled: enabled }], with the key [shortAmount] when it is
    assigned. *)
Definition hedge {T : Type} (enabled : bool) (newShortAmount : option T)
  : Partial.t T :=
  Partial.mk None None None None None None None None None None None None
    None None None None None None (Some (Some enabled)) newShortAmount None
    None.

(** [{ shortToken: token, shortAmount: newShortAmount }] *)
Definition short {T : Type} (token : ShortToken) (newShortAmount : T)
  : Partial.t T :=
  Partial.mk None None None None None None None None None None None None
    None None None None None None None (Some newShortAmount) None
    (Some token).
End Patch.

(** ** src/App.tsx: adding a simulation; the list of cards *)

Module AppList.
Section AppList.
Context {T : Type} `{Num T}.
Local Open Scope js_scope.

(** The object literal [newSimulation] of [addSimulation].  [now] is
    [Date.now().toString()] and [today] is
    [new Date().toISOString().split('T')[0]].  The literals [0.3] and
    [0.01] are the quotients [3 / 10] and [1 / 100], which round to the same
    binary64 numbers. *)
Definition newSimulation (now today : string) : Simulation.t T :=
  let initialInvestment := of_Z 1000 in
  let initialPriceA := of_Z 3000 in
  let initialPriceB := of_Z 1 in
  Simulation.mk now "Uniswap V3" "ETH" "USDC" None
    (Some ((initialInvestment / of_Z 2) / initialPriceA))
    (Some ((initialInvestment / of_Z 2) / initialPriceB))
    (of_Z 25) (of_Z 30) (of_Z 2400) (of_Z 3600) today
    initialPriceA initialPriceB (of_Z 3000) (of_Z 1)
    (Some (of_Z 1000000)) (Some (of_Z 3 / of_Z 10)) (Some false)
    (initialInvestment / of_Z 2) (of_Z 1 / of_Z 100) TokenA.

(** [addSimulation]: the new list of simulations and the new value of
    [newlyCreatedSimId]. *)
Definition addSimulation (now today : string) (prev : list (Simulation.t T))
  : list (Simulation.t T) * option string :=
  let newSimulation := newSimulation now today in
  (newSimulation :: prev, Some (Simulation.id newSimulation)).
End AppList.

(** What [SimulationList] passes to one [SimulationCard]. *)
Record CardProps (T : Type) : Type := mkCardProps {
  key : string;
  simulation : Simulation.t T;
  defaultExpanded : bool
}.

(** [simulations.map((sim, index) => ...)] from the index [index] on. *)
Fixpoint cardsFrom {T : Type} (index : nat) (simulations : list (Simulation.t T))
  : list (CardProps T) :=
  match simulations with
  | [] => []
  | sim :: rest =>
      mkCardProps (Simulation.id sim) sim (Nat.eqb index 0)
      :: cardsFrom (S index) rest
  end.

(** [SimulationList]: [None] is the "No Simulations Yet" message. *)
Definition SimulationList {T : Type} (simulations : list (Simulation.t T))
  : option (list (CardProps T)) :=
  if Nat.eqb (List.length simulations) 0 then None
  else Some (cardsFrom 0 simulations).
End AppList.

(** ** The simulation card: the other handlers *)

Module Card.

(** [LocalValuesState], the object that [getValuesFromSim] returns: the
    four texts of the simulation, and for every other field the number that
    the code turns into a text with [toString()] or [toFixed(2)].  An
    undefined amount is shown as the empty text. *)
Module Values.
Record t (T : Type) : Type := mk {
  protocol : string;
  tokenA : string;
  tokenB : string;
  initialPriceA : T;
  initialPriceB : T;
  amountA : option T;
  valueA : T;
  amountB : option T;
  valueB : T;
  apr : T;
  duration : T;
  lowerPriceBound : T;
  upperPriceBound : T;
  pctLower : T;
  pctUpper : T;
  startDate : string;
  latestPriceA : T;
  latestPriceB : T;
  shortAmount : T;
  fundingRate : T
}.
End Values.

(** The keys of [handleInputChange] that hold a text. *)
Inductive TextKey : Type := protocol | tokenA | tokenB | startDate.

(** The keys of [handleInputChange] that set an amount. *)
Inductive AmountKey : Type := amountA | valueA | amountB | valueB.

(** The keys of [handleInputChange] that reach its generic numeric case. *)
Inductive NumericKey : Type :=
  | initialPriceA | initialPriceB | apr | duration
  | latestPriceA | latestPriceB | shortAmount | fundingRate.

(** [LocalValueKey]: the twenty keys of [handleInputChange], by the branch
    that handles them. *)
Inductive Key : Type :=
  | TextK (key : TextKey)
  | AmountK (key : AmountKey)
  | BoundK (key : BoundKey)
  | NumericK (key : NumericKey).

Section Card.
Context {T : Type} `{Num T}.
Local Open Scope js_scope.

(** [getValuesFromSim], before [toString()] and [toFixed(2)]; a percentage
    that is NaN is shown as ['0.00']. *)
Definition getValuesFromSim (sim : Simulation.t T) : Values.t T :=
  let priceRatio :=
    if Simulation.initialPriceB sim >? zero
    then Simulation.initialPriceA sim / Simulation.initialPriceB sim
    else zero in
  let lowerPct :=
    if priceRatio >? zero
    then ((priceRatio - Simulation.lowerPriceBound sim) / priceRatio)
         * of_Z 100
    else zero in
  let upperPct :=
    if priceRatio >? zero
    then ((Simulation.upperPriceBound sim - priceRatio) / priceRatio)
         * of_Z 100
    else zero in
  Values.mk
    (Simulation.protocol sim)
    (Simulation.tokenA sim)
    (Simulation.tokenB sim)
    (Simulation.initialPriceA sim)
    (Simulation.initialPriceB sim)
    (Simulation.amountA sim)
    (nullish (Simulation.amountA sim) zero * Simulation.initialPriceA sim)
    (Simulation.amountB sim)
    (nullish (Simulation.amountB sim) zero * Simulation.initialPriceB sim)
    (Simulation.apr sim)
    (Simulation.duration sim)
    (Simulation.lowerPriceBound sim)
    (Simulation.upperPriceBound sim)
    (if isNaN lowerPct then zero else lowerPct)
    (if isNaN upperPct then zero else upperPct)
    (Simulation.startDate sim)
    (Simulation.latestPriceA sim)
    (Simulation.latestPriceB sim)
    (Simulation.shortAmount sim)
    (Simulation.fundingRate sim).

(** [{ [key]: value }] for a key that holds a text. *)
Definition textPatch (key : TextKey) (value : string) : Partial.t T :=
  match key with
  | protocol => Patch.protocol T value
  | tokenA => Patch.tokenA T value
  | tokenB => Patch.tokenB T value
  | startDate => Patch.startDate T value
  end.

(** The generic numeric case's [simUpdate] for one key. *)
Definition numericPatch (key : NumericKey) (v : T) : Partial.t T :=
  match key with
  | initialPriceA => Patch.initialPriceA v
  | initialPriceB => Patch.initialPriceB v
  | apr => Patch.apr v
  | duration => Patch.duration v
  | latestPriceA => Patch.latestPriceA v
  | latestPriceB => Patch.latestPriceB v
  | shortAmount => Patch.shortAmount v
  | fundingRate => Patch.fundingRate v
  end.

(** [handleInputChange] for the amount and value keys.  [valueEmpty] is
    [value === ''] and [numValue] is [parseFloat(value)].  The result is
    the number written into the dependent text field, if one is, and
    [simUpdate]. *)
Definition handleAmountChange (key : AmountKey) (valueEmpty : bool)
    (numValue : T) (simulation : Simulation.t T) : option T * Partial.t T :=
  let isValidNumber := negb (isNaN numValue) in
  match key with
  | amountA =>
      if isValidNumber then
        (Some (numValue * Simulation.initialPriceA simulation),
         Patch.amountA numValue)
      else if valueEmpty then (Some zero, Patch.amountA zero)
      else (None, Partial.empty T)
  | valueA =>
      if isValidNumber && (Simulation.initialPriceA simulation >? zero) then
        let newAmount := numValue / Simulation.initialPriceA simulation in
        (Some newAmount, Patch.amountA newAmount)
      else if valueEmpty then (None, Patch.amountA zero)
      else (None, Partial.empty T)
  | amountB =>
      if isValidNumber then
        (Some (numValue * Simulation.initialPriceB simulation),
         Patch.amountB numValue)
      else if valueEmpty then (Some zero, Patch.amountB zero)
      else (None, Partial.empty T)
  | valueB =>
      if isValidNumber && (Simulation.initialPriceB simulation >? zero) then
        let newAmount := numValue / Simulation.initialPriceB simulation in
        (Some newAmount, Patch.amountB newAmount)
      else if valueEmpty then (None, Patch.amountB zero)
      else (None, Partial.empty T)
  end.

(** [handleInputChange] for the keys of the generic numeric case: its
    [simUpdate]. *)
Definition handleNumericChange (key : NumericKey) (valueEmpty : bool)
    (numValue : T) : Partial.t T :=
  let isValidNumber := negb (isNaN numValue) in
  if isValidNumber then numericPatch key numValue
  else if valueEmpty then numericPatch key zero
  else Partial.empty T.

(** [handleInputChange]: the update it passes to [onUpdate], or [None] when
    it does not call it.  [value] is the text typed and [numValue] is
    [parseFloat(value)].  A text key is passed on before the text is parsed;
    for the other keys [onUpdate] is called when [simUpdate] has a key. *)
Definition handleInputChange (key : Key) (value : string) (numValue : T)
    (simulation : Simulation.t T) : option (Partial.t T) :=
  let valueEmpty := String.eqb value "" in
  let staged (simUpdate : Partial.t T) :=
    if Partial.hasKeys simUpdate then Some simUpdate else None in
  match key with
  | TextK key => Some (textPatch key value)
  | AmountK key =>
      staged (snd (handleAmountChange key valueEmpty numValue simulation))
  | BoundK key =>
      staged (snd (Engine.handleInputChange key numValue simulation))
  | NumericK key => staged (handleNumericChange key valueEmpty numValue)
  end.

(** [handleHedgeToggle]: the update passed to [onUpdate]. *)
Definition handleHedgeToggle (enabled : bool) (simulation : Simulation.t T)
  : Partial.t T :=
  if enabled then
    let tokenAValue :=
      nullish (Simulation.amountA simulation) zero
      * Simulation.initialPriceA simulation in
    let tokenBValue :=
      nullish (Simulation.amountB simulation) zero
      * Simulation.initialPriceB simulation in
    let newShortAmount :=
      if ShortToken_eqb (Simulation.shortToken simulation) TokenA
      then tokenAValue else tokenBValue in
    Patch.hedge enabled (Some newShortAmount)
  else Patch.hedge enabled None.

(** [handleShortTokenChange]: the update passed to [onUpdate]. *)
Definition handleShortTokenChange (token : ShortToken)
    (simulation : Simulation.t T) : Partial.t T :=
  let tokenAValue :=
    nullish (Simulation.amountA simulation) zero
    * Simulation.initialPriceA simulation in
  let tokenBValue :=
    nullish (Simulation.amountB simulation) zero
    * Simulation.initialPriceB simulation in
  let newShortAmount :=
    if ShortToken_eqb token TokenA then tokenAValue else tokenBValue in
  Patch.short token newShortAmount.

(** The click on the hedging [Toggle]:
    [onChange(!enabled)] with [enabled = simulation.isHedgeEnabled ?? false]. *)
Definition toggleHedge (simulation : Simulation.t T) : Partial.t T :=
  let isHedgeEnabled :=
    match Simulation.isHedgeEnabled simulation with
    | Some b => b
    | None => false
    end in
  handleHedgeToggle (negb isHedgeEnabled) simulation.

(** [Math.max] of two numbers: NaN if either is NaN, and [+0] above [-0]. *)
Definition Math_max (x y : T) : T :=
  if isNaN x || isNaN y then zero / zero
  else if x <? y then y
  else if y <? x then x
  else if one / x <? zero then y else x.

(** [PriceRangeBar]: [None] is the message shown for an empty range,
    otherwise [currentPosition] and [positionClamped]. *)
Definition PriceRangeBar (range : PriceRange.t T) : option (T * T) :=
  let totalRange := PriceRange.max range - PriceRange.min range in
  if totalRange <=? zero then None
  else
    let currentPosition :=
      ((PriceRange.current range - PriceRange.min range) / totalRange)
      * of_Z 100 in
    let positionClamped :=
      Math_max zero (Math_min (of_Z 100) currentPosition) in
    Some (currentPosition, positionClamped).
End Card.
End Card.

(** The state of the list after the card's [onUpdate(simulation.id, update)]. *)
Definition onUpdate {T : Type} (simulation : Simulation.t T)
    (update : Partial.t T) (simulations : list (Simulation.t T))
  : list (Simulation.t T) :=
  App.updateSimulation (Simulation.id simulation) update simulations.

(** The state of the list after the card's [handleInputChange(key, value)]. *)
Definition onInput {T : Type} `{Num T} (simulation : Simulation.t T)
    (key : Card.Key) (value : string) (numValue : T)
    (simulations : list (Simulation.t T)) : list (Simulation.t T) :=
  match Card.handleInputChange key value numValue simulation with
  | Some update => onUpdate simulation update simulations
  | None => simulations
  end.

(** ** The chart component *)

(** [Math.floor] and [Math.ceil]. *)
Class Rounding (T : Type) : Type := {
  Math_floor : T -> T;
  Math_ceil : T -> T
}.

(** On binary64 numbers, from the sign, the mantissa and the exponent of the
    number: a number with a non-negative exponent is whole; otherwise the
    mantissa is shifted right and the result is one less if the number is
    negative and bits were lost.  NaN, the infinities and the zeros are
    their own floor. *)
Definition float_floor (x : float) : float :=
  match FloatOps.Prim2SF x with
  | S754_finite negative m e =>
      if (0 <=? e)%Z then x
      else
        let q := Z.shiftr (Zpos m) (- e) in
        if Z.eqb (Z.shiftl q (- e)) (Zpos m) then x
        else if negative then float_of_Z (- (q + 1))
        else float_of_Z q
  | _ => x
  end.

(** [Math.ceil(x)] is [-Math.floor(-x)]. *)
Definition float_ceil (x : float) : float :=
  PrimFloat.opp (float_floor (PrimFloat.opp x)).

#[export] Instance FloatRounding : Rounding float := {|
  Math_floor := float_floor;
  Math_ceil := float_ceil
|}.

#[export] Instance XRealRounding : Rounding xreal := {|
  Math_floor := fun x =>
    match x with
    | Xreal r => Xreal (IZR (Int_part r))
    | Xnan => Xnan
    end;
  Math_ceil := fun x =>
    match x with
    | Xreal r => Xreal (- IZR (Int_part (- r)))
    | Xnan => Xnan
    end
|}.

Module Chart.

(** The scales and the labels computed by the [chartData] memo of the chart.
    The labels of the x axis and the two path texts are left out. *)
Module Scales.
Record t (T : Type) : Type := mk {
  xMax : T;
  yDomainMin : T;
  yDomainMax : T;
  yAxisLabels : list (T * T)
}.
End Scales.

(** The [tooltip] state. *)
Module Tooltip.
Record t (T : Type) : Type := mk {
  x : T;
  y : T;
  data : Point.t T
}.
End Tooltip.

Section Chart.
Context {T : Type} `{Num T} `{Rounding T}.
Local Open Scope js_scope.

Definition PADDING_top : T := of_Z 20.
Definition PADDING_right : T := of_Z 20.
Definition PADDING_bottom : T := of_Z 40.
Definition PADDING_left : T := of_Z 60.
Definition WIDTH : T := of_Z 800.
Definition HEIGHT : T := of_Z 400.

(** [Math.abs]: the number itself when it is positive, otherwise [0 - x],
    which is [+0] for both zeros and NaN for NaN. *)
Definition Math_abs (x : T) : T :=
  if zero <? x then x else zero - x.

(** [Math.min(...values)] and [Math.max(...values)]: with no argument,
    [Infinity] and [-Infinity]. *)
Definition minOf (values : list T) : T :=
  match values with
  | [] => one / zero
  | v :: vs => fold_left Math_min vs v
  end.

Definition maxOf (values : list T) : T :=
  match values with
  | [] => of_Z (-1) / zero
  | v :: vs => fold_left Card.Math_max vs v
  end.

(** [xScale] and [yScale] of the memo. *)
Definition xScale (xMax day : T) : T :=
  PADDING_left + (day / xMax) * (WIDTH - PADDING_left - PADDING_right).

Definition yScale (yDomainMin yDomainMax value : T) : T :=
  HEIGHT - PADDING_bottom
  - ((value - yDomainMin) / (yDomainMax - yDomainMin))
    * (HEIGHT - PADDING_top - PADDING_bottom).

(** The [chartData] memo of the chart: [None] is [null]. *)
Definition chartData (data : list (Point.t T)) : option (Scales.t T) :=
  match data with
  | [] => None
  | first :: _ =>
      let values :=
        List.map (@Point.totalValue T) data
        ++ List.map (@Point.holdValue T) data in
      let yMin := minOf values in
      let yMax := maxOf values in
      let xMax := Point.day (List.last data first) in
      let yDomainMin := Math_floor (yMin / of_Z 1000) * of_Z 1000 in
      let yDomainMax := Math_ceil (yMax / of_Z 1000) * of_Z 1000 in
      let numTicks := of_Z 5 in
      let yAxisLabels :=
        List.map
          (fun i =>
             let value :=
               yDomainMin + (of_Z i / numTicks) * (yDomainMax - yDomainMin) in
             (value, yScale yDomainMin yDomainMax value))
          [0; 1; 2; 3; 4; 5]%Z in
      Some (Scales.mk xMax yDomainMin yDomainMax yAxisLabels)
  end.

(** The coordinates that [createPath(key)] prints, one pair per point. *)
Definition createPath (key : Point.t T -> T) (data : list (Point.t T))
  : list (T * T) :=
  match chartData data with
  | None => []
  | Some scales =>
      List.map
        (fun d =>
           (xScale (Scales.xMax scales) (Point.day d),
            yScale (Scales.yDomainMin scales) (Scales.yDomainMax scales)
                   (key d)))
        data
  end.

(** [data.reduce((prev, curr) => ... ? curr : prev)] of [handleMouseMove],
    from the first point over the rest. *)
Definition closestPoint (day : T) (first : Point.t T)
    (rest : list (Point.t T)) : Point.t T :=
  fold_left
    (fun prev curr =>
       if Math_abs (Point.day curr - day) <? Math_abs (Point.day prev - day)
       then curr else prev)
    rest first.

(** [handleMouseMove] for a mounted chart: the new tooltip, or [None] when
    the handler returns without setting it.  [svgX] is
    [event.clientX - rect.left]. *)
Definition handleMouseMove (svgX : T) (data : list (Point.t T))
  : option (Tooltip.t T) :=
  match chartData data, data with
  | Some scales, first :: rest =>
      let xMax := Point.day (List.last data first) in
      let day :=
        (svgX - PADDING_left) / (WIDTH - PADDING_left - PADDING_right)
        * xMax in
      let closestPoint := closestPoint day first rest in
      Some (Tooltip.mk
              (xScale (Scales.xMax scales) (Point.day closestPoint))
              (yScale (Scales.yDomainMin scales) (Scales.yDomainMax scales)
                      (Point.totalValue closestPoint))
              closestPoint)
  | _, _ => None
  end.
End Chart.
End Chart.

(** A point whose fields are real numbers, read in exact arithmetic. *)
Definition exactPoint (p : Point.t R) : Point.t xreal :=
  Point.mk (Xreal (Point.day p)) (Xreal (Point.totalValue p))
           (Xreal (Point.holdValue p)) (Xreal (Point.earnedFees p)).

(** The values that the chart scales: the total values, then the hold
    values. *)
Definition plottedValues (data : list (Point.t R)) : list R :=
  List.map (@Point.totalValue R) data ++ List.map (@Point.holdValue R) data.

(** A freshly added simulation whose APR field was set to 0. *)
Definition flatSimulation (now today : string) : Simulation.t float :=
  App.spread (AppList.newSimulation now today)
    (Card.handleNumericChange Card.apr false 0%float).

(** [1000 * lo] and [1000 * hi] are the nearest multiples of 1000 below and
    above all the plotted values of [data]. *)
Definition brackets (data : list (Point.t R)) (lo hi : Z) : Prop :=
  (forall v, In v (plottedValues data) -> (1000 * IZR lo <= v <= 1000 * IZR hi)%R)
  /\ (exists v, In v (plottedValues data) /\ (v < 1000 * IZR (lo + 1))%R)
  /\ (exists v, In v (plottedValues data) /\ (1000 * IZR (hi - 1) < v)%R).

(** ** Properties that hold for every arithmetic *)

Section Generic.
Context {T : Type}.

Lemma spread_merged (sim : Simulation.t T) (patch : Partial.t T) :
  Spec.merged sim patch (App.spread sim patch).
Proof.
  unfold Spec.merged, App.spread, App.override; cbn.
  repeat split;
    match goal with
    | |- match ?p with _ => _ end => destruct p; reflexivity
    end.
Qed.

Lemma spread_empty (sim : Simulation.t T) :
  App.spread sim (Partial.empty T) = sim.
Proof. destruct sim; reflexivity. Qed.

Lemma updateSimulation_Forall2 (id : string) (patch : Partial.t T)
    (prev : list (Simulation.t T)) :
  Forall2 (Spec.updated id patch) prev (App.updateSimulation id patch prev).
Proof.
  induction prev as [|sim prev IH]; cbn; constructor; trivial.
  unfold Spec.updated.
  destruct (String.eqb_spec (Simulation.id sim) id) as [E|E]; split;
    intros E'; try congruence.
  apply spread_merged.
Qed.

Lemma removeSimulation_removed (id : string) (prev : list (Simulation.t T)) :
  Spec.removed id prev (App.removeSimulation id prev).
Proof.
  induction prev as [|sim prev IH]; cbn.
  - constructor.
  - destruct (String.eqb_spec (Simulation.id sim) id) as [E|E]; cbn.
    + now apply Spec.removed_drop.
    + now apply Spec.removed_keep.
Qed.

(** [Spec.removed] determines its result: the relation describes one list. *)
Lemma removed_functional (id : string) (l l1 l2 : list (Simulation.t T)) :
  Spec.removed id l l1 -> Spec.removed id l l2 -> l1 = l2.
Proof.
  intros H1; revert l2.
  induction H1 as [|sim l l' E _ IH|sim l l' E _ IH]; intros l2 H2;
    inversion H2; subst; try congruence; auto.
  f_equal; auto.
Qed.
End Generic.

Section GenericEngine.
Context {T : Type} `{Num T}.

Lemma chartDay_withBounds (lower upper : T) (s : Simulation.t T)
    (a b inv day : T) :
  Engine.chartDay (Simulation.withBounds lower upper s) a b inv day
  = Engine.chartDay s a b inv day.
Proof. reflexivity. Qed.

Lemma chartLoop_withBounds (lower upper : T) (s : Simulation.t T)
    (a b inv : T) (fuel : nat) :
  forall day acc,
    Engine.chartLoop fuel (Simulation.withBounds lower upper s) a b inv
                     day acc
    = Engine.chartLoop fuel s a b inv day acc.
Proof.
  induction fuel as [|fuel IH]; intros day acc; cbn [Engine.chartLoop].
  - reflexivity.
  - rewrite chartDay_withBounds, IH. reflexivity.
Qed.

Lemma chartData_withBounds (lower upper : T) (s : Simulation.t T)
    (fuel : nat) :
  Engine.chartData fuel (Simulation.withBounds lower upper s)
  = Engine.chartData fuel s.
Proof.
  unfold Engine.chartData.
  change (Simulation.duration (Simulation.withBounds lower upper s))
    with (Simulation.duration s).
  change (Simulation.amountA (Simulation.withBounds lower upper s))
    with (Simulation.amountA s).
  change (Simulation.amountB (Simulation.withBounds lower upper s))
    with (Simulation.amountB s).
  destruct (_ || _ || _); [reflexivity|].
  destruct (Simulation.amountA s), (Simulation.amountB s); try reflexivity.
  apply chartLoop_withBounds.
Qed.

(** The guard of [chartData]. *)
Lemma chartData_guard (s : Simulation.t T) (fuel : nat) :
  (Simulation.duration s <=? zero)%js
  || not_opt (Simulation.amountA s) || not_opt (Simulation.amountB s) = true ->
  Engine.chartData fuel s = Some [].
Proof. unfold Engine.chartData. intros ->. reflexivity. Qed.

(** The snapshot against the reference formulas. *)
Lemma calculations_holdValue (s : Simulation.t T) :
  Calc.holdValue (Engine.calculations s) = Spec.holdValue s.
Proof. reflexivity. Qed.

Lemma ilFactor_agrees (k : T) :
  Spec.ilFactor k = Engine.impermanentLossFactor k.
Proof. reflexivity. Qed.

Lemma calculations_finalLpValue (s : Simulation.t T) :
  Calc.finalLpValue (Engine.calculations s)
  = if Spec.lossModelled s
    then (Spec.holdValue s
          * (of_Z 1
             + Spec.ilFactor (Spec.latestRatio s / Spec.initialRatio s)))%js
    else Spec.holdValue s.
Proof. reflexivity. Qed.
End GenericEngine.

(** ** Exact arithmetic: how the operations compute on real arguments *)

Section XRealFacts.
Local Open Scope R_scope.

Lemma xr_div (a b : R) :
  b <> 0 -> (Xreal a / Xreal b)%js = Xreal (a / b).
Proof.
  intros Hb. cbn. destruct (Req_dec_T b 0); [contradiction | reflexivity].
Qed.

Lemma xr_sqrt (a : R) :
  0 <= a -> Math_sqrt (Xreal a) = Xreal (sqrt a).
Proof.
  intros Ha. cbn. destruct (Rlt_dec a 0); [lra | reflexivity].
Qed.

Lemma xr_ltb_true (a b : R) : a < b -> (Xreal a <? Xreal b)%js = true.
Proof. intros Hab. cbn. destruct (Rlt_dec a b); [reflexivity | contradiction]. Qed.

Lemma xr_ltb_false (a b : R) : b <= a -> (Xreal a <? Xreal b)%js = false.
Proof. intros Hab. cbn. destruct (Rlt_dec a b); [lra | reflexivity]. Qed.

Lemma xr_leb_true (a b : R) : a <= b -> (Xreal a <=? Xreal b)%js = true.
Proof. intros Hab. cbn. destruct (Rle_dec a b); [reflexivity | contradiction]. Qed.

Lemma xr_leb_false (a b : R) : b < a -> (Xreal a <=? Xreal b)%js = false.
Proof. intros Hab. cbn. destruct (Rle_dec a b); [lra | reflexivity]. Qed.

Lemma xr_ltb_iff (a b : R) : (Xreal a <? Xreal b)%js = true <-> a < b.
Proof.
  cbn. destruct (Rlt_dec a b); split; intros; easy.
Qed.

Lemma xr_leb_iff (a b : R) : (Xreal a <=? Xreal b)%js = true <-> a <= b.
Proof.
  cbn. destruct (Rle_dec a b); split; intros; easy.
Qed.

Lemma xr_falsy (a : R) : falsy (Xreal a) = false <-> a <> 0.
Proof.
  unfold falsy, zero; cbn.
  destruct (Rlt_dec a 0), (Rlt_dec 0 a); cbn; split; intros; try lra;
    try discriminate; trivial.
Qed.

(** The loss factor of a positive real ratio is the closed formula, and it
    is a number. *)
Lemma impermanentLossFactor_exact (k : R) :
  0 < k ->
  Engine.impermanentLossFactor (Xreal k)
  = Xreal (2 * sqrt k / (1 + k) - 1).
Proof.
  intros Hk. unfold Engine.impermanentLossFactor, one.
  rewrite xr_sqrt by lra.
  change (of_Z 2 * Xreal (sqrt k))%js with (Xreal (2 * sqrt k)).
  change (of_Z 1 + Xreal k)%js with (Xreal (1 + k)).
  rewrite xr_div by lra.
  reflexivity.
Qed.

Lemma ilFactor_reciprocal (k : R) :
  0 < k -> 2 * sqrt (1 / k) / (1 + 1 / k) - 1 = 2 * sqrt k / (1 + k) - 1.
Proof.
  intros Hk.
  assert (Hr : 0 < sqrt k) by now apply sqrt_lt_R0.
  assert (Hrr : sqrt k * sqrt k = k) by (apply sqrt_sqrt; lra).
  assert (Hinv : sqrt (1 / k) = / sqrt k).
  { unfold Rdiv. rewrite Rmult_1_l. apply sqrt_inv. }
  rewrite Hinv. remember (sqrt k) as r eqn:Er. clear Er Hinv.
  rewrite <- Hrr. field. split; nra.
Qed.
End XRealFacts.

(** ** The snapshot and the conversions in exact arithmetic *)

Section ExactValuation.
Local Open Scope R_scope.

(** A guarded quotient of two reals never divides by zero. *)
Lemma guarded_ratio_exact (a b : R) :
  (if (Xreal b >? zero)%js then (Xreal a / Xreal b)%js else zero)
  = Xreal (if Rlt_dec 0 b then a / b else 0).
Proof.
  unfold zero. cbn. destruct (Rlt_dec 0 b); [|reflexivity].
  destruct (Req_dec_T b 0); [lra | reflexivity].
Qed.

Lemma initialPriceRatio_exact (s : Simulation.t R) :
  Engine.initialPriceRatio (exact s)
  = Xreal (if Rlt_dec 0 (Simulation.initialPriceB s)
           then Simulation.initialPriceA s / Simulation.initialPriceB s
           else 0).
Proof. apply guarded_ratio_exact. Qed.

Lemma initialRatio_exact (s : Simulation.t R) :
  Spec.initialRatio (exact s)
  = Xreal (if Rlt_dec 0 (Simulation.initialPriceB s)
           then Simulation.initialPriceA s / Simulation.initialPriceB s
           else 0).
Proof. apply guarded_ratio_exact. Qed.

Lemma latestRatio_exact (s : Simulation.t R) :
  Spec.latestRatio (exact s)
  = Xreal (if Rlt_dec 0 (Simulation.latestPriceB s)
           then Simulation.latestPriceA s / Simulation.latestPriceB s
           else 0).
Proof. apply guarded_ratio_exact. Qed.

Lemma holdValue_exact (s : Simulation.t R) :
  exists h : R, Spec.holdValue (exact s) = Xreal h.
Proof.
  unfold Spec.holdValue, exact; cbn.
  destruct (Simulation.amountA s), (Simulation.amountB s); cbn; eauto.
Qed.
End ExactValuation.

(** ** Binary64 arithmetic: the facts about rounding that the claims need

    The operations on primitive floats are specified by the functions of
    [SpecFloat] on a sign, a mantissa and an exponent.  Three facts are
    derived from that specification: multiplying by 1 and dividing a number
    by itself are exact, and so are counting in steps of 1 and comparing
    whole numbers, up to [2^53]. *)

Section Binary64.
Local Open Scope Z_scope.
Local Unset Implicit Arguments.

Lemma iter_pos_iter {A : Type} (f : A -> A) (p : positive) :
  forall x, SpecFloat.iter_pos f p x = Pos.iter f x p.
Proof.
  induction p as [p IH|p IH|]; intros x; cbn.
  - rewrite !IH. rewrite <- !Pos.iter_swap. reflexivity.
  - now rewrite !IH.
  - reflexivity.
Qed.

Lemma shr_zeros (p : positive) (m : positive) :
  SpecFloat.iter_pos shr_1 p
    (Build_shr_record (Zpos (Pos.iter xO m p)) false false)
  = Build_shr_record (Zpos m) false false.
Proof.
  rewrite iter_pos_iter. revert m.
  induction p as [|p IH] using Pos.peano_ind; intros m.
  - reflexivity.
  - rewrite Pos.iter_succ. rewrite Pos.iter_succ_r.
    rewrite IH. reflexivity.
Qed.

Lemma digits2_xO_iter (p m : positive) :
  Zpos (digits2_pos (Pos.iter xO m p)) = Zpos (digits2_pos m) + Zpos p.
Proof.
  induction p as [|p IH] using Pos.peano_ind.
  - cbn. lia.
  - rewrite Pos.iter_succ. cbn [digits2_pos]. lia.
Qed.

Lemma digits2_pshift (m : positive) (n : Z) :
  0 <= n -> Zpos (digits2_pos (pshift m n)) = Zpos (digits2_pos m) + n.
Proof.
  intros Hn. destruct n as [|p|p]; cbn [pshift]; try lia.
  apply digits2_xO_iter.
Qed.

Lemma pshift_value (m : positive) (n : Z) :
  0 <= n -> Zpos (pshift m n) = Zpos m * 2 ^ n.
Proof.
  intros Hn. destruct n as [|p|p]; cbn [pshift]; [rewrite Z.pow_0_r; lia| |lia].
  clear Hn. induction p as [|p IH] using Pos.peano_ind.
  - cbn. lia.
  - rewrite Pos.iter_succ, Pos2Z.inj_succ, Z.pow_succ_r by lia.
    rewrite Pos2Z.inj_xO, IH. lia.
Qed.

(** Rounding a mantissa whose [n] low bits are zero to the exponent
    [e + n], when that is the canonical exponent, is exact. *)
Lemma round_exact (s : bool) (m : positive) (n e : Z) :
  0 <= n ->
  fexp prec emax (Zpos (digits2_pos m) + n + e) = e + n ->
  e + n <= emax - prec ->
  binary_round_aux prec emax s (Zpos (pshift m n)) e loc_Exact
  = S754_finite s m (e + n).
Proof.
  intros Hn Hfexp Hb.
  unfold binary_round_aux, shr_fexp.
  cbn [Zdigits2]. rewrite digits2_pshift by assumption.
  rewrite Hfexp. replace (e + n - e) with n by lia.
  cbn [shr_record_of_loc].
  assert (Hshr : shr (Build_shr_record (Zpos (pshift m n)) false false) e n
                 = (Build_shr_record (Zpos m) false false, e + n)).
  { destruct n as [|p|p]; cbn [shr pshift]; try lia.
    - f_equal. lia.
    - now rewrite shr_zeros. }
  rewrite Hshr. cbn [shr_m loc_of_shr_record round_nearest_even Zdigits2
                     shr_record_of_loc].
  replace (Zpos (digits2_pos m) + (e + n)) with (Zpos (digits2_pos m) + n + e)
    by lia.
  rewrite Hfexp, Z.sub_diag. cbn [shr shr_m].
  apply Z.leb_le in Hb. now rewrite Hb.
Qed.

Lemma valid_finite (s : bool) (m : positive) (e : Z) :
  valid_binary (S754_finite s m e) = true ->
  fexp prec emax (Zpos (digits2_pos m) + e) = e /\ e <= emax - prec.
Proof.
  cbn. unfold bounded, canonical_mantissa.
  intros H. apply andb_prop in H as [H1 H2].
  apply Z.eqb_eq in H1. apply Z.leb_le in H2. now split.
Qed.

Lemma Prim2SF_one : Prim2SF 1 = S754_finite false 4503599627370496 (-52).
Proof. reflexivity. Qed.

(** [x * 1] is [x], for every binary64 number. *)
Lemma float_mul_one (x : float) : (x * 1)%float = x.
Proof.
  apply Prim2SF_inj. rewrite mul_spec, Prim2SF_one.
  pose proof (Prim2SF_valid x) as Hv.
  destruct (Prim2SF x) as [s|s| |s m e]; cbn [SF64mul SFmul].
  - now destruct s.
  - now destruct s.
  - reflexivity.
  - apply valid_finite in Hv as [Hc Hb].
    rewrite Pos.mul_comm.
    change (4503599627370496 * m)%positive with (pshift m 52).
    rewrite round_exact with (n := 52).
    + f_equal; [now destruct s | lia].
    + lia.
    + replace (Zpos (digits2_pos m) + 52 + (e + -52))
        with (Zpos (digits2_pos m) + e) by lia.
      rewrite Hc. lia.
    + lia.
Qed.

(** [x / x] is [1], for every finite binary64 number other than zero. *)
Lemma float_div_self (x : float) (s : bool) (m : positive) (e : Z) :
  Prim2SF x = S754_finite s m e -> (x / x)%float = 1%float.
Proof.
  intros Hx. apply Prim2SF_inj. rewrite div_spec, Hx, Prim2SF_one.
  cbn [SF64div SFdiv]. unfold SFdiv_core_binary.
  cbn [Zdigits2].
  replace (Zpos (digits2_pos m) + e - (Zpos (digits2_pos m) + e)) with 0
    by lia.
  rewrite Z.sub_diag.
  change (Z.min (fexp prec emax 0) 0) with (-53).
  change (0 - -53) with 53.
  cbv iota.
  rewrite Z.shiftl_mul_pow2 by lia.
  assert (Hq : Z.div_eucl (Zpos m * 2 ^ 53) (Zpos m) = (2 ^ 53, 0)).
  { pose proof (Z.div_eucl_eq (Zpos m * 2 ^ 53) (Zpos m) ltac:(lia)) as Heq.
    pose proof (Z.mod_pos_bound (Zpos m * 2 ^ 53) (Zpos m) ltac:(lia)) as Hm.
    unfold Z.modulo in Hm.
    destruct (Z.div_eucl (Zpos m * 2 ^ 53) (Zpos m)) as [q r].
    assert (r = 0 /\ q = 2 ^ 53) as [-> ->]; [|reflexivity].
    set (c := 2 ^ 53) in *.
    assert (Hr : r = Zpos m * (c - q)) by (rewrite Z.mul_sub_distr_l; lia).
    assert (c - q = 0) by nia.
    lia. }
  rewrite Hq.
  assert (Hl : new_location (Zpos m) 0 = loc_Exact).
  { unfold new_location, new_location_even, new_location_odd.
    now destruct (Z.even (Zpos m)). }
  rewrite Hl. now destruct s.
Qed.

Lemma digits2_spec (k : positive) :
  2 ^ (Zpos (digits2_pos k) - 1) <= Zpos k < 2 ^ Zpos (digits2_pos k).
Proof.
  induction k as [k IH|k IH|]; cbn [digits2_pos].
  - rewrite Pos2Z.inj_succ, Z.pow_succ_r by lia.
    replace (Z.succ (Zpos (digits2_pos k)) - 1)
      with (Z.succ (Zpos (digits2_pos k) - 1)) by lia.
    rewrite Z.pow_succ_r by lia. lia.
  - rewrite Pos2Z.inj_succ, Z.pow_succ_r by lia.
    replace (Z.succ (Zpos (digits2_pos k)) - 1)
      with (Z.succ (Zpos (digits2_pos k) - 1)) by lia.
    rewrite Z.pow_succ_r by lia. lia.
  - cbn. lia.
Qed.

Lemma digits2_le (k : positive) (n : Z) :
  Zpos k < 2 ^ n -> Zpos (digits2_pos k) <= n.
Proof.
  intros Hk. destruct (digits2_spec k) as [Hlo _].
  destruct (Z.le_gt_cases (Zpos (digits2_pos k)) n) as [|Hgt]; [assumption|].
  assert (0 <= n).
  { destruct (Z.le_gt_cases 0 n); [assumption|].
    rewrite Z.pow_neg_r in Hk by lia. lia. }
  assert (2 ^ n <= 2 ^ (Zpos (digits2_pos k) - 1))
    by (apply Z.pow_le_mono_r; lia).
  lia.
Qed.

Lemma pshift_pshift (m : positive) (a b : Z) :
  0 <= a -> 0 <= b -> pshift (pshift m a) b = pshift m (a + b).
Proof.
  intros Ha Hb. apply Pos2Z.inj.
  rewrite !pshift_value by lia. rewrite Z.pow_add_r by lia. lia.
Qed.

Lemma shl_align_pshift (mx : positive) (ex ex' : Z) :
  shl_align mx ex ex' = (pshift mx (ex - ex'), Z.min ex ex').
Proof.
  unfold shl_align.
  destruct (ex' - ex) as [|d|d] eqn:Hd.
  - replace (ex - ex') with 0 by lia. cbn. f_equal. lia.
  - replace (ex - ex') with (Zneg d) by lia. cbn. f_equal. lia.
  - replace (ex - ex') with (Zpos d) by lia. cbn. f_equal. lia.
Qed.

Lemma fexp_small (d : Z) : -1000 <= d -> fexp prec emax d = d - 53.
Proof. intros Hd. unfold fexp, emin, prec, emax. lia. Qed.

Lemma binary_round_pos (k : positive) :
  Zpos k < 2 ^ 53 ->
  binary_round prec emax false k 0 = normal_of_pos k.
Proof.
  intros Hk. pose proof (digits2_le k 53 Hk) as Hd.
  unfold binary_round. rewrite shl_align_pshift.
  rewrite Z.add_0_r, fexp_small by lia.
  replace (0 - (Zpos (digits2_pos k) - 53)) with (53 - Zpos (digits2_pos k))
    by lia.
  replace (Z.min 0 (Zpos (digits2_pos k) - 53))
    with (Zpos (digits2_pos k) - 53) by lia.
  change (pshift k (53 - Zpos (digits2_pos k)))
    with (pshift (pshift k (53 - Zpos (digits2_pos k))) 0) at 1.
  rewrite round_exact.
  - unfold normal_of_pos. f_equal. lia.
  - lia.
  - rewrite digits2_pshift by lia. rewrite fexp_small by lia. lia.
  - unfold emax, prec. lia.
Qed.

Lemma Prim2SF_of_pos (k : positive) :
  Zpos k < 2 ^ 53 -> Prim2SF (float_of_Z (Zpos k)) = normal_of_pos k.
Proof.
  intros Hk. cbn [float_of_Z].
  rewrite of_uint63_spec, Uint63.of_Z_spec.
  rewrite Z.mod_small.
  - cbn [binary_normalize]. now apply binary_round_pos.
  - split; [lia|]. apply Z.lt_trans with (2 ^ 53); [assumption|].
    reflexivity.
Qed.

Lemma SFadd_one (k : positive) :
  Zpos k + 1 < 2 ^ 53 ->
  SF64add (normal_of_pos k) (S754_finite false 4503599627370496 (-52))
  = normal_of_pos (k + 1).
Proof.
  intros Hk.
  assert (Hd : Zpos (digits2_pos k) <= 53) by (apply digits2_le; lia).
  assert (Hd' : Zpos (digits2_pos (k + 1)) <= 53) by (apply digits2_le; lia).
  unfold SF64add, SFadd, normal_of_pos.
  rewrite !shl_align_pshift. cbn [fst cond_Zopp].
  replace (Z.min (Zpos (digits2_pos k) - 53) (-52)) with (-52) by lia.
  rewrite pshift_pshift by lia.
  replace (53 - Zpos (digits2_pos k) + (Zpos (digits2_pos k) - 53 - -52))
    with 52 by lia.
  change (-52 - -52) with 0. cbn [pshift].
  change (Zpos (Pos.iter xO k 52) + 4503599627370496)
    with (Zpos (Pos.iter xO k 52 + 4503599627370496)).
  assert (Hsum : (Pos.iter xO k 52 + 4503599627370496)%positive
                 = pshift (k + 1) 52).
  { apply Pos2Z.inj. rewrite Pos2Z.inj_add.
    change (Pos.iter xO k 52) with (pshift k 52).
    rewrite !pshift_value by lia. rewrite Pos2Z.inj_add.
    change (2 ^ 52) with 4503599627370496. lia. }
  rewrite Hsum. cbn [binary_normalize]. unfold binary_round.
  rewrite shl_align_pshift, digits2_pshift by lia.
  rewrite fexp_small by lia.
  replace (-52 - (Zpos (digits2_pos (k + 1)) + 52 + -52 - 53))
    with (1 - Zpos (digits2_pos (k + 1))) by lia.
  replace (Z.min (-52) (Zpos (digits2_pos (k + 1)) + 52 + -52 - 53))
    with (-52) by lia.
  assert (Hid : pshift (pshift (k + 1) 52) (1 - Zpos (digits2_pos (k + 1)))
                = pshift (pshift (k + 1) (53 - Zpos (digits2_pos (k + 1))))
                         (Zpos (digits2_pos (k + 1)) - 1)).
  { rewrite (pshift_pshift (k + 1) (53 - Zpos (digits2_pos (k + 1)))
               (Zpos (digits2_pos (k + 1)) - 1)) by lia.
    replace (53 - Zpos (digits2_pos (k + 1))
             + (Zpos (digits2_pos (k + 1)) - 1)) with 52 by lia.
    destruct (1 - Zpos (digits2_pos (k + 1))) eqn:E; try reflexivity. lia. }
  rewrite Hid, round_exact.
  - f_equal. lia.
  - lia.
  - rewrite digits2_pshift by lia. rewrite fexp_small by lia. lia.
  - unfold emax, prec. lia.
Qed.

Lemma float_succ (k : Z) :
  0 <= k -> k + 1 < 2 ^ 53 ->
  (float_of_Z k + 1)%float = float_of_Z (k + 1).
Proof.
  intros H0 Hk. destruct k as [|k|k]; [reflexivity| |lia].
  apply Prim2SF_inj.
  rewrite add_spec, Prim2SF_one, Prim2SF_of_pos by lia.
  change (Zpos k + 1) with (Zpos (k + 1)).
  rewrite Prim2SF_of_pos by (rewrite Pos2Z.inj_add; lia).
  now apply SFadd_one.
Qed.

Lemma SFleb_pos (k n : positive) :
  Zpos k < 2 ^ 53 -> Zpos n < 2 ^ 53 ->
  SFleb (normal_of_pos k) (normal_of_pos n) = (Zpos k <=? Zpos n).
Proof.
  intros Hk Hn.
  assert (Hdk : Zpos (digits2_pos k) <= 53) by now apply digits2_le.
  assert (Hdn : Zpos (digits2_pos n) <= 53) by now apply digits2_le.
  destruct (digits2_spec k) as [Hk1 Hk2].
  destruct (digits2_spec n) as [Hn1 Hn2].
  unfold SFleb, normal_of_pos, SFcompare.
  destruct (Z.compare_spec (Zpos (digits2_pos k) - 53)
                           (Zpos (digits2_pos n) - 53)) as [He|He|He].
  - assert (Hdd : digits2_pos k = digits2_pos n) by lia.
    rewrite Hdd.
    change (Pos.compare_cont Eq ?a ?b) with (Z.compare (Zpos a) (Zpos b)).
    rewrite !pshift_value by lia.
    set (c := 2 ^ (53 - Zpos (digits2_pos n))).
    assert (Hc : 0 < c) by (apply Z.pow_pos_nonneg; lia).
    destruct (Z.compare_spec (Zpos k * c) (Zpos n * c));
      symmetry; [apply Z.leb_le|apply Z.leb_le|apply Z.leb_gt]; nia.
  - symmetry. apply Z.leb_le.
    assert (2 ^ Zpos (digits2_pos k) <= 2 ^ (Zpos (digits2_pos n) - 1))
      by (apply Z.pow_le_mono_r; lia).
    lia.
  - symmetry. apply Z.leb_gt.
    assert (2 ^ Zpos (digits2_pos n) <= 2 ^ (Zpos (digits2_pos k) - 1))
      by (apply Z.pow_le_mono_r; lia).
    lia.
Qed.

Lemma float_leb (k n : Z) :
  0 <= k < 2 ^ 53 -> 0 <= n < 2 ^ 53 ->
  (float_of_Z k <=? float_of_Z n)%float = (k <=? n).
Proof.
  intros Hk Hn. rewrite leb_spec.
  destruct k as [|k|k], n as [|n|n]; try lia.
  - reflexivity.
  - rewrite Prim2SF_of_pos by lia. reflexivity.
  - rewrite Prim2SF_of_pos by lia. reflexivity.
  - rewrite !Prim2SF_of_pos by lia. apply SFleb_pos; lia.
Qed.

(** The last exact step, and the step that no longer moves. *)
Lemma float_succ_top :
  (float_of_Z (two53 - 1) + 1)%float = float_of_Z two53.
Proof. vm_compute. reflexivity. Qed.

Lemma float_succ_stuck : (float_of_Z two53 + 1)%float = float_of_Z two53.
Proof. vm_compute. reflexivity. Qed.

Lemma float_succ_upto (k : Z) :
  0 <= k < two53 -> (float_of_Z k + 1)%float = float_of_Z (k + 1).
Proof.
  unfold two53. intros Hk.
  destruct (Z.eq_dec (k + 1) (2 ^ 53)) as [Heq|Hne].
  - replace k with (two53 - 1) by (unfold two53; lia).
    replace (two53 - 1 + 1) with two53 by lia.
    apply float_succ_top.
  - apply float_succ; lia.
Qed.

Lemma Prim2SF_two53 :
  Prim2SF (float_of_Z two53) = S754_finite false 4503599627370496 1.
Proof. vm_compute. reflexivity. Qed.

(** A positive finite number below another one is below everything the
    other one is below. *)
Lemma SFleb_below (m1 m2 : positive) (e1 e2 : Z) (x : spec_float) :
  e1 < e2 \/ (e1 = e2 /\ (m1 <= m2)%positive) ->
  SFleb (S754_finite false m2 e2) x = true ->
  SFleb (S754_finite false m1 e1) x = true.
Proof.
  intros Hlex. unfold SFleb, SFcompare.
  destruct x as [s|s| |s m e]; try discriminate.
  - now destruct s.
  - destruct s; [discriminate|].
    destruct (Z.compare_spec e2 e) as [He|He|He]; try discriminate.
    + subst e. intros Hm.
      destruct (Z.compare_spec e1 e2) as [He1|He1|He1]; [|reflexivity|lia].
      destruct Hlex as [Hlt|[_ Hle]]; [lia|].
      change (Pos.compare_cont Eq ?a ?b) with (Pos.compare a b) in *.
      destruct (Pos.compare_spec m2 m); try discriminate;
        destruct (Pos.compare_spec m1 m); trivial; lia.
    + intros _.
      destruct (Z.compare_spec e1 e); [|reflexivity|lia].
      destruct Hlex as [Hlt|[He1 _]]; lia.
Qed.

Lemma normal_below (k n : positive) :
  Zpos k <= Zpos n -> Zpos n < 2 ^ 53 ->
  Zpos (digits2_pos k) - 53 < Zpos (digits2_pos n) - 53
  \/ (Zpos (digits2_pos k) - 53 = Zpos (digits2_pos n) - 53
      /\ (pshift k (53 - Zpos (digits2_pos k))
          <= pshift n (53 - Zpos (digits2_pos n)))%positive).
Proof.
  intros Hkn Hn.
  assert (Hdk : Zpos (digits2_pos k) <= 53) by (apply digits2_le; lia).
  assert (Hdn : Zpos (digits2_pos n) <= 53) by now apply digits2_le.
  destruct (digits2_spec k) as [Hk1 Hk2].
  destruct (digits2_spec n) as [Hn1 Hn2].
  destruct (Z.lt_trichotomy (Zpos (digits2_pos k)) (Zpos (digits2_pos n)))
    as [Hlt|[Heq|Hgt]].
  - left. lia.
  - right. split; [lia|].
    assert (Hdd : digits2_pos k = digits2_pos n) by lia.
    rewrite Hdd.
    assert (Hv : Zpos (pshift k (53 - Zpos (digits2_pos n)))
                 <= Zpos (pshift n (53 - Zpos (digits2_pos n)))).
    { rewrite !pshift_value by lia.
      apply Z.mul_le_mono_nonneg_r; [|assumption].
      apply Z.pow_nonneg. lia. }
    lia.
  - exfalso.
    assert (2 ^ Zpos (digits2_pos n) <= 2 ^ (Zpos (digits2_pos k) - 1))
      by (apply Z.pow_le_mono_r; lia).
    lia.
Qed.

(** Below the duration stays below the duration: the test of the loop holds
    for every whole day up to one for which it holds. *)
Lemma float_leb_trans (k n : Z) (d : float) :
  0 <= k <= n -> n <= two53 ->
  (float_of_Z n <=? d)%float = true ->
  (float_of_Z k <=? d)%float = true.
Proof.
  unfold two53. intros Hk Hn.
  destruct (Z.eq_dec k n) as [->|Hne]; [trivial|].
  rewrite !leb_spec.
  assert (Hkk : 0 <= k < 2 ^ 53) by lia.
  destruct n as [|n|n]; try lia.
  assert (Hbig : exists m e,
             Prim2SF (float_of_Z (Zpos n)) = S754_finite false m e
             /\ forall k', Zpos k' < Zpos n ->
                  Zpos (digits2_pos k') - 53 < e
                  \/ (Zpos (digits2_pos k') - 53 = e
                      /\ (pshift k' (53 - Zpos (digits2_pos k')) <= m)%positive)).
  { destruct (Z.eq_dec (Zpos n) (2 ^ 53)) as [Heq|Hlt].
    - exists 4503599627370496%positive, 1. split.
      + rewrite Heq. apply Prim2SF_two53.
      + intros k' Hk'. left.
        assert (Zpos (digits2_pos k') <= 53) by (apply digits2_le; lia).
        lia.
    - eexists _, _. split; [apply Prim2SF_of_pos; lia|].
      intros k' Hk'. apply normal_below; lia. }
  destruct Hbig as (m & e & -> & Hbelow).
  destruct k as [|k|k]; try lia.
  - change (Prim2SF (float_of_Z 0)) with (S754_zero false).
    unfold SFleb, SFcompare.
    destruct (Prim2SF d) as [s|s| |s m' e']; try discriminate.
    + now destruct s.
    + now destruct s.
  - rewrite Prim2SF_of_pos by lia.
    apply SFleb_below. apply Hbelow. lia.
Qed.
End Binary64.

(** ** Claims on the loss factor and the bound conversions *)

Lemma impermanentLossFactor_reciprocal (k : R) :
  (0 < k)%R ->
  Engine.impermanentLossFactor (one / Xreal k)%js
  = Engine.impermanentLossFactor (Xreal k).
Proof.
  intros Hk. unfold one.
  change (of_Z 1) with (Xreal 1).
  rewrite xr_div by lra.
  assert (Hk' : (0 < 1 / k)%R).
  { unfold Rdiv. rewrite Rmult_1_l. now apply Rinv_0_lt_compat. }
  rewrite !impermanentLossFactor_exact by assumption.
  f_equal. now apply ilFactor_reciprocal.
Qed.

Lemma float_symmetry_table :
  forallb
    (fun i =>
       within 0.000000000000001
         (Engine.impermanentLossFactor (one / float_of_nat i)%js)
         (Engine.impermanentLossFactor (float_of_nat i)))
    (seq 1 1000)
  = true.
Proof. vm_compute. reflexivity. Qed.

(** C7 (symmetry of loss), as amended.  Over the real numbers, for every
    [k > 0], the loss factor used by the engine, [2*sqrt(k)/(1+k) - 1],
    takes the same value at [k] and at its reciprocal [1/k].  On binary64
    numbers the two values are within [1e-15] of each other for every whole
    [k] from 1 to 1000. *)
Theorem impermanentLossFactor_symmetric :
  (forall k : R,
      (0 < k)%R ->
      Engine.impermanentLossFactor (one / Xreal k)%js
      = Engine.impermanentLossFactor (Xreal k))
  /\ (forall i : nat,
         (1 <= i <= 1000)%nat ->
         within 0.000000000000001
           (Engine.impermanentLossFactor (one / float_of_nat i)%js)
           (Engine.impermanentLossFactor (float_of_nat i))
         = true).
Proof.
  split.
  - exact impermanentLossFactor_reciprocal.
  - intros i Hi. pose proof float_symmetry_table as Htab.
    rewrite forallb_forall in Htab. apply Htab, in_seq. lia.
Qed.

(** The symmetry at [k = 4] over the reals, and at [k = 10] on binary64
    numbers up to rounding. *)
Lemma impermanentLossFactor_symmetric_witness :
  Engine.impermanentLossFactor (one / Xreal 4)%js
  = Engine.impermanentLossFactor (Xreal 4)
  /\ within 0.000000000000001
       (Engine.impermanentLossFactor (one / float_of_nat 10)%js)
       (Engine.impermanentLossFactor (float_of_nat 10))
     = true.
Proof.
  split.
  - apply (proj1 impermanentLossFactor_symmetric 4%R). lra.
  - apply (proj2 impermanentLossFactor_symmetric 10%nat). lia.
Defined.

(** C7 as stated fails on binary64 numbers: at [k = 10] the loss factor
    and the loss factor of the reciprocal differ in the last digit. *)
Lemma impermanentLossFactor_symmetric_counterexample :
  Engine.impermanentLossFactor 10%float = (-0.42504042542393095)%float
  /\ Engine.impermanentLossFactor (1 / 10)%float
     = (-0.42504042542393106)%float
  /\ PrimFloat.eqb (Engine.impermanentLossFactor (1 / 10)%float)
                   (Engine.impermanentLossFactor 10%float)
     = false.
Proof. vm_compute. repeat split. Qed.



Section Conversions.
Context {T : Type} `{Num T}.

End Conversions.


(** C6 in exact arithmetic. *)
Lemma ratio_invariance_exact (s : Simulation.t R) :
  (0 < Simulation.initialPriceB s)%R ->
  (0 < Simulation.latestPriceB s)%R ->
  (Simulation.latestPriceA s / Simulation.latestPriceB s
   = Simulation.initialPriceA s / Simulation.initialPriceB s)%R ->
  Calc.finalLpValue (Engine.calculations (exact s))
  = Calc.holdValue (Engine.calculations (exact s))
  /\ Calc.impermanentLoss (Engine.calculations (exact s)) = Xreal 0
  /\ Calc.impermanentLossPct (Engine.calculations (exact s)) = Xreal 0
  /\ (Spec.lossModelled (exact s) = true ->
      Engine.impermanentLossFactor
        (Spec.latestRatio (exact s) / Spec.initialRatio (exact s))%js
      = Xreal 0).
Proof.
  intros HiB HlB Heq.
  assert (Hfac : Spec.lossModelled (exact s) = true ->
                 Engine.impermanentLossFactor
                   (Spec.latestRatio (exact s) / Spec.initialRatio (exact s))%js
                 = Xreal 0).
  { unfold Spec.lossModelled.
    rewrite initialRatio_exact, latestRatio_exact.
    destruct (Rlt_dec 0 (Simulation.initialPriceB s)); [|contradiction].
    destruct (Rlt_dec 0 (Simulation.latestPriceB s)); [|contradiction].
    rewrite Heq.
    set (q := (Simulation.initialPriceA s / Simulation.initialPriceB s)%R).
    intros Hm.
    apply andb_prop in Hm as [Hm _]. apply andb_prop in Hm as [Hm _].
    apply xr_ltb_iff in Hm.
    rewrite xr_div by lra.
    rewrite impermanentLossFactor_exact.
    - f_equal. replace (q / q)%R with 1%R by (field; lra).
      rewrite sqrt_1. field.
    - replace (q / q)%R with 1%R by (field; lra). lra. }
  assert (Hfin : Calc.finalLpValue (Engine.calculations (exact s))
                 = Calc.holdValue (Engine.calculations (exact s))).
  { rewrite calculations_finalLpValue, calculations_holdValue.
    destruct (Spec.lossModelled (exact s)) eqn:Hm; [|reflexivity].
    rewrite ilFactor_agrees, (Hfac eq_refl).
    destruct (holdValue_exact s) as [h ->]. cbn. f_equal. ring. }
  assert (Hloss : Calc.impermanentLoss (Engine.calculations (exact s))
                  = Xreal 0).
  { change (Calc.impermanentLoss (Engine.calculations (exact s)))
      with (Calc.finalLpValue (Engine.calculations (exact s))
            - Calc.holdValue (Engine.calculations (exact s)))%js.
    rewrite Hfin, calculations_holdValue.
    destruct (holdValue_exact s) as [h ->]. cbn. f_equal. ring. }
  repeat split; trivial.
  change (Calc.impermanentLossPct (Engine.calculations (exact s)))
    with (if (Calc.holdValue (Engine.calculations (exact s)) >? zero)%js
          then (Calc.impermanentLoss (Engine.calculations (exact s))
                / Calc.holdValue (Engine.calculations (exact s))
                * of_Z 100)%js
          else zero).
  rewrite Hloss, calculations_holdValue.
  destruct (holdValue_exact s) as [h ->].
  destruct (zero <? Xreal h)%js eqn:Hh; [|reflexivity].
  apply xr_ltb_iff in Hh.
  rewrite xr_div by lra. cbn. f_equal. field. lra.
Qed.


Section Binary64Ratios.
Local Open Scope float_scope.

(** A binary64 number above zero is a positive finite number or
    [+Infinity]. *)
Lemma float_positive (x : float) :
  (0 <? x) = true ->
  (exists m e, Prim2SF x = S754_finite false m e)
  \/ Prim2SF x = S754_infinity false.
Proof.
  rewrite ltb_spec. change (Prim2SF 0) with (S754_zero false).
  unfold SFltb, SFcompare.
  destruct (Prim2SF x) as [s|s| |s m e]; try discriminate.
  - destruct s; [discriminate|]. now right.
  - destruct s; [discriminate|]. left. now exists m, e.
Qed.

Lemma float_below_infinity (x : float) :
  (x <? infinity) = true -> Prim2SF x <> S754_infinity false.
Proof.
  rewrite ltb_spec. change (Prim2SF infinity) with (S754_infinity false).
  intros Hlt Heq. rewrite Heq in Hlt. discriminate.
Qed.

(** Two numbers that [==] finds equal, one of them positive and finite,
    are the same number. *)
Lemma float_eqb_finite (x y : float) (m : positive) (e : Z) :
  (x =? y) = true -> Prim2SF y = S754_finite false m e -> x = y.
Proof.
  rewrite eqb_spec. intros Heq Hy. apply Prim2SF_inj.
  rewrite Hy in *. unfold SFeqb, SFcompare in Heq.
  destruct (Prim2SF x) as [s|s| |s m' e']; try discriminate.
  - now destruct s.
  - destruct s; [discriminate|].
    destruct (Z.compare_spec e' e) as [He|He|He]; try discriminate.
    subst e'.
    change (Pos.compare_cont Eq m' m) with (Pos.compare m' m) in Heq.
    destruct (Pos.compare_spec m' m); try discriminate.
    now subst.
Qed.

(** C6 on binary64 numbers: equal ratios below [Infinity]. *)
Lemma ratio_invariance_float (s : Simulation.t float) :
  (0 <? Simulation.initialPriceB s) = true ->
  (0 <? Simulation.latestPriceB s) = true ->
  (Simulation.latestPriceA s / Simulation.latestPriceB s
   =? Simulation.initialPriceA s / Simulation.initialPriceB s) = true ->
  (Simulation.initialPriceA s / Simulation.initialPriceB s <? infinity)
  = true ->
  Calc.finalLpValue (Engine.calculations s)
  = Calc.holdValue (Engine.calculations s)
  /\ (Spec.lossModelled s = true ->
      Engine.impermanentLossFactor
        (Spec.latestRatio s / Spec.initialRatio s)%js
      = 0).
Proof.
  intros HiB HlB Heq Hfin.
  assert (Hfac : Spec.lossModelled s = true ->
                 Engine.impermanentLossFactor
                   (Spec.latestRatio s / Spec.initialRatio s)%js
                 = 0).
  { unfold Spec.lossModelled, Spec.latestRatio, Spec.initialRatio.
    change (@zero float FloatNum) with 0.
    change (@num_ltb float FloatNum) with PrimFloat.ltb.
    change (@num_div float FloatNum) with PrimFloat.div.
    rewrite HiB, HlB. intros Hm.
    apply andb_prop in Hm as [Hm _]. apply andb_prop in Hm as [Hi _].
    destruct (float_positive Hi) as [(m & e & Hq)|Hinf];
      [|now apply float_below_infinity in Hfin].
    rewrite (float_eqb_finite Heq Hq).
    rewrite (float_div_self _ _ _ _ Hq). reflexivity. }
  split; [|exact Hfac].
  rewrite calculations_finalLpValue, calculations_holdValue.
  destruct (Spec.lossModelled s); [|reflexivity].
  rewrite ilFactor_agrees, (Hfac eq_refl).
  change (of_Z 1 + 0)%js with 1.
  apply float_mul_one.
Qed.
End Binary64Ratios.

(** C6 (ratio invariance), as amended.  For every position with real fields
    in which both ratios are defined (both B prices positive) and equal, the
    snapshot computed in exact arithmetic has [finalLpValue = holdValue],
    hence an impermanent loss of exactly 0; and whenever the engine
    evaluates the loss factor (both ratios positive and upper bound above
    lower bound), that factor is exactly 0.  On binary64 numbers, for every
    position in which both ratios are defined, are found equal by [==] and
    are below [Infinity], [finalLpValue] is [holdValue] and the evaluated
    loss factor is 0, exactly. *)
Theorem ratio_invariance :
  (forall s : Simulation.t R,
      (0 < Simulation.initialPriceB s)%R ->
      (0 < Simulation.latestPriceB s)%R ->
      (Simulation.latestPriceA s / Simulation.latestPriceB s
       = Simulation.initialPriceA s / Simulation.initialPriceB s)%R ->
      Calc.finalLpValue (Engine.calculations (exact s))
      = Calc.holdValue (Engine.calculations (exact s))
      /\ Calc.impermanentLoss (Engine.calculations (exact s)) = Xreal 0
      /\ Calc.impermanentLossPct (Engine.calculations (exact s)) = Xreal 0
      /\ (Spec.lossModelled (exact s) = true ->
          Engine.impermanentLossFactor
            (Spec.latestRatio (exact s) / Spec.initialRatio (exact s))%js
          = Xreal 0))
  /\ (forall s : Simulation.t float,
         (0 <? Simulation.initialPriceB s)%float = true ->
         (0 <? Simulation.latestPriceB s)%float = true ->
         (Simulation.latestPriceA s / Simulation.latestPriceB s
          =? Simulation.initialPriceA s / Simulation.initialPriceB s)%float
         = true ->
         (Simulation.initialPriceA s / Simulation.initialPriceB s
          <? infinity)%float = true ->
         Calc.finalLpValue (Engine.calculations s)
         = Calc.holdValue (Engine.calculations s)
         /\ (Spec.lossModelled s = true ->
             Engine.impermanentLossFactor
               (Spec.latestRatio s / Spec.initialRatio s)%js
             = 0%float)).
Proof.
  split.
  - exact ratio_invariance_exact.
  - exact ratio_invariance_float.
Qed.

(** C6 as stated fails on binary64 numbers.  The prices [1e200] and
    [1e-200] are unchanged and every field is finite, but both ratios are
    [Infinity]: their quotient is NaN, and so is [finalLpValue], while
    [holdValue] is [5e199]. *)
Lemma ratio_invariance_counterexample :
  let s := Scenario.steep in
  let c := Engine.calculations s in
  Simulation_finiteb s = true
  /\ Simulation.latestPriceA s = Simulation.initialPriceA s
  /\ Simulation.latestPriceB s = Simulation.initialPriceB s
  /\ (0 <? Simulation.initialPriceB s)%float = true
  /\ PrimFloat.eqb (Simulation.latestPriceA s / Simulation.latestPriceB s)
       (Simulation.initialPriceA s / Simulation.initialPriceB s)%float
     = true
  /\ (Simulation.initialPriceA s / Simulation.initialPriceB s)%float
     = infinity
  /\ Spec.lossModelled s = true
  /\ PrimFloat.is_nan
       (Engine.impermanentLossFactor
          (Spec.latestRatio s / Spec.initialRatio s)%js) = true
  /\ PrimFloat.is_nan (Calc.finalLpValue c) = true
  /\ PrimFloat.is_finite (Calc.holdValue c) = true
  /\ PrimFloat.eqb (Calc.finalLpValue c) (Calc.holdValue c) = false.
Proof. vm_compute. repeat split. Qed.

(** ** The projection loop in exact arithmetic *)

Section ExactProjection.
Local Open Scope R_scope.
Variable s : Simulation.t R.
Variable n : nat.
Hypothesis duration_floor :
  INR n <= Simulation.duration s < INR n + 1.
Variables amountA amountB initialInvestment : xreal.

Lemma day_increment (k : nat) :
  (Xreal (INR k) + one)%js = Xreal (INR (S k)).
Proof. rewrite S_INR. reflexivity. Qed.

Lemma day_test (k : nat) :
  (Xreal (INR k) <=? Simulation.duration (exact s))%js = (k <=? n)%nat.
Proof.
  change (Simulation.duration (exact s)) with (Xreal (Simulation.duration s)).
  destruct (Nat.leb_spec k n) as [Hle|Hlt].
  - apply xr_leb_true. apply le_INR in Hle. lra.
  - apply xr_leb_false.
    assert (Hs : (S n <= k)%nat) by lia.
    apply le_INR in Hs. rewrite S_INR in Hs. lra.
Qed.

(** From day [k] the loop pushes the points of the days [k .. n] and
    stops, provided the fuel covers the remaining tests. *)
Lemma chartLoop_exact (m : nat) :
  forall (k fuel : nat) (acc : list (Point.t xreal)),
    (k + m = S n)%nat -> (m < fuel)%nat ->
    Engine.chartLoop fuel (exact s) amountA amountB initialInvestment
                     (Xreal (INR k)) acc
    = Some (acc ++ List.map (pointAt s amountA amountB initialInvestment)
                              (seq k m)).
Proof.
  induction m as [|m IH]; intros k fuel acc Hk Hfuel;
    (destruct fuel as [|fuel]; [lia|]); cbn [Engine.chartLoop].
  - rewrite day_test.
    destruct (Nat.leb_spec k n); [lia|].
    cbn. now rewrite app_nil_r.
  - rewrite day_test.
    destruct (Nat.leb_spec k n); [|lia].
    rewrite day_increment, IH by lia.
    cbn [seq List.map]. rewrite <- app_assoc. reflexivity.
Qed.
End ExactProjection.

Section ExactChart.
Local Open Scope R_scope.

(** The projection of a position that passes the guard: real fields, a
    positive duration of which [n] is the whole part, and two nonzero
    amounts [a] and [b]. *)
Lemma chartData_exact_floor (s : Simulation.t R) (n : nat) (a b : R)
    (fuel : nat) :
  0 < Simulation.duration s ->
  INR n <= Simulation.duration s < INR n + 1 ->
  Simulation.amountA s = Some a -> a <> 0 ->
  Simulation.amountB s = Some b -> b <> 0 ->
  (n + 2 <= fuel)%nat ->
  Engine.chartData fuel (exact s)
  = Some (List.map
            (pointAt s (Xreal a) (Xreal b)
               (Xreal (a * Simulation.initialPriceA s
                       + b * Simulation.initialPriceB s)))
            (seq 0 (S n))).
Proof.
  intros Hpos Hd Ha Ha0 Hb Hb0 Hfuel.
  unfold Engine.chartData.
  change (Simulation.duration (exact s)) with (Xreal (Simulation.duration s)).
  change (Simulation.amountA (exact s))
    with (option_map Xreal (Simulation.amountA s)).
  change (Simulation.amountB (exact s))
    with (option_map Xreal (Simulation.amountB s)).
  rewrite Ha, Hb. cbn [option_map not_opt].
  unfold zero at 1. change (of_Z 0) with (Xreal 0).
  rewrite xr_leb_false by exact Hpos.
  rewrite (proj2 (xr_falsy a) Ha0), (proj2 (xr_falsy b) Hb0).
  cbn [orb].
  change zero with (Xreal (INR 0)).
  erewrite chartLoop_exact with (n := n) (m := S n); try eassumption;
    try lia.
  reflexivity.
Qed.

Lemma chartData_exact (s : Simulation.t R) (n : nat) (a b : R) (fuel : nat) :
  (0 < n)%nat ->
  Simulation.duration s = INR n ->
  Simulation.amountA s = Some a -> a <> 0 ->
  Simulation.amountB s = Some b -> b <> 0 ->
  (n + 2 <= fuel)%nat ->
  Engine.chartData fuel (exact s)
  = Some (List.map
            (pointAt s (Xreal a) (Xreal b)
               (Xreal (a * Simulation.initialPriceA s
                       + b * Simulation.initialPriceB s)))
            (seq 0 (S n))).
Proof.
  intros Hn Hd Ha Ha0 Hb Hb0 Hfuel.
  assert (Hpos : 0 < INR n) by (apply lt_0_INR; lia).
  apply chartData_exact_floor with (n := n); trivial; rewrite Hd; lra.
Qed.
End ExactChart.

(** ** The projection loop on binary64 numbers *)

Section DaysLoop.
Context {T : Type} `{Num T}.

(** The loop pushes one point per visited day. *)
Lemma chartLoop_days (s : Simulation.t T) (a b inv : T) (fuel : nat) :
  forall (day : T) (acc : list (Point.t T)),
    Engine.chartLoop fuel s a b inv day acc
    = option_map
        (fun days =>
           acc ++ List.map
                    (fun d => Engine.dataPoint d (Engine.chartDay s a b inv d))
                    days)
        (daysLoop fuel (Simulation.duration s) day).
Proof.
  induction fuel as [|fuel IH]; intros day acc;
    cbn [Engine.chartLoop daysLoop]; [reflexivity|].
  destruct (day <=? Simulation.duration s)%js.
  - rewrite IH.
    destruct (daysLoop fuel (Simulation.duration s) (day + one)%js);
      cbn [option_map List.map]; [|reflexivity].
    now rewrite <- app_assoc.
  - cbn. now rewrite app_nil_r.
Qed.

End DaysLoop.

Section FloatLoop.
Local Open Scope Z_scope.

Lemma float_leb_upto (k n : Z) :
  0 <= k <= two53 -> 0 <= n <= two53 ->
  (float_of_Z k <=? float_of_Z n)%float = (k <=? n).
Proof.
  intros Hk Hn.
  destruct (Z.eq_dec n two53) as [->|Hn'].
  - replace (k <=? two53) with true by (symmetry; apply Z.leb_le; lia).
    apply float_leb_trans with (n := two53); [lia|lia|].
    vm_compute. reflexivity.
  - destruct (Z.eq_dec k two53) as [->|Hk'].
    + replace (two53 <=? n) with false by (symmetry; apply Z.leb_gt; lia).
      rewrite leb_spec, Prim2SF_two53.
      unfold two53 in *.
      destruct n as [|n|n]; try lia; [reflexivity|].
      rewrite Prim2SF_of_pos by lia.
      assert (Hd : Zpos (digits2_pos n) <= 53) by (apply digits2_le; lia).
      unfold normal_of_pos, SFleb, SFcompare.
      destruct (Z.compare_spec 1 (Zpos (digits2_pos n) - 53));
        first [reflexivity | lia].
    + unfold two53 in *. apply float_leb; lia.
Qed.

(** From the day [k] on, the loop visits the whole days up to [n], the last
    one that is not above the duration. *)
Lemma float_daysLoop_from (d : float) (n : nat) :
  Z.of_nat n < two53 ->
  (float_of_nat n <=? d)%float = true ->
  (float_of_nat (S n) <=? d)%float = false ->
  forall (m k fuel : nat),
    (k + m = S n)%nat -> (m < fuel)%nat ->
    daysLoop fuel d (float_of_nat k)
    = Some (List.map float_of_nat (seq k m)).
Proof.
  intros Hn Hle Hgt.
  induction m as [|m IH]; intros k fuel Hk Hfuel;
    (destruct fuel as [|fuel]; [lia|]); cbn [daysLoop];
    change (@num_leb float FloatNum) with PrimFloat.leb.
  - replace k with (S n) by lia. rewrite Hgt. reflexivity.
  - assert (Htest : (float_of_nat k <=? d)%float = true).
    { apply float_leb_trans with (n := Z.of_nat n); trivial; lia. }
    rewrite Htest.
    replace (float_of_nat k + one)%js with (float_of_nat (S k)).
    + rewrite IH by lia. reflexivity.
    + unfold float_of_nat. rewrite Nat2Z.inj_succ.
      symmetry. apply float_succ_upto. lia.
Qed.

(** With a duration of [2^53] or more the day stops moving at [2^53], still
    not above the duration: the loop is never left. *)
Lemma float_daysLoop_endless (d : float) :
  (float_of_Z two53 <=? d)%float = true ->
  forall (fuel : nat) (k : Z),
    0 <= k <= two53 -> daysLoop fuel d (float_of_Z k) = None.
Proof.
  intros Hd. induction fuel as [|fuel IH]; intros k Hk; cbn [daysLoop];
    [reflexivity|].
  change (@num_leb float FloatNum) with PrimFloat.leb.
  rewrite (float_leb_trans k two53 d) by (trivial; lia).
  destruct (Z.eq_dec k two53) as [->|Hne].
  - change (float_of_Z two53 + one)%js with (float_of_Z two53 + 1)%float.
    rewrite float_succ_stuck, IH by lia. reflexivity.
  - change (float_of_Z k + one)%js with (float_of_Z k + 1)%float.
    rewrite float_succ_upto, IH by lia. reflexivity.
Qed.
End FloatLoop.

(** The binary64 projection of a position that passes the guard: its days
    are the whole numbers up to the last one not above the duration. *)
Lemma chartData_float_floor (s : Simulation.t float) (n : nat) (a b : float)
    (fuel : nat) :
  (Z.of_nat n < two53)%Z ->
  (Simulation.duration s <=? zero)%js = false ->
  (float_of_nat n <=? Simulation.duration s)%js = true ->
  (float_of_nat (S n) <=? Simulation.duration s)%js = false ->
  Simulation.amountA s = Some a -> falsy a = false ->
  Simulation.amountB s = Some b -> falsy b = false ->
  (n + 2 <= fuel)%nat ->
  Engine.chartData fuel s
  = Some (List.map
            (fun i =>
               Engine.dataPoint (float_of_nat i)
                 (Engine.chartDay s a b
                    (a * Simulation.initialPriceA s
                     + b * Simulation.initialPriceB s)%js
                    (float_of_nat i)))
            (seq 0 (S n))).
Proof.
  intros Hn Hg Hle Hgt Ha Ha0 Hb Hb0 Hfuel.
  unfold Engine.chartData.
  rewrite Ha, Hb, Hg. cbn [not_opt].
  rewrite Ha0, Hb0. cbn [orb].
  rewrite chartLoop_days.
  change (@zero float FloatNum) with (float_of_nat 0).
  rewrite (float_daysLoop_from Hn Hle Hgt) with (m := S n) by lia.
  cbn [option_map app]. now rewrite map_map.
Qed.

Lemma chartData_float_endless (s : Simulation.t float) (a b : float) :
  (Simulation.duration s <=? zero)%js = false ->
  (float_of_Z two53 <=? Simulation.duration s)%js = true ->
  Simulation.amountA s = Some a -> falsy a = false ->
  Simulation.amountB s = Some b -> falsy b = false ->
  forall fuel : nat, Engine.chartData fuel s = None.
Proof.
  intros Hg Hd Ha Ha0 Hb Hb0 fuel.
  unfold Engine.chartData.
  rewrite Ha, Hb, Hg. cbn [not_opt].
  rewrite Ha0, Hb0. cbn [orb].
  rewrite chartLoop_days.
  change (@zero float FloatNum) with (float_of_Z 0).
  rewrite (float_daysLoop_endless Hd) by (unfold two53; lia).
  reflexivity.
Qed.

Section Projected.
Context {T : Type} `{Num T}.

(** A list of the points of the days [day 0 .. day n] has the shape of the
    claim. *)
Lemma projected_map (day : nat -> T) (s : Simulation.t T) (a b : T)
    (n : nat) :
  Simulation.amountA s = Some a ->
  Simulation.amountB s = Some b ->
  Spec.projected day s n
    (List.map
       (fun i =>
          Engine.dataPoint (day i)
            (Engine.chartDay s a b
               (a * Simulation.initialPriceA s
                + b * Simulation.initialPriceB s)%js
               (day i)))
       (seq 0 (S n))).
Proof.
  intros Ha Hb. unfold Spec.projected.
  split; [now rewrite length_map, length_seq|].
  split; [now rewrite map_map|].
  intros i Hi. unfold Engine.iteration. rewrite Ha, Hb.
  eexists. split; [reflexivity|].
  rewrite nth_error_map, nth_error_seq.
  destruct (Nat.ltb_spec i (S n)); [|lia].
  reflexivity.
Qed.
End Projected.

(** C4 (shape of the projection), as amended.  In every arithmetic the
    projection is the empty sequence when [duration <= 0] or an amount is
    falsy.  Otherwise, with [n] the whole part of the duration
    ([n <= duration < n + 1]), the projection returns exactly [n + 1]
    points, the points of the days [0, 1, ..., n] in this order, each made
    of the fields [day], [totalValue], [holdValue] and [earnedFees] of that
    day's iteration: in exact arithmetic for every real duration, and on
    binary64 numbers for every duration below [2^53].  For a whole duration
    these are [duration + 1] points and the last day is the duration.  On
    binary64 numbers with a duration of [2^53] or more the loop never
    ends. *)
Theorem chartData_shape :
  (forall (T : Type) (N : Num T) (s : Simulation.t T) (fuel : nat),
      (Simulation.duration s <=? zero)%js
      || not_opt (Simulation.amountA s) || not_opt (Simulation.amountB s)
      = true ->
      Engine.chartData fuel s = Some [])
  /\ (forall (s : Simulation.t R) (n : nat) (a b : R) (fuel : nat),
         (0 < Simulation.duration s)%R ->
         (INR n <= Simulation.duration s < INR n + 1)%R ->
         Simulation.amountA s = Some a -> a <> 0%R ->
         Simulation.amountB s = Some b -> b <> 0%R ->
         (n + 2 <= fuel)%nat ->
         exists pts : list (Point.t xreal),
           Engine.chartData fuel (exact s) = Some pts
           /\ Spec.projected (fun i => Xreal (INR i)) (exact s) n pts)
  /\ (forall (s : Simulation.t float) (n : nat) (a b : float) (fuel : nat),
         (Z.of_nat n < two53)%Z ->
         (Simulation.duration s <=? zero)%js = false ->
         (float_of_nat n <=? Simulation.duration s)%js = true ->
         (float_of_nat (S n) <=? Simulation.duration s)%js = false ->
         Simulation.amountA s = Some a -> falsy a = false ->
         Simulation.amountB s = Some b -> falsy b = false ->
         (n + 2 <= fuel)%nat ->
         exists pts : list (Point.t float),
           Engine.chartData fuel s = Some pts
           /\ Spec.projected float_of_nat s n pts)
  /\ (forall (s : Simulation.t float) (n : nat) (a b : float) (fuel : nat),
         (0 < n)%nat -> (Z.of_nat n < two53)%Z ->
         Simulation.duration s = float_of_nat n ->
         Simulation.amountA s = Some a -> falsy a = false ->
         Simulation.amountB s = Some b -> falsy b = false ->
         (n + 2 <= fuel)%nat ->
         exists pts : list (Point.t float),
           Engine.chartData fuel s = Some pts
           /\ Spec.projected float_of_nat s n pts)
  /\ (forall (s : Simulation.t float) (a b : float),
         (Simulation.duration s <=? zero)%js = false ->
         (float_of_Z two53 <=? Simulation.duration s)%js = true ->
         Simulation.amountA s = Some a -> falsy a = false ->
         Simulation.amountB s = Some b -> falsy b = false ->
         forall fuel : nat, Engine.chartData fuel s = None).
Proof.
  split; [|split; [|split; [|split]]].
  - intros T N s fuel Hg. now apply chartData_guard.
  - intros s n a b fuel Hpos Hd Ha Ha0 Hb Hb0 Hfuel.
    assert (HA : Simulation.amountA (exact s) = Some (Xreal a)).
    { change (Simulation.amountA (exact s))
        with (option_map Xreal (Simulation.amountA s)).
      now rewrite Ha. }
    assert (HB : Simulation.amountB (exact s) = Some (Xreal b)).
    { change (Simulation.amountB (exact s))
        with (option_map Xreal (Simulation.amountB s)).
      now rewrite Hb. }
    eexists. split; [eapply chartData_exact_floor; eassumption|].
    exact (projected_map (fun i => Xreal (INR i)) (exact s) n HA HB).
  - intros s n a b fuel Hn Hg Hle Hgt Ha Ha0 Hb Hb0 Hfuel.
    eexists. split; [eapply chartData_float_floor; eassumption|].
    exact (projected_map float_of_nat s n Ha Hb).
  - intros s n a b fuel Hpos Hn Hd Ha Ha0 Hb Hb0 Hfuel.
    assert (H0 : (0 <= 0 <= two53)%Z) by (unfold two53; lia).
    assert (Hn0 : (0 <= Z.of_nat n <= two53)%Z) by lia.
    assert (Hn1 : (0 <= Z.of_nat (S n) <= two53)%Z) by lia.
    eexists. split; [|exact (projected_map float_of_nat s n Ha Hb)].
    apply chartData_float_floor; trivial; rewrite Hd;
      change (@num_leb float FloatNum) with PrimFloat.leb;
      unfold float_of_nat.
    + change (@zero float FloatNum) with (float_of_Z 0).
      rewrite float_leb_upto by assumption. apply Z.leb_gt. lia.
    + rewrite float_leb_upto by assumption. apply Z.leb_le. lia.
    + rewrite float_leb_upto by assumption. apply Z.leb_gt. lia.
  - intros s a b. apply chartData_float_endless.
Qed.

(** C4 as stated fails on binary64 numbers.  The deposit lasting two days
    and a half passes the guard, and its projection has three points, of the
    days 0, 1 and 2: not [duration + 1] points, and the last day is not the
    duration. *)
Lemma chartData_shape_counterexample :
  let s := Scenario.halfDay in
  let no_point := Point.mk 0%float 0%float 0%float 0%float in
  Simulation_finiteb s = true
  /\ Simulation.duration s = 2.5%float
  /\ (Simulation.duration s <=? zero)%js
     || not_opt (Simulation.amountA s) || not_opt (Simulation.amountB s)
     = false
  /\ option_map (List.map (@Point.day float)) (Engine.chartData 10 s)
     = Some [0%float; 1%float; 2%float]
  /\ PrimFloat.eqb (float_of_nat 3) (Simulation.duration s + 1)%float = false
  /\ option_map
       (fun pts =>
          PrimFloat.eqb (Point.day (List.last pts no_point))
                        (Simulation.duration s))
       (Engine.chartData 10 s) = Some false.
Proof. vm_compute. repeat split. Qed.

(** ** The end of the projection against the snapshot *)

Ltac xr_cases :=
  repeat (match goal with
          | |- context [Rlt_dec ?a ?b] => destruct (Rlt_dec a b)
          | |- context [Rle_dec ?a ?b] => destruct (Rle_dec a b)
          | |- context [Req_dec_T ?a ?b] => destruct (Req_dec_T a b)
          end; cbn; try lra).

Section Endpoint.
Local Open Scope R_scope.
Variable s : Simulation.t R.
Variables a b : R.
Hypothesis amountA_set : Simulation.amountA s = Some a.
Hypothesis amountB_set : Simulation.amountB s = Some b.
Hypothesis duration_pos : 0 < Simulation.duration s.

Let endDay : Day.t xreal :=
  Engine.chartDay (exact s) (Xreal a) (Xreal b)
    (Xreal (a * Simulation.initialPriceA s + b * Simulation.initialPriceB s))
    (Xreal (Simulation.duration s)).

Lemma endpoint_holdValue :
  0 < Simulation.initialPriceB s ->
  Day.holdValue endDay = Calc.holdValue (Engine.calculations (exact s)).
Proof.
  intros initialPriceB_pos.
  subst endDay. destruct s; cbn in *. subst.
  unfold zero, one; cbn. xr_cases.
  f_equal. field. lra.
Qed.

(** Without a positive initial price of token B the loop prices token B
    at 1. *)
Lemma endpoint_holdValue_fallback :
  Simulation.initialPriceB s <= 0 ->
  Day.holdValue endDay = Xreal (a * Simulation.latestPriceA s + b * 1).
Proof.
  intros initialPriceB_le.
  subst endDay. destruct s; cbn in *. subst.
  unfold zero, one; cbn. xr_cases.
  f_equal. field. lra.
Qed.

Lemma endpoint_earnedFees :
  Day.earnedFees endDay = Calc.earnedFees (Engine.calculations (exact s)).
Proof.
  subst endDay. destruct s; cbn in *. subst. reflexivity.
Qed.

Lemma endpoint_fundingPnl :
  Day.fundingPnl endDay = Calc.fundingPnl (Engine.calculations (exact s)).
Proof.
  subst endDay. destruct s; cbn in *. subst. reflexivity.
Qed.

Lemma endpoint_shortPnl :
  Day.shortPnl endDay = Calc.shortPnl (Engine.calculations (exact s)).
Proof.
  subst endDay. destruct s; cbn in *. subst.
  unfold zero, one; cbn.
  destruct (Engine.truthy _); [|reflexivity].
  destruct (ShortToken_eqb _ _); xr_cases; try reflexivity;
    f_equal; field; lra.
Qed.
End Endpoint.

(** C2 (projection endpoint), as amended.  For every position with real
    fields that passes the guard of the projection and lasts a whole number
    of days: the projection, computed in exact arithmetic, ends with the
    point of day [duration], whose [earnedFees] is the snapshot's, and the
    [shortPnl] and [fundingPnl] of that last iteration are those of the
    snapshot (hedged or not).  Its [holdValue] is the snapshot's when the
    initial price of token B is positive; otherwise it is
    [amountA * latestPriceA + amountB * 1]. *)
Theorem projection_endpoint (s : Simulation.t R) (n : nat) (a b : R)
    (fuel : nat) :
  (0 < n)%nat ->
  Simulation.duration s = INR n ->
  Simulation.amountA s = Some a -> a <> 0%R ->
  Simulation.amountB s = Some b -> b <> 0%R ->
  (n + 2 <= fuel)%nat ->
  exists (front : list (Point.t xreal)) (p : Point.t xreal) (d : Day.t xreal),
    Engine.chartData fuel (exact s) = Some (front ++ [p])
    /\ Engine.iteration (exact s) (Simulation.duration (exact s)) = Some d
    /\ p = Engine.dataPoint (Simulation.duration (exact s)) d
    /\ Point.earnedFees p = Calc.earnedFees (Engine.calculations (exact s))
    /\ Day.shortPnl d = Calc.shortPnl (Engine.calculations (exact s))
    /\ Day.fundingPnl d = Calc.fundingPnl (Engine.calculations (exact s))
    /\ ((0 < Simulation.initialPriceB s)%R ->
        Point.holdValue p = Calc.holdValue (Engine.calculations (exact s)))
    /\ ((Simulation.initialPriceB s <= 0)%R ->
        Point.holdValue p
        = Xreal (a * Simulation.latestPriceA s + b * 1)).
Proof.
  intros Hn Hd Ha Ha0 Hb Hb0 Hfuel.
  assert (Hpos : (0 < Simulation.duration s)%R).
  { rewrite Hd. apply lt_0_INR. lia. }
  set (inv := Xreal (a * Simulation.initialPriceA s
                     + b * Simulation.initialPriceB s)).
  exists (List.map (pointAt s (Xreal a) (Xreal b) inv) (seq 0 n)),
         (pointAt s (Xreal a) (Xreal b) inv n),
         (Engine.chartDay (exact s) (Xreal a) (Xreal b) inv
                          (Xreal (Simulation.duration s))).
  split.
  { rewrite (chartData_exact s (n := n) (a := a) (b := b)) by assumption.
    rewrite seq_S, map_app. reflexivity. }
  split.
  { unfold Engine.iteration.
    change (Simulation.amountA (exact s))
      with (option_map Xreal (Simulation.amountA s)).
    change (Simulation.amountB (exact s))
      with (option_map Xreal (Simulation.amountB s)).
    rewrite Ha, Hb. reflexivity. }
  split.
  { unfold pointAt.
    change (Simulation.duration (exact s)) with (Xreal (Simulation.duration s)).
    rewrite Hd. reflexivity. }
  unfold pointAt. rewrite <- Hd.
  cbn [Engine.dataPoint Point.holdValue Point.earnedFees].
  split; [|split; [|split; [|split]]].
  - now apply endpoint_earnedFees.
  - now apply endpoint_shortPnl.
  - now apply endpoint_fundingPnl.
  - intros HiB. now apply endpoint_holdValue.
  - intros HiB. now apply endpoint_holdValue_fallback.
Qed.

(** The endpoint of the hedged scenario, with real fields. *)
Lemma projection_endpoint_witness :
  exists (front : list (Point.t xreal)) (p : Point.t xreal) (d : Day.t xreal),
    Engine.chartData 32 (exact Scenario.hedgedR) = Some (front ++ [p])
    /\ Engine.iteration (exact Scenario.hedgedR)
         (Simulation.duration (exact Scenario.hedgedR)) = Some d
    /\ p = Engine.dataPoint (Simulation.duration (exact Scenario.hedgedR)) d
    /\ Point.earnedFees p
       = Calc.earnedFees (Engine.calculations (exact Scenario.hedgedR))
    /\ Day.shortPnl d
       = Calc.shortPnl (Engine.calculations (exact Scenario.hedgedR))
    /\ Day.fundingPnl d
       = Calc.fundingPnl (Engine.calculations (exact Scenario.hedgedR))
    /\ Point.holdValue p
       = Calc.holdValue (Engine.calculations (exact Scenario.hedgedR)).
Proof.
  destruct (@projection_endpoint Scenario.hedgedR 30 (1 / 2) 1500 32)
    as (front & p & d & H1 & H2 & H3 & H4 & H5 & H6 & H7 & _).
  - lia.
  - reflexivity.
  - reflexivity.
  - lra.
  - reflexivity.
  - lra.
  - lia.
  - exists front, p, d. repeat split; trivial.
    apply H7. cbn. lra.
Defined.

(** C2 as stated fails on binary64 numbers.  With token B priced 0 at the
    start and 2 at the end, the projection prices token B at 1 on every day:
    its last point, of day 30, holds 3000, and the snapshot holds 4500.
    And for the deposit that lasts two days and a half the last point is
    that of day 2: its earned fees are those of 2 days, the snapshot's those
    of 2.5 days. *)
Lemma projection_endpoint_counterexample :
  let s := Scenario.zeroPriceB in
  let h := Scenario.halfDay in
  let no_point := Point.mk 0%float 0%float 0%float 0%float in
  (Simulation_finiteb s = true
   /\ option_map (@List.length _) (Engine.chartData 32 s) = Some 31%nat
   /\ option_map (fun pts => Point.day (List.last pts no_point))
        (Engine.chartData 32 s) = Some (Simulation.duration s)
   /\ option_map (fun pts => Point.holdValue (List.last pts no_point))
        (Engine.chartData 32 s) = Some 3000%float
   /\ Calc.holdValue (Engine.calculations s) = 4500%float
   /\ option_map
        (fun pts =>
           within 1000 (Point.holdValue (List.last pts no_point))
                  (Calc.holdValue (Engine.calculations s)))
        (Engine.chartData 32 s) = Some false)
  /\ (Simulation_finiteb h = true
      /\ Simulation.duration h = 2.5%float
      /\ option_map (fun pts => Point.day (List.last pts no_point))
           (Engine.chartData 32 h) = Some 2%float
      /\ option_map
           (fun pts =>
              within 1 (Point.earnedFees (List.last pts no_point))
                     (Calc.earnedFees (Engine.calculations h)))
           (Engine.chartData 32 h) = Some false).
Proof. vm_compute. repeat split. Qed.

(** C3 (scenarios), on binary64 numbers.  The deposit of 0.5 ETH at 3000
    and 1500 USDC at 1 (25% APR, 30 days, range [2400, 3600], prices
    unchanged) has [initialInvestment = 3000], [holdValue = 3000], a loss
    factor of 0, and [earnedFees] and [lpNetReturn] that round to 61.64;
    hedged with a short of 1500 on token A at funding rate 0.01 and token A
    at 2700, it has a [shortPnl] that rounds to 150.00 and a [fundingPnl] of
    -4.50. *)
Theorem scenario_values :
  let c := Engine.calculations Scenario.deposit in
  let h := Engine.calculations Scenario.hedged in
  Calc.initialInvestment c = 3000%float
  /\ Calc.holdValue c = 3000%float
  /\ Spec.lossModelled Scenario.deposit = true
  /\ Engine.impermanentLossFactor
       (PriceRange.current (Calc.priceRange c)
        / Engine.initialPriceRatio Scenario.deposit)%js = 0%float
  /\ Calc.impermanentLoss c = 0%float
  /\ within 0.005 (Calc.earnedFees c) 61.64 = true
  /\ within 0.005 (Calc.lpNetReturn c) 61.64 = true
  /\ Engine.truthy (Simulation.isHedgeEnabled Scenario.hedged) = true
  /\ within 0.005 (Calc.shortPnl h) 150 = true
  /\ within 0.000000001 (Calc.shortPnl h) 150 = true
  /\ Calc.fundingPnl h = (-4.5)%float.
Proof. vm_compute. repeat split. Qed.

(** C5 as stated fails on binary64 numbers.  Every field of this position
    is finite and token B is priced 0, but the product of the amount and the
    price of token A overflows: [initialInvestment] and [earnedFees] are
    infinite, [lpNetReturn] and the totals are NaN, and the last point of
    the projection has an infinite [totalValue]. *)
Lemma degenerate_outputs_counterexample :
  let s := Scenario.huge in
  let c := Engine.calculations s in
  let no_point := Point.mk 0%float 0%float 0%float 0%float in
  Simulation.initialPriceB s = 0%float
  /\ Simulation_finiteb s = true
  /\ PrimFloat.is_infinity (Calc.initialInvestment c) = true
  /\ PrimFloat.is_infinity (Calc.earnedFees c) = true
  /\ PrimFloat.is_nan (Calc.lpNetReturn c) = true
  /\ PrimFloat.is_nan (Calc.finalTotalValue c) = true
  /\ option_map
       (fun pts => PrimFloat.is_finite (Point.totalValue (List.last pts no_point)))
       (Engine.chartData 32 s) = Some false.
Proof. vm_compute. repeat split. Qed.

(** ** No undefined operation reaches an output *)

Section Finite.
Local Open Scope R_scope.

Lemma finite_inv (x : xreal) : XR.finite x -> exists r, x = Xreal r.
Proof. destruct x; [contradiction | eauto]. Qed.

Lemma finite_add (x y : xreal) :
  XR.finite x -> XR.finite y -> XR.finite (x + y)%js.
Proof. destruct x, y; cbn; tauto. Qed.

Lemma finite_sub (x y : xreal) :
  XR.finite x -> XR.finite y -> XR.finite (x - y)%js.
Proof. destruct x, y; cbn; tauto. Qed.

Lemma finite_mul (x y : xreal) :
  XR.finite x -> XR.finite y -> XR.finite (x * y)%js.
Proof. destruct x, y; cbn; tauto. Qed.

Lemma finite_of_Z (z : Z) : XR.finite (of_Z z).
Proof. exact I. Qed.

Lemma positive_inv (x : xreal) :
  (x >? zero)%js = true -> exists r, x = Xreal r /\ 0 < r.
Proof.
  destruct x as [|r]; [discriminate|].
  intros Hx. apply xr_ltb_iff in Hx. eauto.
Qed.

(** A quotient guarded by [denominator > 0]. *)
Lemma finite_div_pos (x y : xreal) :
  XR.finite x -> (y >? zero)%js = true -> XR.finite (x / y)%js.
Proof.
  intros Hx Hy. apply positive_inv in Hy as (r & -> & Hr).
  apply finite_inv in Hx as [v ->]. rewrite xr_div by lra. exact I.
Qed.

Lemma finite_div_const (x : xreal) (z : Z) :
  XR.finite x -> z <> 0%Z -> XR.finite (x / of_Z z)%js.
Proof.
  intros Hx Hz. apply finite_inv in Hx as [v ->].
  change (of_Z z) with (Xreal (IZR z)).
  rewrite xr_div; [exact I|]. now apply not_0_IZR.
Qed.

(** [cond ? x / y * 100 : 0] with [cond] the test [y > 0]. *)
Lemma finite_percentage (x y : xreal) :
  XR.finite x ->
  XR.finite (if (y >? zero)%js then (x / y * of_Z 100)%js else zero).
Proof.
  intros Hx. destruct (y >? zero)%js eqn:Hy; [|exact I].
  apply finite_mul; [now apply finite_div_pos | exact I].
Qed.

(** A guarded price ratio. *)
Lemma finite_ratio (x y : xreal) :
  XR.finite x ->
  XR.finite (if (y >? zero)%js then (x / y)%js else zero).
Proof.
  intros Hx. destruct (y >? zero)%js eqn:Hy; [|exact I].
  now apply finite_div_pos.
Qed.

Lemma finite_lossFactor (k : xreal) :
  (k >? zero)%js = true -> XR.finite (Engine.impermanentLossFactor k).
Proof.
  intros Hk. apply positive_inv in Hk as (r & -> & Hr).
  rewrite impermanentLossFactor_exact by assumption. exact I.
Qed.

Lemma positive_quotient (x y : xreal) :
  (x >? zero)%js = true -> (y >? zero)%js = true ->
  (x / y >? zero)%js = true.
Proof.
  intros Hx Hy.
  apply positive_inv in Hx as (a & -> & Ha).
  apply positive_inv in Hy as (b & -> & Hb).
  rewrite xr_div by lra. apply xr_ltb_iff.
  now apply Rdiv_lt_0_compat.
Qed.

(** [shortAmount * (1 - now / entry)] guarded by [entry > 0]. *)
Lemma finite_short (amount now entry : xreal) :
  XR.finite amount -> XR.finite now ->
  XR.finite (if (entry >? zero)%js
             then (amount * (one - now / entry))%js else zero).
Proof.
  intros Ha Hn. destruct (entry >? zero)%js eqn:He; [|exact I].
  apply finite_mul; [assumption|].
  apply finite_sub; [exact I | now apply finite_div_pos].
Qed.

Lemma finite_nullish (x : option R) :
  XR.finite (nullish (option_map Xreal x) zero).
Proof. destruct x; exact I. Qed.
End Finite.

Create HintDb finite.
#[local] Hint Resolve finite_add finite_sub finite_mul finite_of_Z
  finite_percentage finite_ratio finite_short finite_nullish
  finite_lossFactor positive_quotient : finite.
#[local] Hint Extern 1 (XR.finite (Xreal _)) => exact I : finite.
#[local] Hint Extern 1 (XR.finite zero) => exact I : finite.
#[local] Hint Extern 1 (XR.finite one) => exact I : finite.
#[local] Hint Extern 2 (XR.finite (_ / of_Z _)%js) =>
  apply finite_div_const; [|discriminate] : finite.

Ltac project_fields :=
  unfold Engine.calculations, Engine.chartDay, Engine.dataPoint, exact;
  cbn -[nullish zero one num_add num_sub num_mul num_div num_ltb num_leb
        Math_sqrt of_Z Engine.impermanentLossFactor].

Section FiniteSnapshot.
Variable s : Simulation.t R.

Local Abbreviation c := (Engine.calculations (exact s)).

Lemma finite_initialInvestment : XR.finite (Calc.initialInvestment c).
Proof.
  project_fields. auto 10 with finite.
Qed.

Lemma finite_holdValue : XR.finite (Calc.holdValue c).
Proof.
  project_fields. auto 10 with finite.
Qed.

Lemma finite_earnedFees : XR.finite (Calc.earnedFees c).
Proof.
  change (Calc.earnedFees c)
    with (Calc.initialInvestment c
          * (Xreal (Simulation.apr s) / of_Z 100)
          * (Xreal (Simulation.duration s) / of_Z 365))%js.
  pose proof finite_initialInvestment. auto 10 with finite.
Qed.

Lemma finite_finalLpValue : XR.finite (Calc.finalLpValue c).
Proof.
  rewrite calculations_finalLpValue.
  pose proof finite_holdValue as Hh. rewrite calculations_holdValue in Hh.
  destruct (Spec.lossModelled (exact s)) eqn:Hm; [|assumption].
  unfold Spec.lossModelled in Hm.
  apply andb_prop in Hm as [Hm _]. apply andb_prop in Hm as [Hi Hl].
  rewrite ilFactor_agrees. auto 10 with finite.
Qed.

Lemma finite_shortPnl : XR.finite (Calc.shortPnl c).
Proof.
  project_fields.
  destruct (Engine.truthy _); [|exact I].
  destruct (ShortToken_eqb _ _); auto with finite.
Qed.

Lemma finite_fundingPnl : XR.finite (Calc.fundingPnl c).
Proof.
  project_fields.
  destruct (Engine.truthy _); auto 10 with finite.
Qed.

Lemma calculations_finite : Calc_finite c.
Proof.
  pose proof finite_initialInvestment as Hinv.
  pose proof finite_holdValue as Hhold.
  pose proof finite_earnedFees as Hfees.
  pose proof finite_finalLpValue as Hfin.
  pose proof finite_shortPnl as Hshort.
  pose proof finite_fundingPnl as Hfund.
  assert (Hloss : XR.finite (Calc.impermanentLoss c)).
  { change (Calc.impermanentLoss c)
      with (Calc.finalLpValue c - Calc.holdValue c)%js.
    auto with finite. }
  assert (Hlp : XR.finite (Calc.lpNetReturn c)).
  { change (Calc.lpNetReturn c)
      with (Calc.finalLpValue c + Calc.earnedFees c
            - Calc.initialInvestment c)%js.
    auto with finite. }
  assert (Htot : XR.finite (Calc.totalNetReturn c)).
  { change (Calc.totalNetReturn c)
      with (Calc.lpNetReturn c + Calc.shortPnl c + Calc.fundingPnl c)%js.
    auto with finite. }
  unfold Calc_finite. repeat split; trivial.
  - change (Calc.impermanentLossPct c)
      with (if (Calc.holdValue c >? zero)%js
            then (Calc.impermanentLoss c / Calc.holdValue c * of_Z 100)%js
            else zero).
    auto with finite.
  - change (Calc.lpNetReturnPct c)
      with (if (Calc.initialInvestment c >? zero)%js
            then (Calc.lpNetReturn c / Calc.initialInvestment c
                  * of_Z 100)%js
            else zero).
    auto with finite.
  - change (Calc.totalNetReturnPct c)
      with (if (Calc.initialInvestment c >? zero)%js
            then (Calc.totalNetReturn c / Calc.initialInvestment c
                  * of_Z 100)%js
            else zero).
    auto with finite.
  - change (Calc.finalTotalValue c)
      with (Calc.initialInvestment c + Calc.totalNetReturn c)%js.
    auto with finite.
  - change (PriceRange.current (Calc.priceRange c))
      with (Spec.latestRatio (exact s)).
    unfold Spec.latestRatio. apply finite_ratio. exact I.
Qed.
End FiniteSnapshot.

Section FiniteProjection.
Local Open Scope R_scope.
Variable s : Simulation.t R.
Variables amountA amountB initialInvestment : xreal.
Hypothesis finite_amountA : XR.finite amountA.
Hypothesis finite_amountB : XR.finite amountB.
Hypothesis finite_investment : XR.finite initialInvestment.

Local Abbreviation dayOf t :=
  (Engine.chartDay (exact s) amountA amountB initialInvestment (Xreal t)).

Lemma finite_progress (t : R) : XR.finite (Day.progress (dayOf t)).
Proof.
  project_fields.
  destruct (_ >? _)%js eqn:Hd; [|exact I].
  now apply finite_div_pos.
Qed.

Lemma finite_currentPriceA (t : R) : XR.finite (Day.currentPriceA (dayOf t)).
Proof.
  change (Day.currentPriceA (dayOf t))
    with (Xreal (Simulation.initialPriceA s)
          + (Xreal (Simulation.latestPriceA s)
             - Xreal (Simulation.initialPriceA s))
            * Day.progress (dayOf t))%js.
  pose proof (finite_progress t). auto with finite.
Qed.

Lemma finite_currentPriceB (t : R) : XR.finite (Day.currentPriceB (dayOf t)).
Proof.
  change (Day.currentPriceB (dayOf t))
    with (if (Xreal (Simulation.initialPriceB s) >? zero)%js
          then (Xreal (Simulation.initialPriceB s)
                + (Xreal (Simulation.latestPriceB s)
                   - Xreal (Simulation.initialPriceB s))
                  * Day.progress (dayOf t))%js
          else one).
  pose proof (finite_progress t).
  destruct (_ >? _)%js; auto with finite.
Qed.

Lemma finite_day_holdValue (t : R) : XR.finite (Day.holdValue (dayOf t)).
Proof.
  change (Day.holdValue (dayOf t))
    with (amountA * Day.currentPriceA (dayOf t)
          + amountB * Day.currentPriceB (dayOf t))%js.
  pose proof (finite_currentPriceA t). pose proof (finite_currentPriceB t).
  auto with finite.
Qed.

Lemma finite_day_earnedFees (t : R) : XR.finite (Day.earnedFees (dayOf t)).
Proof.
  change (Day.earnedFees (dayOf t))
    with (initialInvestment * (Xreal (Simulation.apr s) / of_Z 100)
          * (Xreal t / of_Z 365))%js.
  auto 10 with finite.
Qed.

Lemma finite_lpValue (t : R) : XR.finite (Day.lpValue (dayOf t)).
Proof.
  pose proof (finite_day_holdValue t) as Hh.
  change (Day.lpValue (dayOf t))
    with (if (Engine.initialPriceRatio (exact s) >? zero)%js
             && (Day.currentPriceRatio (dayOf t) >? zero)%js
          then
            if (Day.currentPriceRatio (dayOf t)
                / Engine.initialPriceRatio (exact s) >? zero)%js
            then (Day.holdValue (dayOf t)
                  * (one
                     + Engine.impermanentLossFactor
                         (Day.currentPriceRatio (dayOf t)
                          / Engine.initialPriceRatio (exact s))))%js
            else Day.holdValue (dayOf t)
          else Day.holdValue (dayOf t)).
  destruct (_ && _); [|assumption].
  destruct (_ >? _)%js eqn:Hk; [|assumption].
  auto with finite.
Qed.

Lemma finite_day_shortPnl (t : R) : XR.finite (Day.shortPnl (dayOf t)).
Proof.
  pose proof (finite_currentPriceA t) as HA.
  pose proof (finite_currentPriceB t) as HB.
  change (Day.shortPnl (dayOf t))
    with (if Engine.truthy (Simulation.isHedgeEnabled s) then
            if ShortToken_eqb (Simulation.shortToken s) TokenA
            then (if (Xreal (Simulation.initialPriceA s) >? zero)%js
                  then (Xreal (Simulation.shortAmount s)
                        * (one - Day.currentPriceA (dayOf t)
                                 / Xreal (Simulation.initialPriceA s)))%js
                  else zero)
            else (if (Xreal (Simulation.initialPriceB s) >? zero)%js
                  then (Xreal (Simulation.shortAmount s)
                        * (one - Day.currentPriceB (dayOf t)
                                 / Xreal (Simulation.initialPriceB s)))%js
                  else zero)
          else zero).
  destruct (Engine.truthy _); [|exact I].
  destruct (ShortToken_eqb _ _); auto with finite.
Qed.

Lemma finite_day_fundingPnl (t : R) : XR.finite (Day.fundingPnl (dayOf t)).
Proof.
  project_fields. destruct (Engine.truthy _); auto 10 with finite.
Qed.

Lemma finite_totalValue (t : R) : XR.finite (Day.totalValue (dayOf t)).
Proof.
  change (Day.totalValue (dayOf t))
    with (Day.lpValue (dayOf t) + Day.earnedFees (dayOf t)
          + Day.shortPnl (dayOf t) + Day.fundingPnl (dayOf t))%js.
  pose proof (finite_lpValue t). pose proof (finite_day_earnedFees t).
  pose proof (finite_day_shortPnl t). pose proof (finite_day_fundingPnl t).
  auto with finite.
Qed.

Lemma finite_dataPoint (t : R) :
  Point_finite (Engine.dataPoint (Xreal t) (dayOf t)).
Proof.
  repeat split; cbn [Engine.dataPoint Point.day Point.totalValue
                       Point.holdValue Point.earnedFees].
  - apply finite_totalValue.
  - apply finite_day_holdValue.
  - apply finite_day_earnedFees.
Qed.

(** The loop ends as soon as the day exceeds the duration, and every point
    it pushes is made of real numbers. *)
Lemma chartLoop_finite (j : nat) :
  forall (k : nat) (acc : list (Point.t xreal)),
    Simulation.duration s < INR (k + j) ->
    Forall Point_finite acc ->
    exists pts,
      Engine.chartLoop (S j) (exact s) amountA amountB initialInvestment
                       (Xreal (INR k)) acc = Some pts
      /\ Forall Point_finite pts.
Proof.
  induction j as [|j IH]; intros k acc Hk Hacc; cbn [Engine.chartLoop];
    change (Simulation.duration (exact s))
      with (Xreal (Simulation.duration s)).
  - rewrite Nat.add_0_r in Hk. rewrite xr_leb_false by assumption. eauto.
  - destruct (Xreal (INR k) <=? Xreal (Simulation.duration s))%js; [|eauto].
    rewrite day_increment. apply IH.
    + now replace (S k + j)%nat with (k + S j)%nat by lia.
    + apply Forall_app. split; [assumption|].
      constructor; [apply finite_dataPoint | constructor].
Qed.
End FiniteProjection.

Lemma nat_above (x : R) : exists j : nat, (x < INR j)%R.
Proof.
  destruct (archimed x) as [Hup _].
  exists (Z.to_nat (up x)).
  destruct (Z_lt_le_dec 0 (up x)) as [Hz|Hz].
  - rewrite INR_IZR_INZ, Z2Nat.id by lia. lra.
  - replace (Z.to_nat (up x)) with 0%nat by lia. cbn.
    apply IZR_le in Hz. lra.
Qed.

(** In exact arithmetic every output is a real number. *)
Lemma outputs_finite_exact (s : Simulation.t R) :
  Calc_finite (Engine.calculations (exact s))
  /\ exists fuel : nat,
      forall fuel' : nat, (fuel <= fuel')%nat ->
        exists pts : list (Point.t xreal),
          Engine.chartData fuel' (exact s) = Some pts
          /\ Forall Point_finite pts.
Proof.
  split; [apply calculations_finite|].
  destruct (nat_above (Simulation.duration s)) as [j Hj].
  exists (S j). intros fuel' Hfuel.
  destruct fuel' as [|j']; [lia|].
  unfold Engine.chartData.
  destruct (_ || _ || _); [eauto|].
  change (Simulation.amountA (exact s))
    with (option_map Xreal (Simulation.amountA s)).
  change (Simulation.amountB (exact s))
    with (option_map Xreal (Simulation.amountB s)).
  destruct (Simulation.amountA s) as [a|], (Simulation.amountB s) as [b|];
    cbn [option_map]; eauto.
  change zero with (Xreal (INR 0)).
  apply chartLoop_finite; try exact I; [|constructor].
  cbn [Nat.add].
  apply Rlt_le_trans with (1 := Hj). apply le_INR. lia.
Qed.


Section Fallbacks.
Context {T : Type} `{Num T}.
Hypothesis zero_not_positive : ((zero : T) <? zero)%js = false.

(** Token B without a positive initial price: the ratio is 0, no loss is
    modelled, and the projection prices token B at 1. *)
Lemma fallback_initialPriceB (s : Simulation.t T) :
  (Simulation.initialPriceB s >? zero)%js = false ->
  Engine.initialPriceRatio s = zero
  /\ Calc.finalLpValue (Engine.calculations s)
     = Calc.holdValue (Engine.calculations s)
  /\ (Simulation.shortToken s = TokenB ->
      Calc.shortPnl (Engine.calculations s) = zero)
  /\ forall amountA amountB initialInvestment day : T,
       Day.currentPriceB
         (Engine.chartDay s amountA amountB initialInvestment day)
       = one
       /\ Day.lpValue
            (Engine.chartDay s amountA amountB initialInvestment day)
          = Day.holdValue
              (Engine.chartDay s amountA amountB initialInvestment day)
       /\ (Simulation.shortToken s = TokenB ->
           Day.shortPnl
             (Engine.chartDay s amountA amountB initialInvestment day)
           = zero).
Proof.
  intros HB. split; [|split; [|split]].
  - unfold Engine.initialPriceRatio. now rewrite HB.
  - rewrite calculations_finalLpValue, calculations_holdValue.
    unfold Spec.lossModelled, Spec.initialRatio.
    now rewrite HB, zero_not_positive.
  - intros Hst. unfold Engine.calculations. cbn [Calc.shortPnl].
    rewrite Hst, HB. cbn [ShortToken_eqb].
    now destruct (Engine.truthy _).
  - intros amountA amountB initialInvestment day.
    unfold Engine.chartDay.
    cbn [Day.currentPriceB Day.lpValue Day.holdValue Day.shortPnl].
    rewrite HB, zero_not_positive. split; [reflexivity|].
    split; [reflexivity|].
    intros Hst. rewrite Hst. cbn [ShortToken_eqb].
    now destruct (Engine.truthy _).
Qed.

Lemma fallback_range (s : Simulation.t T) :
  (Simulation.upperPriceBound s >? Simulation.lowerPriceBound s)%js = false ->
  Calc.finalLpValue (Engine.calculations s)
  = Calc.holdValue (Engine.calculations s).
Proof.
  intros Hr.
  rewrite calculations_finalLpValue, calculations_holdValue.
  unfold Spec.lossModelled. now rewrite Hr, andb_false_r.
Qed.

Lemma fallback_duration (s : Simulation.t T) :
  (Simulation.duration s <=? zero)%js = true ->
  forall fuel : nat, Engine.chartData fuel s = Some [].
Proof.
  intros Hd fuel. apply chartData_guard. now rewrite Hd.
Qed.
End Fallbacks.

(** C5 (degenerate safety), as amended.  On binary64 numbers and in exact
    arithmetic [0 < 0] is false, and in every such arithmetic the three
    degenerate inputs take the guarded branch: without a positive
    [initialPriceB] the initial ratio is 0, [finalLpValue] is [holdValue],
    the P&L of a short on token B is 0, and every day of the projection
    prices token B at 1, has [lpValue = holdValue] and a P&L of 0 for a
    short on token B; without [upperPriceBound > lowerPriceBound],
    [finalLpValue] is [holdValue]; with [duration <= 0] the projection is
    empty.  For every position with real fields, in exact arithmetic, where
    a zero divisor or the square root of a negative number gives NaN: every
    number of the snapshot is a real number, and the projection returns, for
    all fuel from some bound on, a sequence of points made of real
    numbers. *)
Theorem outputs_finite :
  (((zero : float) <? zero)%js = false /\ ((zero : xreal) <? zero)%js = false)
  /\ (forall (T : Type) (N : Num T) (s : Simulation.t T),
         ((zero : T) <? zero)%js = false ->
         ((Simulation.initialPriceB s >? zero)%js = false ->
          Engine.initialPriceRatio s = zero
          /\ Calc.finalLpValue (Engine.calculations s)
             = Calc.holdValue (Engine.calculations s)
          /\ (Simulation.shortToken s = TokenB ->
              Calc.shortPnl (Engine.calculations s) = zero)
          /\ forall amountA amountB initialInvestment day : T,
               Day.currentPriceB
                 (Engine.chartDay s amountA amountB initialInvestment day)
               = one
               /\ Day.lpValue
                    (Engine.chartDay s amountA amountB initialInvestment day)
                  = Day.holdValue
                      (Engine.chartDay s amountA amountB initialInvestment
                                       day)
               /\ (Simulation.shortToken s = TokenB ->
                   Day.shortPnl
                     (Engine.chartDay s amountA amountB initialInvestment
                                      day)
                   = zero))
         /\ ((Simulation.upperPriceBound s >? Simulation.lowerPriceBound s)%js
             = false ->
             Calc.finalLpValue (Engine.calculations s)
             = Calc.holdValue (Engine.calculations s))
         /\ ((Simulation.duration s <=? zero)%js = true ->
             forall fuel : nat, Engine.chartData fuel s = Some []))
  /\ (forall s : Simulation.t R,
         Calc_finite (Engine.calculations (exact s))
         /\ exists fuel : nat,
             forall fuel' : nat, (fuel <= fuel')%nat ->
               exists pts : list (Point.t xreal),
                 Engine.chartData fuel' (exact s) = Some pts
                 /\ Forall Point_finite pts).
Proof.
  split; [|split].
  - split; [reflexivity|]. apply xr_ltb_false. lra.
  - intros T N s Hz. split; [|split].
    + now apply fallback_initialPriceB.
    + apply fallback_range.
    + apply fallback_duration.
  - exact outputs_finite_exact.
Qed.

(** The deposit with token B priced 0 at the start, on binary64 numbers:
    no loss is modelled. *)
Lemma outputs_finite_witness :
  Engine.initialPriceRatio Scenario.zeroPriceB = 0%float
  /\ Calc.finalLpValue (Engine.calculations Scenario.zeroPriceB)
     = Calc.holdValue (Engine.calculations Scenario.zeroPriceB).
Proof.
  destruct (proj1 (proj1 (proj2 outputs_finite) float FloatNum
                         Scenario.zeroPriceB eq_refl) eq_refl)
    as (H1 & H2 & _).
  split; [exact H1 | exact H2].
Defined.

(** ** The remaining claims *)


(** The deposit of the scenario has unchanged prices. *)
Lemma ratio_invariance_witness :
  (Calc.finalLpValue (Engine.calculations (exact Scenario.depositR))
   = Calc.holdValue (Engine.calculations (exact Scenario.depositR))
   /\ Calc.impermanentLoss (Engine.calculations (exact Scenario.depositR))
      = Xreal 0
   /\ Calc.impermanentLossPct (Engine.calculations (exact Scenario.depositR))
      = Xreal 0
   /\ (Spec.lossModelled (exact Scenario.depositR) = true ->
       Engine.impermanentLossFactor
         (Spec.latestRatio (exact Scenario.depositR)
          / Spec.initialRatio (exact Scenario.depositR))%js
       = Xreal 0))
  /\ (Calc.finalLpValue (Engine.calculations Scenario.deposit)
      = Calc.holdValue (Engine.calculations Scenario.deposit)
      /\ (Spec.lossModelled Scenario.deposit = true ->
          Engine.impermanentLossFactor
            (Spec.latestRatio Scenario.deposit
             / Spec.initialRatio Scenario.deposit)%js
          = 0%float)).
Proof.
  split.
  - apply (proj1 ratio_invariance Scenario.depositR); cbn; lra.
  - apply (proj2 ratio_invariance Scenario.deposit); reflexivity.
Defined.

(** The 31 points of the 30-day scenario, in exact arithmetic and on
    binary64 numbers, and the 3 points of the deposit that lasts two days
    and a half. *)
Lemma chartData_shape_witness :
  (exists pts : list (Point.t xreal),
      Engine.chartData 32 (exact Scenario.depositR) = Some pts
      /\ Spec.projected (fun i => Xreal (INR i)) (exact Scenario.depositR)
                        30 pts)
  /\ (exists pts : list (Point.t float),
         Engine.chartData 32 Scenario.deposit = Some pts
         /\ Spec.projected float_of_nat Scenario.deposit 30 pts)
  /\ (exists pts : list (Point.t float),
         Engine.chartData 32 Scenario.halfDay = Some pts
         /\ Spec.projected float_of_nat Scenario.halfDay 2 pts).
Proof.
  destruct chartData_shape as (_ & Hexact & Hfloor & Hwhole & _).
  split; [|split].
  - apply (Hexact Scenario.depositR 30%nat (1 / 2)%R 1500%R 32%nat).
    + cbn. lra.
    + cbn. lra.
    + reflexivity.
    + lra.
    + reflexivity.
    + lra.
    + lia.
  - apply (Hwhole Scenario.deposit 30%nat 0.5%float 1500%float 32%nat);
      try reflexivity; lia.
  - apply (Hfloor Scenario.halfDay 2%nat 0.5%float 1500%float 32%nat);
      try reflexivity; lia.
Defined.

(** C1 (loss model of the snapshot).  For every arithmetic and every
    position: when the initial ratio and the latest ratio (each 0 when its
    denominator is not positive) are both positive and the upper bound is
    above the lower bound, [finalLpValue = holdValue * (1 + ilFactor)] with
    [k = latestRatio / initialRatio] and
    [ilFactor = 2*sqrt(k)/(1+k) - 1]; otherwise [finalLpValue = holdValue].
    [holdValue] is [amountA*latestPriceA + amountB*latestPriceB]. *)
Theorem finalLpValue_model :
  forall (T : Type) (N : Num T) (s : Simulation.t T),
    Calc.holdValue (Engine.calculations s) = Spec.holdValue s
    /\ (Spec.lossModelled s = true ->
        Calc.finalLpValue (Engine.calculations s)
        = (Calc.holdValue (Engine.calculations s)
           * (of_Z 1
              + Spec.ilFactor (Spec.latestRatio s / Spec.initialRatio s)))%js)
    /\ (Spec.lossModelled s = false ->
        Calc.finalLpValue (Engine.calculations s)
        = Calc.holdValue (Engine.calculations s)).
Proof.
  intros T N s. rewrite calculations_finalLpValue, calculations_holdValue.
  repeat split; intros ->; reflexivity.
Qed.

(** C9 (the projection ignores the range).  For every arithmetic, two
    positions that differ only in [lowerPriceBound] and [upperPriceBound]
    have the same projection, point for point; whereas the snapshot's
    [finalLpValue] does depend on the bounds: on binary64 numbers, inverting
    the range of the hedged scenario changes it. *)
Theorem chartData_ignores_bounds :
  (forall (T : Type) (N : Num T) (s : Simulation.t T) (lower upper : T)
          (fuel : nat),
      Engine.chartData fuel (Simulation.withBounds lower upper s)
      = Engine.chartData fuel s)
  /\ Calc.finalLpValue
       (Engine.calculations
          (Simulation.withBounds 3600%float 2400%float Scenario.hedged))
     <> Calc.finalLpValue (Engine.calculations Scenario.hedged).
Proof.
  split.
  - intros T N s lower upper fuel. apply chartData_withBounds.
  - intros E.
    apply (f_equal (fun x => PrimFloat.ltb x 2850%float)) in E.
    vm_compute in E. discriminate E.
Qed.

(** C10 (frame of the list operations).  [updateSimulation id patch] maps
    the list element by element, so length and order are kept: an element
    with another id is unchanged and an element with the given id becomes
    the field-wise merge of its old value with the patch.
    [removeSimulation id] drops exactly the elements with the given id and
    keeps the others, unchanged and in order. *)
Theorem simulations_frame :
  forall (T : Type) (id : string) (patch : Partial.t T)
         (prev : list (Simulation.t T)),
    List.length (App.updateSimulation id patch prev) = List.length prev
    /\ Forall2 (Spec.updated id patch) prev
               (App.updateSimulation id patch prev)
    /\ Spec.removed id prev (App.removeSimulation id prev)
    /\ (forall sim, In sim (App.removeSimulation id prev)
                    <-> In sim prev /\ Simulation.id sim <> id).
Proof.
  intros T id patch prev. split; [|split; [|split]].
  - unfold App.updateSimulation. apply length_map.
  - apply updateSimulation_Forall2.
  - apply removeSimulation_removed.
  - intros sim. unfold App.removeSimulation. rewrite filter_In.
    destruct (String.eqb_spec (Simulation.id sim) id); cbn; intuition congruence.
Qed.

(** ** The list of simulations: how the operations compose *)

Section ListOperations.
Context {T : Type}.

Lemma spread_id (sim : Simulation.t T) (patch : Partial.t T) :
  Partial.id patch = None ->
  Simulation.id (App.spread sim patch) = Simulation.id sim.
Proof. intros Hid. cbn. now rewrite Hid. Qed.

Lemma updateSimulation_cons (id : string) (patch : Partial.t T)
    (sim : Simulation.t T) (prev : list (Simulation.t T)) :
  App.updateSimulation id patch (sim :: prev)
  = (if String.eqb (Simulation.id sim) id then App.spread sim patch else sim)
    :: App.updateSimulation id patch prev.
Proof. reflexivity. Qed.

(** Without the id in the list, nothing is replaced and nothing is
    filtered out. *)
Lemma updateSimulation_absent (id : string) (patch : Partial.t T)
    (prev : list (Simulation.t T)) :
  (forall sim, In sim prev -> Simulation.id sim <> id) ->
  App.updateSimulation id patch prev = prev.
Proof.
  induction prev as [|sim prev IH]; intros Habs; [reflexivity|].
  rewrite updateSimulation_cons, IH by (intros x Hx; apply Habs; now right).
  assert (Hsim : Simulation.id sim <> id) by (apply Habs; now left).
  apply String.eqb_neq in Hsim. now rewrite Hsim.
Qed.

Lemma removeSimulation_absent (id : string) (prev : list (Simulation.t T)) :
  (forall sim, In sim prev -> Simulation.id sim <> id) ->
  App.removeSimulation id prev = prev.
Proof.
  unfold App.removeSimulation.
  induction prev as [|sim prev IH]; intros Habs; [reflexivity|].
  assert (Hsim : Simulation.id sim <> id) by (apply Habs; now left).
  apply String.eqb_neq in Hsim. cbn. rewrite Hsim. cbn.
  now rewrite IH by (intros x Hx; apply Habs; now right).
Qed.

(** X1.  An id that no simulation of the list has: [updateSimulation] and
    [removeSimulation] return the list as it is. *)
Theorem absent_id_noop (id : string) (patch : Partial.t T)
    (prev : list (Simulation.t T)) :
  (forall sim, In sim prev -> Simulation.id sim <> id) ->
  App.updateSimulation id patch prev = prev
  /\ App.removeSimulation id prev = prev.
Proof.
  induction prev as [|sim prev IH]; intros Habs; [split; reflexivity|].
  assert (Hsim : Simulation.id sim <> id) by (apply Habs; now left).
  destruct IH as [IHu IHr]; [intros x Hx; apply Habs; now right|].
  rewrite updateSimulation_cons. unfold App.removeSimulation in *. cbn.
  apply String.eqb_neq in Hsim. rewrite Hsim. cbn.
  now rewrite IHu, IHr.
Qed.

(** X2.  Updates of two different ids commute, when neither patch has the
    key [id]. *)
Theorem updates_commute (a b : string) (p q : Partial.t T)
    (prev : list (Simulation.t T)) :
  a <> b ->
  Partial.id p = None -> Partial.id q = None ->
  App.updateSimulation a p (App.updateSimulation b q prev)
  = App.updateSimulation b q (App.updateSimulation a p prev).
Proof.
  intros Hab Hp Hq.
  induction prev as [|sim prev IH]; [reflexivity|].
  rewrite !updateSimulation_cons, IH. f_equal.
  destruct (String.eqb (Simulation.id sim) a) eqn:Ea,
           (String.eqb (Simulation.id sim) b) eqn:Eb;
    rewrite ?spread_id, ?Ea, ?Eb by assumption; try reflexivity.
  apply String.eqb_eq in Ea, Eb. congruence.
Qed.

(** X3.  A patch without the key [id] keeps the ids of the list, position by
    position; removing an id leaves no simulation with that id, so that
    updating or removing it again changes nothing. *)
Theorem ids_after_update_and_remove (id : string) (patch : Partial.t T)
    (prev : list (Simulation.t T)) :
  (Partial.id patch = None ->
   List.map (@Simulation.id T) (App.updateSimulation id patch prev)
   = List.map (@Simulation.id T) prev)
  /\ ~ In id (List.map (@Simulation.id T) (App.removeSimulation id prev))
  /\ App.updateSimulation id patch (App.removeSimulation id prev)
     = App.removeSimulation id prev
  /\ App.removeSimulation id (App.removeSimulation id prev)
     = App.removeSimulation id prev.
Proof.
  assert (Hgone : forall sim, In sim (App.removeSimulation id prev) ->
                              Simulation.id sim <> id).
  { intros sim Hin. unfold App.removeSimulation in Hin.
    apply filter_In in Hin as [_ Hin].
    apply negb_true_iff, String.eqb_neq in Hin. exact Hin. }
  split; [|split; [|split]].
  - intros Hid. induction prev as [|sim prev IH]; [reflexivity|].
    rewrite updateSimulation_cons. cbn [List.map]. f_equal.
    + destruct (String.eqb (Simulation.id sim) id); [|reflexivity].
      now apply spread_id.
    + apply IH. intros x Hx. apply Hgone. unfold App.removeSimulation in *.
      cbn. destruct (negb _); [now right | assumption].
  - intros Hin. apply in_map_iff in Hin as (sim & Hid & Hin).
    now apply (Hgone sim Hin).
  - now apply updateSimulation_absent.
  - now apply removeSimulation_absent.
Qed.
End ListOperations.

(** An id that the list does not have. *)
Lemma absent_id_noop_witness :
  App.updateSimulation "2"%string (Patch.apr 10%float) [Scenario.deposit]
  = [Scenario.deposit]
  /\ App.removeSimulation "2"%string [Scenario.deposit] = [Scenario.deposit].
Proof.
  apply (@absent_id_noop float "2"%string (Patch.apr 10%float) [Scenario.deposit]).
  intros sim [<-|[]]. discriminate.
Defined.

(** Two simulations with different ids, updated in either order. *)
Lemma updates_commute_witness :
  let second :=
    App.spread Scenario.hedged
      (Partial.mk (Some "2"%string) None None None None None None None None None
         None None None None None None None None None None None None) in
  App.updateSimulation "1700000000000"%string (Patch.apr 10%float)
    (App.updateSimulation "2"%string (Patch.duration 7%float)
       [Scenario.deposit; second])
  = App.updateSimulation "2"%string (Patch.duration 7%float)
      (App.updateSimulation "1700000000000"%string (Patch.apr 10%float)
         [Scenario.deposit; second]).
Proof.
  apply (@updates_commute float "1700000000000"%string "2"%string (Patch.apr 10%float)
           (Patch.duration 7%float)).
  - discriminate.
  - reflexivity.
  - reflexivity.
Defined.

(** The ids of a list after an update, and a second removal. *)
Lemma ids_after_update_and_remove_witness :
  List.map (@Simulation.id float)
    (App.updateSimulation "1700000000000"%string (Patch.apr 10%float)
       [Scenario.deposit])
  = List.map (@Simulation.id float) [Scenario.deposit].
Proof.
  apply (proj1 (@ids_after_update_and_remove float "1700000000000"%string
                  (Patch.apr 10%float) [Scenario.deposit])).
  reflexivity.
Defined.

Section AddSimulation.
Context {T : Type} `{Num T}.

Lemma cardsFrom_simulations (index : nat) (l : list (Simulation.t T)) :
  List.map (@AppList.simulation T) (AppList.cardsFrom index l) = l.
Proof.
  revert index. induction l as [|sim l IH]; intros index; cbn; [reflexivity|].
  now rewrite IH.
Qed.

Lemma cardsFrom_collapsed (index : nat) (l : list (Simulation.t T)) :
  Forall (fun card => AppList.defaultExpanded card = false)
         (AppList.cardsFrom (S index) l).
Proof.
  revert index. induction l as [|sim l IH]; intros index; cbn; constructor.
  - reflexivity.
  - apply IH.
Qed.

(** X4.  [addSimulation] puts the new simulation first and records its id;
    the list of cards is then not the empty message, shows one card per
    simulation in the order of the list, and the only card expanded by
    default is the new one. *)
Theorem added_simulation_first (now today : string)
    (prev : list (Simulation.t T)) :
  let added := AppList.addSimulation now today prev in
  fst added = AppList.newSimulation now today :: prev
  /\ snd added = Some now
  /\ exists cards,
       AppList.SimulationList (fst added)
       = Some (AppList.mkCardProps now (AppList.newSimulation now today) true
               :: cards)
       /\ List.map (@AppList.simulation T) cards = prev
       /\ Forall (fun card => AppList.defaultExpanded card = false) cards.
Proof.
  cbn. repeat split.
  exists (AppList.cardsFrom 1 prev). repeat split.
  - apply cardsFrom_simulations.
  - apply cardsFrom_collapsed.
Qed.

(** X5.  Removing the simulation that was just added gives the list the
    removal gives without it; when no earlier simulation has the new id,
    that is the list before the addition. *)
Theorem add_then_remove (now today : string) (prev : list (Simulation.t T)) :
  App.removeSimulation now (fst (AppList.addSimulation now today prev))
  = App.removeSimulation now prev
  /\ ((forall sim, In sim prev -> Simulation.id sim <> now) ->
      App.removeSimulation now (fst (AppList.addSimulation now today prev))
      = prev).
Proof.
  assert (Hrm : App.removeSimulation now
                  (fst (AppList.addSimulation now today prev))
                = App.removeSimulation now prev).
  { unfold App.removeSimulation. cbn. now rewrite String.eqb_refl. }
  split; [exact Hrm|].
  intros Hfresh. rewrite Hrm.
  now apply removeSimulation_absent.
Qed.
End AddSimulation.

(** Adding to a list that has the scenario only, then removing the new
    simulation. *)
Lemma add_then_remove_witness :
  App.removeSimulation "2"%string
    (fst (AppList.addSimulation "2"%string "2024-01-01"%string
            [Scenario.deposit]))
  = [Scenario.deposit].
Proof.
  apply (proj2 (@add_then_remove float FloatNum "2"%string
                  "2024-01-01"%string [Scenario.deposit])).
  intros sim [<-|[]]. discriminate.
Defined.

(** ** The card's handlers *)

Section Handlers.
Context {T : Type} `{Num T}.

Lemma updateSimulation_empty (id : string) (prev : list (Simulation.t T)) :
  App.updateSimulation id (Partial.empty T) prev = prev.
Proof.
  induction prev as [|sim prev IH]; [reflexivity|].
  rewrite updateSimulation_cons, IH, spread_empty.
  now destruct (String.eqb _ _).
Qed.

(** The projection reads a position through its duration and the body of
    the loop only. *)
Lemma chartLoop_ext (s s' : Simulation.t T) (a b inv : T) (fuel : nat) :
  Simulation.duration s = Simulation.duration s' ->
  (forall day, Engine.chartDay s a b inv day = Engine.chartDay s' a b inv day) ->
  forall (day : T) (acc : list (Point.t T)),
    Engine.chartLoop fuel s a b inv day acc
    = Engine.chartLoop fuel s' a b inv day acc.
Proof.
  intros Hd Hday. induction fuel as [|fuel IH]; intros day acc;
    cbn [Engine.chartLoop]; [reflexivity|].
  now rewrite Hd, Hday, IH.
Qed.

(** A text key changes no number: the snapshot and the projection stay. *)
Lemma textPatch_frame (key : Card.TextKey) (value : string)
    (s : Simulation.t T) :
  Engine.calculations (App.spread s (Card.textPatch key value))
  = Engine.calculations s
  /\ forall fuel : nat,
       Engine.chartData fuel (App.spread s (Card.textPatch key value))
       = Engine.chartData fuel s.
Proof.
  split; [now destruct key, s|].
  intros fuel. unfold Engine.chartData.
  set (s' := App.spread s (Card.textPatch key value)).
  assert (Hd : Simulation.duration s' = Simulation.duration s)
    by now destruct key, s.
  assert (HA : Simulation.amountA s' = Simulation.amountA s)
    by now destruct key, s.
  assert (HB : Simulation.amountB s' = Simulation.amountB s)
    by now destruct key, s.
  assert (HpA : Simulation.initialPriceA s' = Simulation.initialPriceA s)
    by now destruct key, s.
  assert (HpB : Simulation.initialPriceB s' = Simulation.initialPriceB s)
    by now destruct key, s.
  rewrite Hd, HA, HB, HpA, HpB.
  destruct (_ || _ || _); [reflexivity|].
  destruct (Simulation.amountA s) as [a|]; [|reflexivity].
  destruct (Simulation.amountB s) as [b|]; [|reflexivity].
  apply chartLoop_ext; [exact Hd|].
  intros day. subst s'. now destruct key, s.
Qed.

(** X6.  A text that is not empty and does not parse as a number: for the
    four text keys [handleInputChange] passes the text itself to [onUpdate],
    which stores it in that field and changes no number of the snapshot or
    of the projection; for each of the sixteen other keys it stages an empty
    update, does not call [onUpdate], and the list of simulations stays as
    it is.  A percentage is also ignored when the initial price ratio is
    not positive. *)
Theorem invalid_input_ignored (value : string) (numValue : T)
    (s : Simulation.t T) (simulations : list (Simulation.t T)) :
  isNaN numValue = true ->
  value <> ""%string ->
  (forall key : Card.Key,
      Card.handleInputChange key value numValue s
      = match key with
        | Card.TextK key => Some (Card.textPatch key value)
        | _ => None
        end)
  /\ (forall key : Card.Key,
         match key with
         | Card.TextK key =>
             onInput s (Card.TextK key) value numValue simulations
             = onUpdate s (Card.textPatch key value) simulations
         | _ => onInput s key value numValue simulations = simulations
         end)
  /\ (forall key : Card.TextKey,
         match key with
         | Card.protocol =>
             Simulation.protocol (App.spread s (Card.textPatch key value))
         | Card.tokenA =>
             Simulation.tokenA (App.spread s (Card.textPatch key value))
         | Card.tokenB =>
             Simulation.tokenB (App.spread s (Card.textPatch key value))
         | Card.startDate =>
             Simulation.startDate (App.spread s (Card.textPatch key value))
         end = value
         /\ Engine.calculations (App.spread s (Card.textPatch key value))
            = Engine.calculations s
         /\ forall fuel : nat,
              Engine.chartData fuel (App.spread s (Card.textPatch key value))
              = Engine.chartData fuel s)
  /\ (forall key,
         Engine.handleInputChange key numValue s = (None, Partial.empty T))
  /\ (forall key,
         Card.handleAmountChange key false numValue s
         = (None, Partial.empty T))
  /\ (forall key,
         Card.handleNumericChange key false numValue = Partial.empty T)
  /\ (forall v,
         (Engine.initialPriceRatio s >? zero)%js = false ->
         Engine.handleInputChange pctLower v s = (None, Partial.empty T)
         /\ Engine.handleInputChange pctUpper v s
            = (None, Partial.empty T))
  /\ onUpdate s (Partial.empty T) simulations = simulations.
Proof.
  intros Hnan Hvalue.
  assert (Hempty : String.eqb value "" = false) by now apply String.eqb_neq.
  assert (Hbound : forall key,
             Engine.handleInputChange key numValue s
             = (None, Partial.empty T)).
  { intros key. unfold Engine.handleInputChange. rewrite Hnan.
    now destruct key. }
  assert (Hamount : forall key,
             Card.handleAmountChange key false numValue s
             = (None, Partial.empty T)).
  { intros key. unfold Card.handleAmountChange. rewrite Hnan.
    now destruct key. }
  assert (Hnumeric : forall key,
             Card.handleNumericChange key false numValue = Partial.empty T).
  { intros key. unfold Card.handleNumericChange. now rewrite Hnan. }
  assert (Hall : forall key : Card.Key,
             Card.handleInputChange key value numValue s
             = match key with
               | Card.TextK key => Some (Card.textPatch key value)
               | _ => None
               end).
  { intros [key|key|key|key]; unfold Card.handleInputChange;
      rewrite ?Hempty, ?Hbound, ?Hamount, ?Hnumeric; reflexivity. }
  split; [exact Hall|]. split.
  { intros key. unfold onInput. rewrite Hall. now destruct key. }
  split.
  { intros key. split; [now destruct key, s|]. apply textPatch_frame. }
  split; [exact Hbound|]. split; [exact Hamount|].
  split; [exact Hnumeric|]. split.
  - intros v Hratio. unfold Engine.handleInputChange.
    rewrite Hratio, !andb_false_r. now split.
  - apply updateSimulation_empty.
Qed.

Hypothesis falsy_zero : falsy (zero : T) = true.
Hypothesis zero_leb_zero : ((zero : T) <=? zero)%js = true.

(** An emptied amount, value or duration field stores 0 and empties the
    projection, in an arithmetic where [0] is falsy and [0 <= 0]. *)
Lemma cleared_field_no_projection (numValue : T) (s : Simulation.t T)
    (fuel : nat) :
  isNaN numValue = true ->
  (forall key : Card.AmountKey,
      Card.handleInputChange (Card.AmountK key) "" numValue s
      = Some match key with
             | Card.amountA | Card.valueA => Patch.amountA zero
             | Card.amountB | Card.valueB => Patch.amountB zero
             end
      /\ match key with
         | Card.amountA | Card.valueA =>
             Simulation.amountA
               (App.spread s
                  (snd (Card.handleAmountChange key true numValue s)))
         | Card.amountB | Card.valueB =>
             Simulation.amountB
               (App.spread s
                  (snd (Card.handleAmountChange key true numValue s)))
         end = Some zero
      /\ Engine.chartData fuel
           (App.spread s (snd (Card.handleAmountChange key true numValue s)))
         = Some [])
  /\ Card.handleInputChange (Card.NumericK Card.duration) "" numValue s
     = Some (Patch.duration zero)
  /\ Simulation.duration
       (App.spread s (Card.handleNumericChange Card.duration true numValue))
     = zero
  /\ Engine.chartData fuel
       (App.spread s (Card.handleNumericChange Card.duration true numValue))
     = Some [].
Proof.
  intros Hnan. split; [|split; [|split]].
  - intros key. split; [|split].
    + unfold Card.handleInputChange, Card.handleAmountChange.
      rewrite Hnan. now destruct key.
    + unfold Card.handleAmountChange. rewrite Hnan. now destruct key.
    + apply chartData_guard.
      unfold Card.handleAmountChange. rewrite Hnan.
      destruct key; cbn; rewrite falsy_zero;
        now rewrite ?orb_true_r.
  - unfold Card.handleInputChange, Card.handleNumericChange.
    now rewrite Hnan.
  - unfold Card.handleNumericChange. now rewrite Hnan.
  - apply chartData_guard.
    unfold Card.handleNumericChange. rewrite Hnan. cbn.
    now rewrite zero_leb_zero.
Qed.
End Handlers.

(** A text that is not a number, on binary64 numbers. *)
Lemma invalid_input_ignored_witness :
  (forall key : Card.Key,
      Card.handleInputChange key "abc" PrimFloat.nan Scenario.deposit
      = match key with
        | Card.TextK key => Some (Card.textPatch key "abc")
        | _ => None
        end)
  /\ onInput Scenario.deposit (Card.NumericK Card.apr) "abc" PrimFloat.nan
       [Scenario.deposit]
     = [Scenario.deposit]
  /\ Simulation.tokenA
       (App.spread Scenario.deposit (Card.textPatch Card.tokenA "abc"))
     = "abc"%string.
Proof.
  destruct (@invalid_input_ignored float FloatNum "abc" PrimFloat.nan
              Scenario.deposit [Scenario.deposit] eq_refl)
    as (H1 & H2 & H3 & _).
  - discriminate.
  - split; [exact H1|]. split.
    + exact (H2 (Card.NumericK Card.apr)).
    + exact (proj1 (H3 Card.tokenA)).
Defined.

(** X7.  Emptying the amount or the value field of either token, or the
    duration field, passes an update that stores 0 in the amount of that
    token, or in the duration, and the projection of the updated position is
    empty: on binary64 numbers and in exact arithmetic. *)
Theorem cleared_field_empties_projection :
  (forall (numValue : float) (s : Simulation.t float) (fuel : nat),
      isNaN numValue = true ->
      (forall key : Card.AmountKey,
          Card.handleInputChange (Card.AmountK key) "" numValue s
          = Some match key with
                 | Card.amountA | Card.valueA => Patch.amountA zero
                 | Card.amountB | Card.valueB => Patch.amountB zero
                 end
          /\ match key with
             | Card.amountA | Card.valueA =>
                 Simulation.amountA
                   (App.spread s
                      (snd (Card.handleAmountChange key true numValue s)))
             | Card.amountB | Card.valueB =>
                 Simulation.amountB
                   (App.spread s
                      (snd (Card.handleAmountChange key true numValue s)))
             end = Some zero
          /\ Engine.chartData fuel
               (App.spread s
                  (snd (Card.handleAmountChange key true numValue s)))
             = Some [])
      /\ Card.handleInputChange (Card.NumericK Card.duration) "" numValue s
         = Some (Patch.duration zero)
      /\ Simulation.duration
           (App.spread s
              (Card.handleNumericChange Card.duration true numValue))
         = zero
      /\ Engine.chartData fuel
           (App.spread s
              (Card.handleNumericChange Card.duration true numValue))
         = Some [])
  /\ (forall (numValue : xreal) (s : Simulation.t xreal) (fuel : nat),
         isNaN numValue = true ->
         (forall key : Card.AmountKey,
             Card.handleInputChange (Card.AmountK key) "" numValue s
             = Some match key with
                    | Card.amountA | Card.valueA => Patch.amountA zero
                    | Card.amountB | Card.valueB => Patch.amountB zero
                    end
             /\ match key with
                | Card.amountA | Card.valueA =>
                    Simulation.amountA
                      (App.spread s
                         (snd (Card.handleAmountChange key true numValue s)))
                | Card.amountB | Card.valueB =>
                    Simulation.amountB
                      (App.spread s
                         (snd (Card.handleAmountChange key true numValue s)))
                end = Some zero
             /\ Engine.chartData fuel
                  (App.spread s
                     (snd (Card.handleAmountChange key true numValue s)))
                = Some [])
         /\ Card.handleInputChange (Card.NumericK Card.duration) "" numValue s
            = Some (Patch.duration zero)
         /\ Simulation.duration
              (App.spread s
                 (Card.handleNumericChange Card.duration true numValue))
            = zero
         /\ Engine.chartData fuel
              (App.spread s
                 (Card.handleNumericChange Card.duration true numValue))
            = Some []).
Proof.
  split; intros numValue s fuel Hnan.
  - apply cleared_field_no_projection; trivial; reflexivity.
  - apply cleared_field_no_projection; trivial.
    + apply negb_true_iff. unfold zero. cbn.
      destruct (Rlt_dec 0 0); [lra | reflexivity].
    + apply xr_leb_true. lra.
Qed.

(** The cleared fields of the scenario's deposit. *)
Lemma cleared_field_empties_projection_witness :
  (forall key : Card.AmountKey,
      Card.handleInputChange (Card.AmountK key) "" PrimFloat.nan
        Scenario.deposit
      = Some match key with
             | Card.amountA | Card.valueA => Patch.amountA zero
             | Card.amountB | Card.valueB => Patch.amountB zero
             end
      /\ match key with
         | Card.amountA | Card.valueA =>
             Simulation.amountA
               (App.spread Scenario.deposit
                  (snd (Card.handleAmountChange key true PrimFloat.nan
                          Scenario.deposit)))
         | Card.amountB | Card.valueB =>
             Simulation.amountB
               (App.spread Scenario.deposit
                  (snd (Card.handleAmountChange key true PrimFloat.nan
                          Scenario.deposit)))
         end = Some zero
      /\ Engine.chartData 32
           (App.spread Scenario.deposit
              (snd (Card.handleAmountChange key true PrimFloat.nan
                      Scenario.deposit)))
         = Some [])
  /\ Card.handleInputChange (Card.NumericK Card.duration) "" PrimFloat.nan
       Scenario.deposit
     = Some (Patch.duration zero)
  /\ Simulation.duration
       (App.spread Scenario.deposit
          (Card.handleNumericChange Card.duration true PrimFloat.nan))
     = zero
  /\ Engine.chartData 32
       (App.spread Scenario.deposit
          (Card.handleNumericChange Card.duration true PrimFloat.nan))
     = Some [].
Proof.
  apply (proj1 cleared_field_empties_projection PrimFloat.nan
           Scenario.deposit 32%nat).
  reflexivity.
Defined.

Ltac xr_solve :=
  unfold isNaN, zero, one; cbn; xr_cases;
  try reflexivity; try (f_equal; field; lra); try (f_equal; lra).

(** X8.  With positive initial prices, typing a value [v] for token A and
    then a value [w] for token B sets amounts whose values, as
    [getValuesFromSim] shows them, are [v] and [w] again, and the snapshot's
    initial investment is [v + w], in exact arithmetic. *)
Theorem value_edits_set_investment (s : Simulation.t R) (v w : R) :
  (0 < Simulation.initialPriceA s)%R ->
  (0 < Simulation.initialPriceB s)%R ->
  let s1 :=
    App.spread (exact s)
      (snd (Card.handleAmountChange Card.valueA false (Xreal v) (exact s))) in
  let s2 :=
    App.spread s1
      (snd (Card.handleAmountChange Card.valueB false (Xreal w) s1)) in
  Card.Values.valueA (Card.getValuesFromSim s2) = Xreal v
  /\ Card.Values.valueB (Card.getValuesFromSim s2) = Xreal w
  /\ Calc.initialInvestment (Engine.calculations s2) = Xreal (v + w).
Proof.
  intros HA HB. destruct s; cbn in HA, HB.
  unfold Card.handleAmountChange, exact. cbn.
  repeat split; xr_solve.
Qed.

(** Values of 1500 and 1500 typed on the scenario's deposit. *)
Lemma value_edits_set_investment_witness :
  let s1 :=
    App.spread (exact Scenario.depositR)
      (snd (Card.handleAmountChange Card.valueA false (Xreal 1500)
              (exact Scenario.depositR))) in
  let s2 :=
    App.spread s1
      (snd (Card.handleAmountChange Card.valueB false (Xreal 1500) s1)) in
  Card.Values.valueA (Card.getValuesFromSim s2) = Xreal 1500
  /\ Card.Values.valueB (Card.getValuesFromSim s2) = Xreal 1500
  /\ Calc.initialInvestment (Engine.calculations s2) = Xreal (1500 + 1500).
Proof.
  apply (@value_edits_set_investment Scenario.depositR 1500 1500); cbn; lra.
Defined.

(** X9.  With a positive initial price ratio, a percentage typed in the
    lower (upper) percentage field sets a bound from which
    [getValuesFromSim] computes that percentage again, in exact
    arithmetic. *)
Theorem percentage_roundtrip (s : Simulation.t R) (p : R) :
  (Engine.initialPriceRatio (exact s) >? zero)%js = true ->
  Card.Values.pctLower
    (Card.getValuesFromSim
       (App.spread (exact s)
          (snd (Engine.handleInputChange pctLower (Xreal p) (exact s)))))
  = Xreal p
  /\ Card.Values.pctUpper
       (Card.getValuesFromSim
          (App.spread (exact s)
             (snd (Engine.handleInputChange pctUpper (Xreal p) (exact s)))))
     = Xreal p.
Proof.
  intros Hpos. unfold Engine.handleInputChange. rewrite Hpos.
  rewrite initialPriceRatio_exact in *.
  apply xr_ltb_iff in Hpos.
  destruct s; cbn in Hpos |- *.
  destruct (Rlt_dec 0 initialPriceB) as [HB|HB]; [|lra].
  split; xr_solve;
    set (q := (initialPriceA / initialPriceB)%R) in *; f_equal; field; lra.
Qed.

(** 20 percent on the scenario's deposit. *)
Lemma percentage_roundtrip_witness :
  Card.Values.pctLower
    (Card.getValuesFromSim
       (App.spread (exact Scenario.depositR)
          (snd (Engine.handleInputChange pctLower (Xreal 20)
                  (exact Scenario.depositR)))))
  = Xreal 20
  /\ Card.Values.pctUpper
       (Card.getValuesFromSim
          (App.spread (exact Scenario.depositR)
             (snd (Engine.handleInputChange pctUpper (Xreal 20)
                     (exact Scenario.depositR)))))
     = Xreal 20.
Proof.
  apply (@percentage_roundtrip Scenario.depositR 20).
  rewrite initialPriceRatio_exact. apply xr_ltb_true.
  cbn. destruct (Rlt_dec 0 1); lra.
Defined.

(** X10.  With a positive initial price ratio [r], a lower percentage in
    [0, 100) followed by an upper percentage [>= 0] sets bounds
    [0 < lower <= r <= upper], in exact arithmetic: the range contains the
    initial ratio, and with the latest prices at their initial values the
    snapshot is in range. *)
Theorem percentages_bracket_ratio (s : Simulation.t R) (pl pu : R) :
  (Engine.initialPriceRatio (exact s) >? zero)%js = true ->
  (0 <= pl < 100)%R -> (0 <= pu)%R ->
  let s1 :=
    App.spread (exact s)
      (snd (Engine.handleInputChange pctLower (Xreal pl) (exact s))) in
  let s2 :=
    App.spread s1 (snd (Engine.handleInputChange pctUpper (Xreal pu) s1)) in
  exists r lower upper : R,
    Engine.initialPriceRatio (exact s) = Xreal r
    /\ Simulation.lowerPriceBound s2 = Xreal lower
    /\ Simulation.upperPriceBound s2 = Xreal upper
    /\ (0 < lower <= r)%R /\ (r <= upper)%R
    /\ (Simulation.latestPriceA s = Simulation.initialPriceA s ->
        Simulation.latestPriceB s = Simulation.initialPriceB s ->
        Calc.isInRange (Engine.calculations s2) = true).
Proof.
  intros Hpos Hpl Hpu.
  rewrite initialPriceRatio_exact in Hpos |- *. apply xr_ltb_iff in Hpos.
  destruct s; cbn in Hpos |- *.
  destruct (Rlt_dec 0 initialPriceB) as [HB|HB]; [|lra].
  assert (Hlo : (0 < initialPriceA / initialPriceB * (1 - pl / 100)
                 <= initialPriceA / initialPriceB)%R) by (split; nra).
  assert (Hup : (initialPriceA / initialPriceB
                 <= initialPriceA / initialPriceB * (1 + pu / 100))%R)
    by nra.
  unfold Engine.handleInputChange, Engine.initialPriceRatio, exact,
    isNaN, zero, one.
  cbn. xr_cases.
  all: eexists _, _, _; repeat split; try reflexivity; try lra.
  all: intros; subst; try reflexivity; exfalso; lra.
Qed.

(** 20 percent on both sides of the scenario's deposit. *)
Lemma percentages_bracket_ratio_witness :
  let s1 :=
    App.spread (exact Scenario.depositR)
      (snd (Engine.handleInputChange pctLower (Xreal 20)
              (exact Scenario.depositR))) in
  let s2 :=
    App.spread s1 (snd (Engine.handleInputChange pctUpper (Xreal 20) s1)) in
  exists r lower upper : R,
    Engine.initialPriceRatio (exact Scenario.depositR) = Xreal r
    /\ Simulation.lowerPriceBound s2 = Xreal lower
    /\ Simulation.upperPriceBound s2 = Xreal upper
    /\ (0 < lower <= r)%R /\ (r <= upper)%R
    /\ (Simulation.latestPriceA Scenario.depositR
        = Simulation.initialPriceA Scenario.depositR ->
        Simulation.latestPriceB Scenario.depositR
        = Simulation.initialPriceB Scenario.depositR ->
        Calc.isInRange (Engine.calculations s2) = true).
Proof.
  apply (@percentages_bracket_ratio Scenario.depositR 20 20).
  - rewrite initialPriceRatio_exact. apply xr_ltb_true.
    cbn. destruct (Rlt_dec 0 1); lra.
  - lra.
  - lra.
Defined.

(** ** The snapshot in exact arithmetic: its accounts *)

Section SnapshotAccounts.
Local Open Scope R_scope.
Variable s : Simulation.t R.
Local Abbreviation c := (Engine.calculations (exact s)).

(** The numbers of the snapshot are reals, tied by the sums and differences
    that [calculations] computes. *)
Lemma calculations_reals :
  exists inv fees hold final short fund : R,
    Calc.initialInvestment c = Xreal inv
    /\ Calc.earnedFees c = Xreal fees
    /\ Calc.holdValue c = Xreal hold
    /\ Calc.finalLpValue c = Xreal final
    /\ Calc.shortPnl c = Xreal short
    /\ Calc.fundingPnl c = Xreal fund
    /\ Calc.impermanentLoss c = Xreal (final - hold)
    /\ Calc.lpNetReturn c = Xreal (final + fees - inv)
    /\ Calc.totalNetReturn c = Xreal (final + fees - inv + short + fund)
    /\ Calc.finalTotalValue c
       = Xreal (inv + (final + fees - inv + short + fund)).
Proof.
  destruct (finite_inv _ (finite_initialInvestment s)) as [inv Hinv].
  destruct (finite_inv _ (finite_earnedFees s)) as [fees Hfees].
  destruct (finite_inv _ (finite_holdValue s)) as [hold Hhold].
  destruct (finite_inv _ (finite_finalLpValue s)) as [final Hfinal].
  destruct (finite_inv _ (finite_shortPnl s)) as [short Hshort].
  destruct (finite_inv _ (finite_fundingPnl s)) as [fund Hfund].
  exists inv, fees, hold, final, short, fund.
  assert (Hloss : Calc.impermanentLoss c = Xreal (final - hold)).
  { change (Calc.impermanentLoss c)
      with (Calc.finalLpValue c - Calc.holdValue c)%js.
    now rewrite Hfinal, Hhold. }
  assert (Hlp : Calc.lpNetReturn c = Xreal (final + fees - inv)).
  { change (Calc.lpNetReturn c)
      with (Calc.finalLpValue c + Calc.earnedFees c
            - Calc.initialInvestment c)%js.
    now rewrite Hfinal, Hfees, Hinv. }
  assert (Htot : Calc.totalNetReturn c
                 = Xreal (final + fees - inv + short + fund)).
  { change (Calc.totalNetReturn c)
      with (Calc.lpNetReturn c + Calc.shortPnl c + Calc.fundingPnl c)%js.
    now rewrite Hlp, Hshort, Hfund. }
  repeat split; trivial.
  change (Calc.finalTotalValue c)
    with (Calc.initialInvestment c + Calc.totalNetReturn c)%js.
  now rewrite Hinv, Htot.
Qed.

Lemma finalTotalValue_sum :
  Calc.finalTotalValue c
  = (Calc.finalLpValue c + Calc.earnedFees c + Calc.shortPnl c
     + Calc.fundingPnl c)%js.
Proof.
  destruct calculations_reals
    as (inv & fees & hold & final & short & fund & Hinv & Hfees & Hhold
        & Hfinal & Hshort & Hfund & Hloss & Hlp & Htot & Hftv).
  rewrite Hftv, Hfees, Hfinal, Hshort, Hfund.
  cbn. f_equal. ring.
Qed.

(** X11.  In exact arithmetic the final total value of the snapshot is the
    final LP value plus the earned fees, the short P&L and the funding P&L,
    and the total net return is the final total value less the initial
    investment. *)
Theorem final_total_value_accounts :
  Calc.finalTotalValue c
  = (Calc.finalLpValue c + Calc.earnedFees c + Calc.shortPnl c
     + Calc.fundingPnl c)%js
  /\ Calc.totalNetReturn c
     = (Calc.finalTotalValue c - Calc.initialInvestment c)%js
  /\ Calc.lpNetReturn c
     = (Calc.impermanentLoss c + Calc.earnedFees c
        + (Calc.holdValue c - Calc.initialInvestment c))%js.
Proof.
  destruct calculations_reals
    as (inv & fees & hold & final & short & fund & Hinv & Hfees & Hhold
        & Hfinal & Hshort & Hfund & Hloss & Hlp & Htot & Hftv).
  rewrite Hftv, Htot, Hlp, Hloss, Hinv, Hfees, Hhold, Hfinal, Hshort, Hfund.
  cbn. repeat split; f_equal; ring.
Qed.
End SnapshotAccounts.

Section LossBounds.
Local Open Scope R_scope.

(** The loss factor written with [r = sqrt k]. *)
Lemma lossFactor_square (r : R) :
  0 < r ->
  2 * r / (1 + r * r) - 1 = - ((1 - r) * (1 - r)) / (1 + r * r)
  /\ -1 < 2 * r / (1 + r * r) - 1 <= 0.
Proof.
  intros Hr.
  assert (Hden : 0 < 1 + r * r) by nra.
  assert (Heq : 2 * r / (1 + r * r) - 1
                = - ((1 - r) * (1 - r)) / (1 + r * r)).
  { field. lra. }
  assert (Hquot : 0 < 2 * r / (1 + r * r)).
  { apply Rdiv_lt_0_compat; lra. }
  split; [exact Heq|]. split; [lra|].
  rewrite Heq. unfold Rdiv.
  assert (0 <= (1 - r) * (1 - r) * / (1 + r * r)).
  { apply Rmult_le_pos; [apply (Rle_0_sqr (1 - r))|].
    left. now apply Rinv_0_lt_compat. }
  lra.
Qed.

Lemma lossFactor_range (k : R) :
  0 < k ->
  exists f : R,
    Engine.impermanentLossFactor (Xreal k) = Xreal f /\ -1 < f <= 0.
Proof.
  intros Hk. rewrite impermanentLossFactor_exact by assumption.
  eexists. split; [reflexivity|].
  assert (Hr : 0 < sqrt k) by now apply sqrt_lt_R0.
  assert (Hrr : sqrt k * sqrt k = k) by (apply sqrt_sqrt; lra).
  destruct (lossFactor_square Hr) as [_ Hrange].
  rewrite Hrr in Hrange. exact Hrange.
Qed.

(** X12.  For every real ratio change [k > 0] the loss factor is a real in
    [(-1, 0]], and it is 0 only at [k = 1]. *)
Theorem impermanentLossFactor_bounds (k : R) :
  0 < k ->
  exists f : R,
    Engine.impermanentLossFactor (Xreal k) = Xreal f
    /\ -1 < f <= 0
    /\ (f = 0 <-> k = 1).
Proof.
  intros Hk. rewrite impermanentLossFactor_exact by assumption.
  eexists. split; [reflexivity|].
  assert (Hr : 0 < sqrt k) by now apply sqrt_lt_R0.
  assert (Hrr : sqrt k * sqrt k = k) by (apply sqrt_sqrt; lra).
  remember (sqrt k) as r eqn:Er. clear Er. subst k.
  destruct (lossFactor_square Hr) as [Heq Hrange].
  assert (Hden : 0 < 1 + r * r) by nra.
  split; [exact Hrange|split].
  - intros Hf. rewrite Heq in Hf.
    assert (Hsq : (1 - r) * (1 - r) = 0).
    { apply Rmult_eq_reg_r with (r := / (1 + r * r)).
      - unfold Rdiv in Hf. lra.
      - apply Rinv_neq_0_compat. lra. }
    assert (r = 1) by nra. subst r. ring.
  - intros Hone. assert (r = 1) by nra. subst r. field.
Qed.

(** X13.  When the hold value of a position is not negative, the final LP
    value of the snapshot lies between 0 and the hold value, the impermanent
    loss is not positive and its percentage lies in [(-100, 0]], in exact
    arithmetic. *)
Theorem impermanent_loss_never_gain (s : Simulation.t R) (hold : R) :
  Calc.holdValue (Engine.calculations (exact s)) = Xreal hold ->
  0 <= hold ->
  exists final loss pct : R,
    Calc.finalLpValue (Engine.calculations (exact s)) = Xreal final
    /\ Calc.impermanentLoss (Engine.calculations (exact s)) = Xreal loss
    /\ Calc.impermanentLossPct (Engine.calculations (exact s)) = Xreal pct
    /\ 0 <= final <= hold
    /\ loss <= 0
    /\ -100 < pct <= 0.
Proof.
  intros Hhold Hpos.
  assert (Hfinal : exists final,
             Calc.finalLpValue (Engine.calculations (exact s)) = Xreal final
             /\ 0 <= final <= hold /\ (0 < hold -> 0 < final)).
  { rewrite calculations_finalLpValue, <- calculations_holdValue, Hhold.
    destruct (Spec.lossModelled (exact s)) eqn:Hm.
    - unfold Spec.lossModelled in Hm.
      apply andb_prop in Hm as [Hm _]. apply andb_prop in Hm as [Hi Hl].
      pose proof (positive_quotient _ _ Hl Hi) as Hk.
      apply positive_inv in Hk as (k & Hk & Hkpos).
      rewrite ilFactor_agrees, Hk.
      destruct (lossFactor_range Hkpos) as (f & -> & Hf).
      eexists. split; [reflexivity|]. split; [split|]; intros; nra.
    - exists hold. split; [reflexivity|]. lra. }
  destruct Hfinal as (final & Hfinal & Hrange & Hstrict).
  exists final, (final - hold).
  assert (Hloss : Calc.impermanentLoss (Engine.calculations (exact s))
                  = Xreal (final - hold)).
  { change (Calc.impermanentLoss (Engine.calculations (exact s)))
      with (Calc.finalLpValue (Engine.calculations (exact s))
            - Calc.holdValue (Engine.calculations (exact s)))%js.
    now rewrite Hfinal, Hhold. }
  change (Calc.impermanentLossPct (Engine.calculations (exact s)))
    with (if (Calc.holdValue (Engine.calculations (exact s)) >? zero)%js
          then (Calc.impermanentLoss (Engine.calculations (exact s))
                / Calc.holdValue (Engine.calculations (exact s))
                * of_Z 100)%js
          else zero).
  rewrite Hloss, Hhold.
  destruct (Xreal hold >? zero)%js eqn:Hh.
  - apply xr_ltb_iff in Hh. rewrite xr_div by lra.
    exists ((final - hold) / hold * 100).
    assert (Hlow : -1 < (final - hold) / hold).
    { apply Rmult_lt_reg_r with (r := hold); [assumption|].
      replace ((final - hold) / hold * hold) with (final - hold)
        by (field; lra).
      specialize (Hstrict Hh). lra. }
    assert (Hhigh : (final - hold) / hold <= 0).
    { apply Rmult_le_reg_r with (r := hold); [assumption|].
      replace ((final - hold) / hold * hold) with (final - hold)
        by (field; lra).
      lra. }
    repeat split; trivial; lra.
  - exists 0. repeat split; trivial; lra.
Qed.
End LossBounds.

(** The loss factor at [k = 4]. *)
Lemma impermanentLossFactor_bounds_witness :
  exists f : R,
    Engine.impermanentLossFactor (Xreal 4) = Xreal f
    /\ (-1 < f <= 0)%R
    /\ (f = 0%R <-> 4%R = 1%R).
Proof. apply (@impermanentLossFactor_bounds 4). lra. Defined.

(** The hedged scenario holds 2850. *)
Lemma impermanent_loss_never_gain_witness :
  exists final loss pct : R,
    Calc.finalLpValue (Engine.calculations (exact Scenario.hedgedR))
    = Xreal final
    /\ Calc.impermanentLoss (Engine.calculations (exact Scenario.hedgedR))
       = Xreal loss
    /\ Calc.impermanentLossPct (Engine.calculations (exact Scenario.hedgedR))
       = Xreal pct
    /\ (0 <= final <= 1 / 2 * 2700 + 1500 * 1)%R
    /\ (loss <= 0)%R
    /\ (-100 < pct <= 0)%R.
Proof.
  apply (@impermanent_loss_never_gain Scenario.hedgedR
           (1 / 2 * 2700 + 1500 * 1)).
  - reflexivity.
  - lra.
Defined.

(** ** The hedge *)

Section HedgeGeneric.
Context {T : Type} `{Num T}.

(** X14.  Switching the hedge off keeps the short size and gives a snapshot
    with no short P&L and no funding P&L.  Two clicks on the hedging toggle
    restore the hedging state, but not the short size: whatever it was, it
    is afterwards the initial value of the shorted token's amount. *)
Theorem hedge_toggle (s : Simulation.t T) :
  let off := App.spread s (Card.handleHedgeToggle false s) in
  let once := App.spread s (Card.toggleHedge s) in
  let twice := App.spread once (Card.toggleHedge once) in
  let tokenValue :=
    if ShortToken_eqb (Simulation.shortToken s) TokenA
    then (nullish (Simulation.amountA s) zero
          * Simulation.initialPriceA s)%js
    else (nullish (Simulation.amountB s) zero
          * Simulation.initialPriceB s)%js in
  Simulation.shortAmount off = Simulation.shortAmount s
  /\ Calc.shortPnl (Engine.calculations off) = zero
  /\ Calc.fundingPnl (Engine.calculations off) = zero
  /\ twice
     = App.spread s
         (Patch.hedge (Engine.truthy (Simulation.isHedgeEnabled s))
            (Some tokenValue)).
Proof.
  destruct s as [i p ta tb ii aa ab ap du lo up sd pa pb la lb tv vf he sa
                   fr st].
  cbn. repeat split.
  destruct he as [[|]|]; reflexivity.
Qed.
End HedgeGeneric.

Section HedgeExact.
Local Open Scope R_scope.

(** X15.  A short sized by [handleHedgeToggle] or [handleShortTokenChange]
    offsets the shorted token in the hold value: with positive initial
    prices and in exact arithmetic, hold value plus short P&L is the value
    of the shorted token's amount at its initial price plus the value of the
    other token's amount at its latest price. *)
Theorem sized_short_offsets_token (s : Simulation.t R) :
  0 < Simulation.initialPriceA s ->
  0 < Simulation.initialPriceB s ->
  let a := nullish (Simulation.amountA s) 0 in
  let b := nullish (Simulation.amountB s) 0 in
  let enabled := App.spread (exact s) (Card.handleHedgeToggle true (exact s)) in
  let hedged token :=
    Engine.calculations
      (App.spread enabled (Card.handleShortTokenChange token enabled)) in
  (Calc.holdValue (hedged TokenA) + Calc.shortPnl (hedged TokenA))%js
  = Xreal (a * Simulation.initialPriceA s + b * Simulation.latestPriceB s)
  /\ (Calc.holdValue (hedged TokenB) + Calc.shortPnl (hedged TokenB))%js
     = Xreal (a * Simulation.latestPriceA s + b * Simulation.initialPriceB s)
  /\ (Calc.holdValue (Engine.calculations enabled)
      + Calc.shortPnl (Engine.calculations enabled))%js
     = match Simulation.shortToken s with
       | TokenA =>
           Xreal (a * Simulation.initialPriceA s
                  + b * Simulation.latestPriceB s)
       | TokenB =>
           Xreal (a * Simulation.latestPriceA s
                  + b * Simulation.initialPriceB s)
       end.
Proof.
  intros HA HB.
  destruct s as [i p ta tb ii aa ab ap du lo up sd pa pb la lb tv vf he sa
                   fr st].
  cbn in HA, HB.
  unfold Card.handleHedgeToggle, Card.handleShortTokenChange, exact.
  destruct aa as [a|], ab as [b|], st; cbn;
    unfold zero, one; cbn; xr_cases;
    repeat split; f_equal; field; lra.
Qed.

(** X16.  Earned fees and funding P&L are additive in the duration typed in
    the duration field, and earned fees are additive in the APR typed in the
    APR field, in exact arithmetic. *)
Theorem fees_and_funding_additive (s : Simulation.t R) (x y : R) :
  let lasting d :=
    Engine.calculations
      (App.spread (exact s)
         (Card.handleNumericChange Card.duration false (Xreal d))) in
  let yielding r :=
    Engine.calculations
      (App.spread (exact s)
         (Card.handleNumericChange Card.apr false (Xreal r))) in
  Calc.earnedFees (lasting (x + y))
  = (Calc.earnedFees (lasting x) + Calc.earnedFees (lasting y))%js
  /\ Calc.fundingPnl (lasting (x + y))
     = (Calc.fundingPnl (lasting x) + Calc.fundingPnl (lasting y))%js
  /\ Calc.earnedFees (yielding (x + y))
     = (Calc.earnedFees (yielding x) + Calc.earnedFees (yielding y))%js.
Proof.
  destruct s as [i p ta tb ii aa ab ap du lo up sd pa pb la lb tv vf he sa
                   fr st].
  unfold Card.handleNumericChange, isNaN, exact. cbn.
  destruct (Rle_dec x x) as [_|?]; [|lra].
  destruct (Rle_dec y y) as [_|?]; [|lra].
  destruct (Rle_dec (x + y) (x + y)) as [_|?]; [|lra].
  cbn.
  destruct aa as [a|], ab as [b|], he as [[|]|]; cbn;
    unfold zero, one; cbn; xr_cases;
    repeat split; f_equal; field.
Qed.
End HedgeExact.

(** The hedged scenario, short resized. *)
Lemma sized_short_offsets_token_witness :
  let s := Scenario.hedgedR in
  let a := nullish (Simulation.amountA s) 0%R in
  let b := nullish (Simulation.amountB s) 0%R in
  let enabled := App.spread (exact s) (Card.handleHedgeToggle true (exact s)) in
  let hedged token :=
    Engine.calculations
      (App.spread enabled (Card.handleShortTokenChange token enabled)) in
  (Calc.holdValue (hedged TokenA) + Calc.shortPnl (hedged TokenA))%js
  = Xreal (a * Simulation.initialPriceA s + b * Simulation.latestPriceB s)
  /\ (Calc.holdValue (hedged TokenB) + Calc.shortPnl (hedged TokenB))%js
     = Xreal (a * Simulation.latestPriceA s + b * Simulation.initialPriceB s)
  /\ (Calc.holdValue (Engine.calculations enabled)
      + Calc.shortPnl (Engine.calculations enabled))%js
     = match Simulation.shortToken s with
       | TokenA =>
           Xreal (a * Simulation.initialPriceA s
                  + b * Simulation.latestPriceB s)
       | TokenB =>
           Xreal (a * Simulation.latestPriceA s
                  + b * Simulation.initialPriceB s)
       end.
Proof.
  apply (@sized_short_offsets_token Scenario.hedgedR); cbn; lra.
Defined.

Section PriceUpdate.
Context {T : Type} `{Num T}.

End PriceUpdate.

(** ** The two ends of the projection *)

Section Startpoint.
Local Open Scope R_scope.
Variable s : Simulation.t R.
Variables a b : R.
Hypothesis duration_pos : 0 < Simulation.duration s.
Hypothesis initialPriceB_pos : 0 < Simulation.initialPriceB s.

Local Abbreviation invested :=
  (a * Simulation.initialPriceA s + b * Simulation.initialPriceB s).
Local Abbreviation startDay :=
  (Engine.chartDay (exact s) (Xreal a) (Xreal b) (Xreal invested) (Xreal 0)).

Lemma start_currentPriceA :
  Day.currentPriceA startDay = Xreal (Simulation.initialPriceA s).
Proof. destruct s; cbn in *. xr_solve. Qed.

Lemma start_currentPriceB :
  Day.currentPriceB startDay = Xreal (Simulation.initialPriceB s).
Proof. destruct s; cbn in *. xr_solve. Qed.

Lemma start_holdValue : Day.holdValue startDay = Xreal invested.
Proof.
  change (Day.holdValue startDay)
    with (Xreal a * Day.currentPriceA startDay
          + Xreal b * Day.currentPriceB startDay)%js.
  now rewrite start_currentPriceA, start_currentPriceB.
Qed.

Lemma start_earnedFees : Day.earnedFees startDay = Xreal 0.
Proof. destruct s; cbn in *. xr_solve. Qed.

Lemma start_fundingPnl : Day.fundingPnl startDay = Xreal 0.
Proof.
  destruct s; cbn in *. destruct (Engine.truthy _); xr_solve.
Qed.

Lemma start_shortPnl : Day.shortPnl startDay = Xreal 0.
Proof.
  change (Day.shortPnl startDay)
    with (if Engine.truthy (Simulation.isHedgeEnabled s) then
            if ShortToken_eqb (Simulation.shortToken s) TokenA
            then (if (Xreal (Simulation.initialPriceA s) >? zero)%js
                  then (Xreal (Simulation.shortAmount s)
                        * (one - Day.currentPriceA startDay
                                 / Xreal (Simulation.initialPriceA s)))%js
                  else zero)
            else (if (Xreal (Simulation.initialPriceB s) >? zero)%js
                  then (Xreal (Simulation.shortAmount s)
                        * (one - Day.currentPriceB startDay
                                 / Xreal (Simulation.initialPriceB s)))%js
                  else zero)
          else zero).
  rewrite start_currentPriceA, start_currentPriceB.
  destruct (Engine.truthy _); [|reflexivity].
  destruct (ShortToken_eqb _ _); xr_solve.
Qed.

Lemma start_lpValue : Day.lpValue startDay = Xreal invested.
Proof.
  change (Day.lpValue startDay)
    with (if (Engine.initialPriceRatio (exact s) >? zero)%js
             && (Day.currentPriceRatio startDay >? zero)%js
          then
            if (Day.currentPriceRatio startDay
                / Engine.initialPriceRatio (exact s) >? zero)%js
            then (Day.holdValue startDay
                  * (one
                     + Engine.impermanentLossFactor
                         (Day.currentPriceRatio startDay
                          / Engine.initialPriceRatio (exact s))))%js
            else Day.holdValue startDay
          else Day.holdValue startDay).
  change (Day.currentPriceRatio startDay)
    with (if (Day.currentPriceB startDay >? zero)%js
          then (Day.currentPriceA startDay / Day.currentPriceB startDay)%js
          else zero).
  rewrite start_holdValue, start_currentPriceA, start_currentPriceB.
  change (if (Xreal (Simulation.initialPriceB s) >? zero)%js
          then (Xreal (Simulation.initialPriceA s)
                / Xreal (Simulation.initialPriceB s))%js
          else zero)
    with (Engine.initialPriceRatio (exact s)).
  destruct (_ && _) eqn:Hpos; [|reflexivity].
  apply andb_prop in Hpos as [Hpos _].
  apply positive_inv in Hpos as (q & Hq & Hqpos). rewrite Hq.
  rewrite xr_div by lra.
  replace (q / q) with 1 by (field; lra).
  change zero with (Xreal 0). rewrite xr_ltb_true by lra.
  rewrite impermanentLossFactor_exact by lra.
  rewrite sqrt_1. cbn. f_equal. field.
Qed.

Lemma start_totalValue : Day.totalValue startDay = Xreal invested.
Proof.
  change (Day.totalValue startDay)
    with (Day.lpValue startDay + Day.earnedFees startDay
          + Day.shortPnl startDay + Day.fundingPnl startDay)%js.
  rewrite start_lpValue, start_earnedFees, start_shortPnl, start_fundingPnl.
  cbn. f_equal. ring.
Qed.
End Startpoint.

Section EndpointTotal.
Local Open Scope R_scope.
Variable s : Simulation.t R.
Variables a b : R.
Hypothesis amountA_set : Simulation.amountA s = Some a.
Hypothesis amountB_set : Simulation.amountB s = Some b.
Hypothesis duration_pos : 0 < Simulation.duration s.
Hypothesis initialPriceB_pos : 0 < Simulation.initialPriceB s.
Hypothesis range_valid :
  Simulation.lowerPriceBound s < Simulation.upperPriceBound s.

Local Abbreviation invested :=
  (a * Simulation.initialPriceA s + b * Simulation.initialPriceB s).
Local Abbreviation endDay :=
  (Engine.chartDay (exact s) (Xreal a) (Xreal b) (Xreal invested)
     (Xreal (Simulation.duration s))).

Lemma end_currentPriceA :
  Day.currentPriceA endDay = Xreal (Simulation.latestPriceA s).
Proof. clear amountA_set amountB_set. destruct s; cbn in *. xr_solve. Qed.

Lemma end_currentPriceB :
  Day.currentPriceB endDay = Xreal (Simulation.latestPriceB s).
Proof. clear amountA_set amountB_set. destruct s; cbn in *. xr_solve. Qed.

Lemma endpoint_lpValue :
  Day.lpValue endDay = Calc.finalLpValue (Engine.calculations (exact s)).
Proof.
  change (Day.lpValue endDay)
    with (if (Engine.initialPriceRatio (exact s) >? zero)%js
             && (Day.currentPriceRatio endDay >? zero)%js
          then
            if (Day.currentPriceRatio endDay
                / Engine.initialPriceRatio (exact s) >? zero)%js
            then (Day.holdValue endDay
                  * (one
                     + Engine.impermanentLossFactor
                         (Day.currentPriceRatio endDay
                          / Engine.initialPriceRatio (exact s))))%js
            else Day.holdValue endDay
          else Day.holdValue endDay).
  change (Day.currentPriceRatio endDay)
    with (if (Day.currentPriceB endDay >? zero)%js
          then (Day.currentPriceA endDay / Day.currentPriceB endDay)%js
          else zero).
  rewrite end_currentPriceA, end_currentPriceB.
  change (if (Xreal (Simulation.latestPriceB s) >? zero)%js
          then (Xreal (Simulation.latestPriceA s)
                / Xreal (Simulation.latestPriceB s))%js
          else zero)
    with (Spec.latestRatio (exact s)).
  change (Engine.initialPriceRatio (exact s))
    with (Spec.initialRatio (exact s)).
  rewrite endpoint_holdValue by assumption.
  rewrite calculations_finalLpValue, calculations_holdValue.
  unfold Spec.lossModelled.
  change (Simulation.lowerPriceBound (exact s) <? Simulation.upperPriceBound (exact s))%js
    with (Xreal (Simulation.lowerPriceBound s)
          <? Xreal (Simulation.upperPriceBound s))%js.
  rewrite (xr_ltb_true range_valid), andb_true_r.
  destruct (zero <? Spec.initialRatio (exact s))%js eqn:Hi;
    [|reflexivity].
  destruct (zero <? Spec.latestRatio (exact s))%js eqn:Hl;
    [|reflexivity].
  cbn [andb]. rewrite (positive_quotient _ _ Hl Hi).
  reflexivity.
Qed.

Lemma endpoint_totalValue :
  Day.totalValue endDay
  = Calc.finalTotalValue (Engine.calculations (exact s)).
Proof.
  change (Day.totalValue endDay)
    with (Day.lpValue endDay + Day.earnedFees endDay
          + Day.shortPnl endDay + Day.fundingPnl endDay)%js.
  rewrite endpoint_lpValue.
  rewrite endpoint_earnedFees, endpoint_shortPnl, endpoint_fundingPnl
    by assumption.
  symmetry. apply finalTotalValue_sum.
Qed.
End EndpointTotal.

Lemma initialInvestment_exact (s : Simulation.t R) (a b : R) :
  Simulation.amountA s = Some a ->
  Simulation.amountB s = Some b ->
  Calc.initialInvestment (Engine.calculations (exact s))
  = Xreal (a * Simulation.initialPriceA s + b * Simulation.initialPriceB s).
Proof. intros Ha Hb. destruct s; cbn in *. subst. reflexivity. Qed.

(** X18.  For a position with real fields that passes the guard of the
    projection, lasts a whole number of days and has a positive initial
    price of token B, the projection computed in exact arithmetic starts
    with the point of day 0, whose total value and hold value are the
    initial investment of the snapshot and whose earned fees are 0. *)
Theorem projection_starts_at_investment (s : Simulation.t R) (n : nat)
    (a b : R) (fuel : nat) :
  (0 < n)%nat ->
  Simulation.duration s = INR n ->
  Simulation.amountA s = Some a -> a <> 0%R ->
  Simulation.amountB s = Some b -> b <> 0%R ->
  (0 < Simulation.initialPriceB s)%R ->
  (n + 2 <= fuel)%nat ->
  exists (p : Point.t xreal) (rest : list (Point.t xreal)),
    Engine.chartData fuel (exact s) = Some (p :: rest)
    /\ Point.day p = Xreal 0
    /\ Point.totalValue p
       = Calc.initialInvestment (Engine.calculations (exact s))
    /\ Point.holdValue p
       = Calc.initialInvestment (Engine.calculations (exact s))
    /\ Point.earnedFees p = Xreal 0.
Proof.
  intros Hn Hd Ha Ha0 Hb Hb0 HiB Hfuel.
  assert (Hpos : (0 < Simulation.duration s)%R).
  { rewrite Hd. apply lt_0_INR. lia. }
  rewrite (initialInvestment_exact s Ha Hb).
  rewrite (chartData_exact s (n := n) (a := a) (b := b)) by assumption.
  cbn [seq List.map]. eexists _, _. split; [reflexivity|].
  unfold pointAt.
  cbn [Engine.dataPoint Point.day Point.totalValue Point.holdValue
         Point.earnedFees INR].
  split; [reflexivity|]. split; [|split].
  - now apply start_totalValue.
  - now apply start_holdValue.
  - now apply start_earnedFees.
Qed.

(** X19.  If moreover the upper bound is above the lower bound, the
    projection ends with the point of day [duration], whose total value is
    the final total value of the snapshot. *)
Theorem projection_ends_at_final_total (s : Simulation.t R) (n : nat)
    (a b : R) (fuel : nat) :
  (0 < n)%nat ->
  Simulation.duration s = INR n ->
  Simulation.amountA s = Some a -> a <> 0%R ->
  Simulation.amountB s = Some b -> b <> 0%R ->
  (0 < Simulation.initialPriceB s)%R ->
  (Simulation.lowerPriceBound s < Simulation.upperPriceBound s)%R ->
  (n + 2 <= fuel)%nat ->
  exists (front : list (Point.t xreal)) (p : Point.t xreal),
    Engine.chartData fuel (exact s) = Some (front ++ [p])
    /\ Point.day p = Simulation.duration (exact s)
    /\ Point.totalValue p
       = Calc.finalTotalValue (Engine.calculations (exact s)).
Proof.
  intros Hn Hd Ha Ha0 Hb Hb0 HiB Hrange Hfuel.
  assert (Hpos : (0 < Simulation.duration s)%R).
  { rewrite Hd. apply lt_0_INR. lia. }
  rewrite (chartData_exact s (n := n) (a := a) (b := b)) by assumption.
  rewrite seq_S, map_app. cbn [List.map Nat.add].
  eexists _, _. split; [reflexivity|].
  unfold pointAt. rewrite <- Hd.
  cbn [Engine.dataPoint Point.day Point.totalValue].
  split; [reflexivity|].
  now apply endpoint_totalValue.
Qed.

(** The first point of the hedged scenario. *)
Lemma projection_starts_at_investment_witness :
  exists (p : Point.t xreal) (rest : list (Point.t xreal)),
    Engine.chartData 32 (exact Scenario.hedgedR) = Some (p :: rest)
    /\ Point.day p = Xreal 0
    /\ Point.totalValue p
       = Calc.initialInvestment (Engine.calculations (exact Scenario.hedgedR))
    /\ Point.holdValue p
       = Calc.initialInvestment (Engine.calculations (exact Scenario.hedgedR))
    /\ Point.earnedFees p = Xreal 0.
Proof.
  apply (@projection_starts_at_investment Scenario.hedgedR 30 (1 / 2) 1500
           32).
  - lia.
  - reflexivity.
  - reflexivity.
  - lra.
  - reflexivity.
  - lra.
  - cbn. lra.
  - lia.
Defined.

(** The last point of the hedged scenario. *)
Lemma projection_ends_at_final_total_witness :
  exists (front : list (Point.t xreal)) (p : Point.t xreal),
    Engine.chartData 32 (exact Scenario.hedgedR) = Some (front ++ [p])
    /\ Point.day p = Simulation.duration (exact Scenario.hedgedR)
    /\ Point.totalValue p
       = Calc.finalTotalValue (Engine.calculations (exact Scenario.hedgedR)).
Proof.
  apply (@projection_ends_at_final_total Scenario.hedgedR 30 (1 / 2) 1500
           32).
  - lia.
  - reflexivity.
  - reflexivity.
  - lra.
  - reflexivity.
  - lra.
  - cbn. lra.
  - cbn. lra.
  - lia.
Defined.

(** ** The price range bar *)

Section RangeBar.
Local Open Scope R_scope.

Lemma PriceRangeBar_exact (min max current : R) (inRange : bool) :
  Card.PriceRangeBar (PriceRange.mk (Xreal min) (Xreal max) (Xreal current)
                                    inRange)
  = if Rle_dec (max - min) 0 then None
    else
      let position := (current - min) / (max - min) * 100 in
      Some (Xreal position,
            Xreal (if Rlt_dec position 0 then 0
                   else if Rlt_dec 100 position then 100 else position)).
Proof.
  unfold Card.PriceRangeBar, Card.Math_max, isNaN, zero, one. cbn.
  destruct (Rle_dec (max - min) 0) as [Hle|Hgt]; [reflexivity|].
  destruct (Req_dec_T (max - min) 0) as [?|_]; [lra|]. cbn.
  unfold Rmin.
  set (position := (current - min) / (max - min) * 100).
  destruct (Rle_dec 100 position) as [H100|H100]; cbn;
    xr_cases; try reflexivity; do 3 f_equal; lra.
Qed.

(** X20.  The price range bar of a snapshot computed in exact arithmetic:
    with [upperPriceBound <= lowerPriceBound] it is replaced by the
    message; otherwise the marker is drawn at a position between 0 and 100
    percent, which is the relative position of the latest ratio in the range
    exactly when the snapshot is in range, 0 below the range and 100
    above. *)
Theorem price_range_bar_clamped (s : Simulation.t R) :
  let c := Engine.calculations (exact s) in
  (Simulation.upperPriceBound s <= Simulation.lowerPriceBound s ->
   Card.PriceRangeBar (Calc.priceRange c) = None)
  /\ (Simulation.lowerPriceBound s < Simulation.upperPriceBound s ->
      exists ratio position clamped : R,
        PriceRange.current (Calc.priceRange c) = Xreal ratio
        /\ Card.PriceRangeBar (Calc.priceRange c)
           = Some (Xreal position, Xreal clamped)
        /\ position
           = (ratio - Simulation.lowerPriceBound s)
             / (Simulation.upperPriceBound s - Simulation.lowerPriceBound s)
             * 100
        /\ 0 <= clamped <= 100
        /\ (Calc.isInRange c = true <-> clamped = position)
        /\ (ratio < Simulation.lowerPriceBound s -> clamped = 0)
        /\ (Simulation.upperPriceBound s < ratio -> clamped = 100)).
Proof.
  cbn zeta.
  change (Calc.priceRange (Engine.calculations (exact s)))
    with (PriceRange.mk (Xreal (Simulation.lowerPriceBound s))
            (Xreal (Simulation.upperPriceBound s))
            (Spec.latestRatio (exact s))
            (Calc.isInRange (Engine.calculations (exact s)))).
  change (Calc.isInRange (Engine.calculations (exact s)))
    with ((Spec.latestRatio (exact s)
           >=? Xreal (Simulation.lowerPriceBound s))%js
          && (Spec.latestRatio (exact s)
              <=? Xreal (Simulation.upperPriceBound s))%js).
  rewrite latestRatio_exact.
  set (ratio := if Rlt_dec 0 (Simulation.latestPriceB s) then _ else _).
  set (lower := Simulation.lowerPriceBound s).
  set (upper := Simulation.upperPriceBound s).
  rewrite PriceRangeBar_exact.
  split.
  - intros Hinv. destruct (Rle_dec (upper - lower) 0); [reflexivity|lra].
  - intros Hval. destruct (Rle_dec (upper - lower) 0) as [?|_]; [lra|].
    cbn zeta. cbn [PriceRange.current].
    set (position := (ratio - lower) / (upper - lower) * 100).
    assert (Hpos : (ratio - lower) = position / 100 * (upper - lower)).
    { unfold position. field. lra. }
    assert (Hlow : position < 0 <-> ratio < lower).
    { split; intros; nra. }
    assert (Hhigh : 100 < position <-> upper < ratio).
    { split; intros; nra. }
    eexists ratio, position, _.
    split; [reflexivity|]. split; [reflexivity|]. split; [reflexivity|].
    cbn.
    destruct (Rlt_dec position 0) as [Hn|Hn];
      [|destruct (Rlt_dec 100 position) as [Hh|Hh]];
      destruct (Rle_dec lower ratio), (Rle_dec ratio upper); cbn;
      repeat split; intros; try lra; try discriminate;
      try tauto; try (exfalso; tauto).
Qed.
End RangeBar.

(** The hedged scenario: the range is [2400, 3600]. *)
Lemma price_range_bar_clamped_witness :
  exists ratio position clamped : R,
    PriceRange.current
      (Calc.priceRange (Engine.calculations (exact Scenario.hedgedR)))
    = Xreal ratio
    /\ Card.PriceRangeBar
         (Calc.priceRange (Engine.calculations (exact Scenario.hedgedR)))
       = Some (Xreal position, Xreal clamped)
    /\ position = ((ratio - 2400) / (3600 - 2400) * 100)%R
    /\ (0 <= clamped <= 100)%R
    /\ (Calc.isInRange (Engine.calculations (exact Scenario.hedgedR)) = true
        <-> clamped = position)
    /\ ((ratio < 2400)%R -> clamped = 0%R)
    /\ ((3600 < ratio)%R -> clamped = 100%R).
Proof.
  apply (proj2 (price_range_bar_clamped Scenario.hedgedR)).
  cbn. lra.
Defined.

(** ** The chart *)

Section ChartGeneric.
Context {T : Type} `{Num T} `{Rounding T}.

Lemma closestPoint_In (day : T) (rest : list (Point.t T)) :
  forall first : Point.t T,
    In (Chart.closestPoint day first rest) (first :: rest).
Proof.
  unfold Chart.closestPoint.
  induction rest as [|curr rest IH]; intros first; cbn [fold_left].
  - now left.
  - match goal with
    | |- In (fold_left _ _ ?acc) _ => specialize (IH acc)
    end.
    destruct (_ <? _)%js; destruct IH as [<-|IH]; cbn; auto.
Qed.
End ChartGeneric.

Section ChartExact.
Local Open Scope R_scope.

Lemma Math_abs_exact (x : R) : Chart.Math_abs (Xreal x) = Xreal (Rabs x).
Proof.
  unfold Chart.Math_abs, zero. cbn. unfold Rabs.
  destruct (Rlt_dec 0 x), (Rcase_abs x); f_equal; lra.
Qed.

Lemma Math_max_exact (a b : R) :
  Card.Math_max (Xreal a) (Xreal b) = Xreal (Rmax a b).
Proof.
  unfold Card.Math_max, isNaN, zero, one, Rmax. cbn.
  xr_cases; destruct (Rle_dec a b); try reflexivity; f_equal; lra.
Qed.

Lemma minOf_exact (v : R) (vs : list R) :
  Chart.minOf (List.map Xreal (v :: vs)) = Xreal (fold_left Rmin vs v).
Proof.
  cbn. revert v. induction vs as [|w vs IH]; intros v; [reflexivity|].
  cbn. apply IH.
Qed.

Lemma maxOf_exact (v : R) (vs : list R) :
  Chart.maxOf (List.map Xreal (v :: vs)) = Xreal (fold_left Rmax vs v).
Proof.
  cbn. revert v. induction vs as [|w vs IH]; intros v; [reflexivity|].
  cbn [List.map fold_left]. rewrite Math_max_exact. apply IH.
Qed.

Lemma fold_Rmin_spec (vs : list R) :
  forall v,
    In (fold_left Rmin vs v) (v :: vs)
    /\ forall w, In w (v :: vs) -> fold_left Rmin vs v <= w.
Proof.
  induction vs as [|u vs IH]; intros v; cbn [fold_left].
  - split; [now left|]. intros w [<-|[]]. lra.
  - destruct (IH (Rmin v u)) as [Hin Hle]. split.
    + destruct Hin as [Hin|Hin]; [|now right; right].
      rewrite <- Hin. unfold Rmin.
      destruct (Rle_dec v u); [now left | now right; left].
    + intros w [<-|[<-|Hw]].
      * apply Rle_trans with (Rmin v u); [apply Hle; now left|].
        apply Rmin_l.
      * apply Rle_trans with (Rmin v u); [apply Hle; now left|].
        apply Rmin_r.
      * apply Hle. now right.
Qed.

Lemma fold_Rmax_spec (vs : list R) :
  forall v,
    In (fold_left Rmax vs v) (v :: vs)
    /\ forall w, In w (v :: vs) -> w <= fold_left Rmax vs v.
Proof.
  induction vs as [|u vs IH]; intros v; cbn [fold_left].
  - split; [now left|]. intros w [<-|[]]. lra.
  - destruct (IH (Rmax v u)) as [Hin Hle]. split.
    + destruct Hin as [Hin|Hin]; [|now right; right].
      rewrite <- Hin. unfold Rmax.
      destruct (Rle_dec v u); [now right; left | now left].
    + intros w [<-|[<-|Hw]].
      * apply Rle_trans with (Rmax v u); [apply Rmax_l|].
        apply Hle. now left.
      * apply Rle_trans with (Rmax v u); [apply Rmax_r|].
        apply Hle. now left.
      * apply Hle. now right.
Qed.

End ChartExact.

Section ChartExactData.
Local Open Scope R_scope.

Lemma last_map {A B : Type} (f : A -> B) (l : list A) (d : A) :
  List.last (List.map f l) (f d) = f (List.last l d).
Proof.
  induction l as [|a [|b l] IH]; try reflexivity.
  exact IH.
Qed.

Lemma plotted_exact (data : list (Point.t R)) :
  List.map (@Point.totalValue xreal) (List.map exactPoint data)
  ++ List.map (@Point.holdValue xreal) (List.map exactPoint data)
  = List.map Xreal (plottedValues data).
Proof.
  unfold plottedValues. now rewrite map_app, !map_map.
Qed.

Lemma chartData_domain (p : Point.t R) (ps : list (Point.t R)) :
  exists lo hi : Z,
    brackets (p :: ps) lo hi
    /\ Chart.chartData (List.map exactPoint (p :: ps))
       = Some (Chart.Scales.mk
                 (Xreal (Point.day (List.last ps p)))
                 (Xreal (IZR lo * 1000)) (Xreal (IZR hi * 1000))
                 (List.map
                    (fun i =>
                       let value :=
                         (Xreal (IZR lo * 1000)
                          + (of_Z i / of_Z 5)
                            * (Xreal (IZR hi * 1000) - Xreal (IZR lo * 1000)))%js
                       in
                       (value,
                        Chart.yScale (Xreal (IZR lo * 1000))
                                     (Xreal (IZR hi * 1000)) value))
                    [0; 1; 2; 3; 4; 5]%Z)).
Proof.
  set (vs := List.map (@Point.totalValue R) ps
             ++ List.map (@Point.holdValue R) (p :: ps)).
  assert (Hvs : plottedValues (p :: ps) = Point.totalValue p :: vs)
    by reflexivity.
  destruct (fold_Rmin_spec vs (Point.totalValue p)) as [Hmin_in Hmin].
  destruct (fold_Rmax_spec vs (Point.totalValue p)) as [Hmax_in Hmax].
  set (m := fold_left Rmin vs (Point.totalValue p)) in *.
  set (M := fold_left Rmax vs (Point.totalValue p)) in *.
  exists (Int_part (m / 1000)), (- Int_part (- (M / 1000)))%Z.
  split.
  - unfold brackets. rewrite Hvs.
    pose proof (base_Int_part (m / 1000)) as [Hm1 Hm2].
    pose proof (base_Int_part (- (M / 1000))) as [HM1 HM2].
    split; [|split].
    + intros v Hv. specialize (Hmin v Hv). specialize (Hmax v Hv).
      rewrite opp_IZR. lra.
    + exists m. split; [exact Hmin_in|]. rewrite plus_IZR. lra.
    + exists M. split; [exact Hmax_in|]. rewrite minus_IZR, opp_IZR. lra.
  - remember (List.map exactPoint (p :: ps)) as d eqn:Hd.
    destruct d as [|first rest]; [discriminate|].
    unfold Chart.chartData.
    assert (Hfirst : first = exactPoint p) by (cbn in Hd; congruence).
    rewrite Hd. subst first.
    rewrite plotted_exact, Hvs, minOf_exact, maxOf_exact.
    fold m M.
    assert (Hlast : List.last (List.map exactPoint (p :: ps)) (exactPoint p)
                    = exactPoint (List.last ps p)).
    { rewrite last_map. f_equal.
      clear. destruct ps; reflexivity. }
    rewrite Hlast.
    change (of_Z 1000) with (Xreal 1000).
    rewrite !xr_div by lra.
    cbn [Math_floor Math_ceil XRealRounding num_mul XRealNum XR.lift2
         Point.day exactPoint].
    rewrite opp_IZR. reflexivity.
Qed.
End ChartExactData.

Section ChartScales.
Local Open Scope R_scope.

Lemma yScale_exact (lo hi v : R) :
  lo <> hi ->
  Chart.yScale (Xreal lo) (Xreal hi) (Xreal v)
  = Xreal (360 - (v - lo) / (hi - lo) * 340).
Proof.
  intros Hne. unfold Chart.yScale, Chart.HEIGHT, Chart.PADDING_bottom,
    Chart.PADDING_top.
  cbn. destruct (Req_dec_T (hi - lo) 0); [lra|]. cbn. f_equal. field. lra.
Qed.

Lemma yScale_flat (lo : R) (v : xreal) :
  Chart.yScale (Xreal lo) (Xreal lo) v = Xnan.
Proof.
  unfold Chart.yScale. destruct v as [|v]; cbn; [reflexivity|].
  destruct (Req_dec_T (lo - lo) 0); [reflexivity | lra].
Qed.

Lemma xScale_exact (xMax day : R) :
  xMax <> 0 ->
  Chart.xScale (Xreal xMax) (Xreal day) = Xreal (60 + day / xMax * 720).
Proof.
  intros Hne. unfold Chart.xScale, Chart.WIDTH, Chart.PADDING_left,
    Chart.PADDING_right.
  cbn. destruct (Req_dec_T xMax 0); [lra|]. cbn. f_equal. field. lra.
Qed.

Lemma brackets_ordered (data : list (Point.t R)) (lo hi : Z) :
  brackets data lo hi -> IZR lo * 1000 <= IZR hi * 1000.
Proof.
  intros (Hall & (v & Hv & _) & _). specialize (Hall v Hv). lra.
Qed.

Lemma brackets_flat (data : list (Point.t R)) (lo hi k : Z) :
  brackets data lo hi ->
  (forall v, In v (plottedValues data) -> v = 1000 * IZR k) ->
  lo = k /\ hi = k.
Proof.
  intros (Hall & (v & Hv & Hlo) & (w & Hw & Hhi)) Hflat.
  pose proof (Hall v Hv) as Hv'. pose proof (Hall w Hw) as Hw'.
  rewrite (Hflat v Hv) in *. rewrite (Hflat w Hw) in *.
  assert (H1 : (lo <= k)%Z) by (apply le_IZR; lra).
  assert (H2 : (k < lo + 1)%Z) by (apply lt_IZR; lra).
  assert (H3 : (k <= hi)%Z) by (apply le_IZR; lra).
  assert (H4 : (hi - 1 < k)%Z) by (apply lt_IZR; lra).
  lia.
Qed.

Lemma brackets_spread (data : list (Point.t R)) (lo hi : Z) :
  brackets data lo hi ->
  ~ (exists k : Z, forall v, In v (plottedValues data) -> v = 1000 * IZR k) ->
  IZR lo * 1000 < IZR hi * 1000.
Proof.
  intros Hb Hspread.
  pose proof (brackets_ordered Hb) as Hle.
  destruct (Rle_lt_or_eq_dec _ _ Hle) as [Hlt|Heq]; [exact Hlt|].
  exfalso. apply Hspread. exists lo.
  destruct Hb as (Hall & _). intros v Hv. specialize (Hall v Hv). lra.
Qed.

(** The heights of a path when the domain is not a single value. *)
Lemma path_heights (keyR : Point.t R -> R) (key : Point.t xreal -> xreal)
    (p : Point.t R) (ps : list (Point.t R)) :
  (forall q, key (exactPoint q) = Xreal (keyR q)) ->
  (forall q, In q (p :: ps) -> In (keyR q) (plottedValues (p :: ps))) ->
  ~ (exists k : Z,
        forall v, In v (plottedValues (p :: ps)) -> v = 1000 * IZR k) ->
  Forall (fun xy : xreal * xreal =>
            exists y : R, snd xy = Xreal y /\ 20 <= y <= 360)
         (Chart.createPath key (List.map exactPoint (p :: ps))).
Proof.
  intros Hkey Hin Hspread.
  destruct (chartData_domain p ps) as (lo & hi & Hb & Hcd).
  pose proof (brackets_spread Hb Hspread) as Hlt.
  unfold Chart.createPath. rewrite Hcd.
  cbn [Chart.Scales.xMax Chart.Scales.yDomainMin Chart.Scales.yDomainMax].
  rewrite Forall_map, Forall_map. apply Forall_forall. intros q Hq.
  cbn [snd]. rewrite Hkey, yScale_exact by lra.
  eexists; split; [reflexivity|].
  destruct Hb as (Hall & _). specialize (Hall _ (Hin q Hq)).
  set (t := (keyR q - IZR lo * 1000) / (IZR hi * 1000 - IZR lo * 1000)).
  assert (Ht : 0 <= t <= 1).
  { unfold t. split.
    - apply Rmult_le_pos; [lra|]. apply Rlt_le, Rinv_0_lt_compat. lra.
    - apply Rmult_le_reg_r with (IZR hi * 1000 - IZR lo * 1000); [lra|].
      unfold Rdiv. rewrite Rmult_assoc, Rinv_l by lra. lra. }
  lra.
Qed.

(** The heights of a path when the domain is a single value. *)
Lemma path_flat (key : Point.t xreal -> xreal)
    (p : Point.t R) (ps : list (Point.t R)) (k : Z) :
  (forall v, In v (plottedValues (p :: ps)) -> v = 1000 * IZR k) ->
  Forall (fun xy : xreal * xreal => snd xy = Xnan)
         (Chart.createPath key (List.map exactPoint (p :: ps))).
Proof.
  intros Hflat.
  destruct (chartData_domain p ps) as (lo & hi & Hb & Hcd).
  destruct (@brackets_flat _ _ _ k Hb Hflat) as [-> ->].
  unfold Chart.createPath. rewrite Hcd.
  cbn [Chart.Scales.xMax Chart.Scales.yDomainMin Chart.Scales.yDomainMax].
  rewrite Forall_map, Forall_map. apply Forall_forall. intros q _.
  cbn [snd]. apply yScale_flat.
Qed.

(** The point that [reduce] keeps is at the least distance from [t]. *)
Lemma closestPoint_exact (t : R) (ps : list (Point.t R)) :
  forall p : Point.t R,
    exists c : Point.t R,
      Chart.closestPoint (Xreal t) (exactPoint p) (List.map exactPoint ps)
      = exactPoint c
      /\ In c (p :: ps)
      /\ forall q, In q (p :: ps) ->
           Rabs (Point.day c - t) <= Rabs (Point.day q - t).
Proof.
  unfold Chart.closestPoint.
  induction ps as [|u ps IH]; intros p; cbn [List.map fold_left].
  - exists p. split; [reflexivity|]. split; [now left|].
    intros q [<-|[]]. lra.
  - cbn [Point.day exactPoint num_sub XRealNum XR.lift2].
    rewrite !Math_abs_exact.
    destruct (Rlt_dec (Rabs (Point.day u - t)) (Rabs (Point.day p - t)))
      as [Hlt|Hge].
    + rewrite xr_ltb_true by exact Hlt.
      destruct (IH u) as (c & Hc & Hin & Hmin).
      exists c. split; [exact Hc|]. split.
      * destruct Hin as [<-|Hin]; [now right; left | now right; right].
      * intros q [<-|[<-|Hq]].
        -- pose proof (Hmin u (or_introl eq_refl)). lra.
        -- apply Hmin. now left.
        -- apply Hmin. now right.
    + rewrite xr_ltb_false by lra.
      destruct (IH p) as (c & Hc & Hin & Hmin).
      exists c. split; [exact Hc|]. split.
      * destruct Hin as [<-|Hin]; [now left | now right; right].
      * intros q [<-|[<-|Hq]].
        -- apply Hmin. now left.
        -- pose proof (Hmin p (or_introl eq_refl)). lra.
        -- apply Hmin. now right.
Qed.

(** The tooltip of a chart whose points have real fields. *)
Lemma handleMouseMove_exact (svgX : R) (p : Point.t R)
    (ps : list (Point.t R)) :
  exists (scales : Chart.Scales.t xreal) (c : Point.t R),
    Chart.chartData (List.map exactPoint (p :: ps)) = Some scales
    /\ Chart.handleMouseMove (Xreal svgX) (List.map exactPoint (p :: ps))
       = Some (Chart.Tooltip.mk
                 (Chart.xScale (Chart.Scales.xMax scales)
                               (Xreal (Point.day c)))
                 (Chart.yScale (Chart.Scales.yDomainMin scales)
                               (Chart.Scales.yDomainMax scales)
                               (Xreal (Point.totalValue c)))
                 (exactPoint c))
    /\ In c (p :: ps)
    /\ forall q, In q (p :: ps) ->
         Rabs (Point.day c - (svgX - 60) / 720 * Point.day (List.last ps p))
         <= Rabs (Point.day q
                  - (svgX - 60) / 720 * Point.day (List.last ps p)).
Proof.
  destruct (chartData_domain p ps) as (lo & hi & Hb & Hcd).
  destruct (closestPoint_exact
              ((svgX - 60) / 720 * Point.day (List.last ps p)) ps p)
    as (c & Hc & Hin & Hmin).
  eexists _, c. split; [exact Hcd|]. split; [|split; assumption].
  unfold Chart.handleMouseMove. rewrite Hcd.
  cbn [List.map].
  change (List.last (exactPoint p :: List.map exactPoint ps) (exactPoint p))
    with (List.last (List.map exactPoint (p :: ps)) (exactPoint p)).
  rewrite last_map.
  replace (List.last (p :: ps) p) with (List.last ps p)
    by (destruct ps; reflexivity).
  replace ((Xreal svgX - Chart.PADDING_left)
           / (Chart.WIDTH - Chart.PADDING_left - Chart.PADDING_right)
           * Point.day (exactPoint (List.last ps p)))%js
    with (Xreal ((svgX - 60) / 720 * Point.day (List.last ps p))).
  - rewrite Hc. reflexivity.
  - unfold Chart.WIDTH, Chart.PADDING_left, Chart.PADDING_right. cbn.
    destruct (Req_dec_T (800 - 60 - 20) 0); [lra|]. cbn. f_equal. field.
Qed.
End ChartScales.

Section ChartTheorems.
Local Open Scope R_scope.

Lemma label_height (lo hi : R) (i : Z) :
  lo < hi ->
  Chart.yScale (Xreal lo) (Xreal hi)
    (Xreal lo + (of_Z i / of_Z 5) * (Xreal hi - Xreal lo))%js
  = Xreal (360 - IZR i * 68).
Proof.
  intros Hlt.
  replace (Xreal lo + (of_Z i / of_Z 5) * (Xreal hi - Xreal lo))%js
    with (Xreal (lo + IZR i / 5 * (hi - lo))).
  - rewrite yScale_exact by lra. f_equal. field. lra.
  - cbn. destruct (Req_dec_T 5 0); [lra|]. reflexivity.
Qed.

Lemma label_flat (lo : R) (i : Z) :
  Chart.yScale (Xreal lo) (Xreal lo)
    (Xreal lo + (of_Z i / of_Z 5) * (Xreal lo - Xreal lo))%js
  = Xnan.
Proof. apply yScale_flat. Qed.

Lemma chartData_xMax {T : Type} `{Num T} `{Rounding T}
    (first : Point.t T) (rest : list (Point.t T)) :
  exists scales : Chart.Scales.t T,
    Chart.chartData (first :: rest) = Some scales
    /\ Chart.Scales.xMax scales = Point.day (List.last (first :: rest) first).
Proof. eexists. split; reflexivity. Qed.

Lemma last_seq (n : nat) : List.last (seq 0 (S n)) 0%nat = n.
Proof. rewrite seq_S. apply last_last. Qed.

(** X21.  The chart of an empty series is [null].  For a series of points
    with real fields the domain of the y axis is
    [[1000 * lo, 1000 * hi]] for two whole numbers [lo] and [hi]: every
    total value and every hold value of the series lies in it, some value is
    below [1000 * (lo + 1)] and some value is above [1000 * (hi - 1)]; the x
    axis ends at the day of the last point. *)
Theorem chart_domain_brackets :
  (forall (T : Type) (N : Num T) (F : Rounding T),
      Chart.chartData (@nil (Point.t T)) = None)
  /\ forall (p : Point.t R) (ps : list (Point.t R)),
       exists (scales : Chart.Scales.t xreal) (lo hi : Z),
         Chart.chartData (List.map exactPoint (p :: ps)) = Some scales
         /\ Chart.Scales.yDomainMin scales = Xreal (IZR lo * 1000)
         /\ Chart.Scales.yDomainMax scales = Xreal (IZR hi * 1000)
         /\ Chart.Scales.xMax scales = Xreal (Point.day (List.last ps p))
         /\ brackets (p :: ps) lo hi.
Proof.
  split; [reflexivity|].
  intros p ps.
  destruct (chartData_domain p ps) as (lo & hi & Hb & Hcd).
  eexists _, lo, hi. split; [exact Hcd|].
  split; [reflexivity|]. split; [reflexivity|]. split; [reflexivity|].
  exact Hb.
Qed.

(** X22.  For a series of points with real fields whose total and hold
    values are not all one and the same multiple of 1000, every point of the
    total-value path and of the hold-value path is drawn at a height between
    20 and 360, that is inside the plot area, and the six labels of the y
    axis are drawn at the heights 360, 292, 224, 156, 88 and 20. *)
Theorem chart_heights_in_plot_area (p : Point.t R) (ps : list (Point.t R)) :
  ~ (exists k : Z,
        forall v, In v (plottedValues (p :: ps)) -> v = 1000 * IZR k) ->
  Forall (fun xy : xreal * xreal =>
            exists y : R, snd xy = Xreal y /\ 20 <= y <= 360)
         (Chart.createPath (@Point.totalValue xreal)
                           (List.map exactPoint (p :: ps)))
  /\ Forall (fun xy : xreal * xreal =>
               exists y : R, snd xy = Xreal y /\ 20 <= y <= 360)
            (Chart.createPath (@Point.holdValue xreal)
                              (List.map exactPoint (p :: ps)))
  /\ exists scales : Chart.Scales.t xreal,
       Chart.chartData (List.map exactPoint (p :: ps)) = Some scales
       /\ List.map snd (Chart.Scales.yAxisLabels scales)
          = List.map Xreal [360; 292; 224; 156; 88; 20].
Proof.
  intros Hspread. split; [|split].
  - apply path_heights with (keyR := @Point.totalValue R); trivial.
    intros q Hq. unfold plottedValues. apply in_or_app. left.
    now apply in_map.
  - apply path_heights with (keyR := @Point.holdValue R); trivial.
    intros q Hq. unfold plottedValues. apply in_or_app. right.
    now apply in_map.
  - destruct (chartData_domain p ps) as (lo & hi & Hb & Hcd).
    pose proof (brackets_spread Hb Hspread) as Hlt.
    eexists. split; [exact Hcd|].
    cbn [Chart.Scales.yAxisLabels List.map snd].
    rewrite !label_height by exact Hlt.
    repeat (f_equal; try lra).
Qed.

(** X23.  For a series of points with real fields whose total and hold
    values all equal one multiple of 1000, the domain of the y axis is a
    single value and no height is a number: every point of both paths, every
    label of the y axis and the tooltip are at height NaN.  On binary64
    numbers this is the chart of a freshly added simulation once its APR is set
    to 0. *)
Theorem flat_chart_has_no_heights :
  (forall (p : Point.t R) (ps : list (Point.t R)) (k : Z),
      (forall v, In v (plottedValues (p :: ps)) -> v = 1000 * IZR k) ->
      (forall key : Point.t xreal -> xreal,
          Forall (fun xy : xreal * xreal => snd xy = Xnan)
                 (Chart.createPath key (List.map exactPoint (p :: ps))))
      /\ (exists scales : Chart.Scales.t xreal,
             Chart.chartData (List.map exactPoint (p :: ps)) = Some scales
             /\ Forall (fun l : xreal * xreal => snd l = Xnan)
                       (Chart.Scales.yAxisLabels scales))
      /\ forall svgX : R,
           exists tip : Chart.Tooltip.t xreal,
             Chart.handleMouseMove (Xreal svgX)
                                   (List.map exactPoint (p :: ps))
             = Some tip
             /\ Chart.Tooltip.y tip = Xnan)
  /\ forall now today : string,
       exists data : list (Point.t float),
         Engine.chartData 32 (flatSimulation now today) = Some data
         /\ List.length data = 31%nat
         /\ Forall (fun xy : float * float => isNaN (snd xy) = true)
                   (Chart.createPath (@Point.totalValue float) data)
         /\ Forall (fun xy : float * float => isNaN (snd xy) = true)
                   (Chart.createPath (@Point.holdValue float) data).
Proof.
  split.
  - intros p ps k Hflat. split; [|split].
    + intros key. now apply path_flat with (k := k).
    + destruct (chartData_domain p ps) as (lo & hi & Hb & Hcd).
      destruct (@brackets_flat _ _ _ k Hb Hflat) as [-> ->].
      eexists. split; [exact Hcd|].
      cbn [Chart.Scales.yAxisLabels List.map].
      repeat constructor; apply label_flat.
    + intros svgX.
      destruct (handleMouseMove_exact svgX p ps)
        as (scales & c & Hcd' & Hmove & _).
      destruct (chartData_domain p ps) as (lo & hi & Hb & Hcd).
      destruct (@brackets_flat _ _ _ k Hb Hflat) as [-> ->].
      rewrite Hcd in Hcd'. injection Hcd' as <-.
      eexists. split; [exact Hmove|].
      cbn [Chart.Tooltip.y Chart.Scales.yDomainMin Chart.Scales.yDomainMax].
      apply yScale_flat.
  - intros now today. eexists. split; [vm_compute; reflexivity|].
    split; [reflexivity|].
    split; vm_compute; repeat constructor.
Qed.

Lemma flat_chart_has_no_heights_witness :
  (forall key : Point.t xreal -> xreal,
      Forall (fun xy : xreal * xreal => snd xy = Xnan)
             (Chart.createPath key
                (List.map exactPoint [Point.mk 0 2000 2000 0])))
  /\ (exists scales : Chart.Scales.t xreal,
         Chart.chartData (List.map exactPoint [Point.mk 0 2000 2000 0])
         = Some scales
         /\ Forall (fun l : xreal * xreal => snd l = Xnan)
                   (Chart.Scales.yAxisLabels scales))
  /\ forall svgX : R,
       exists tip : Chart.Tooltip.t xreal,
         Chart.handleMouseMove (Xreal svgX)
                               (List.map exactPoint [Point.mk 0 2000 2000 0])
         = Some tip
         /\ Chart.Tooltip.y tip = Xnan.
Proof.
  apply (proj1 flat_chart_has_no_heights (Point.mk 0 2000 2000 0) [] 2%Z).
  cbn. intros v [<-|[<-|[]]]; lra.
Defined.

Lemma chart_heights_in_plot_area_witness :
  Forall (fun xy : xreal * xreal =>
            exists y : R, snd xy = Xreal y /\ 20 <= y <= 360)
         (Chart.createPath (@Point.totalValue xreal)
            (List.map exactPoint
               [Point.mk 0 1000 1000 0; Point.mk 1 1500 1000 25]))
  /\ Forall (fun xy : xreal * xreal =>
               exists y : R, snd xy = Xreal y /\ 20 <= y <= 360)
            (Chart.createPath (@Point.holdValue xreal)
               (List.map exactPoint
                  [Point.mk 0 1000 1000 0; Point.mk 1 1500 1000 25]))
  /\ exists scales : Chart.Scales.t xreal,
       Chart.chartData
         (List.map exactPoint
            [Point.mk 0 1000 1000 0; Point.mk 1 1500 1000 25])
       = Some scales
       /\ List.map snd (Chart.Scales.yAxisLabels scales)
          = List.map Xreal [360; 292; 224; 156; 88; 20].
Proof.
  apply (@chart_heights_in_plot_area (Point.mk 0 1000 1000 0)
           [Point.mk 1 1500 1000 25]).
  intros [k Hk].
  pose proof (Hk 1000 (or_introl eq_refl)) as H1.
  pose proof (Hk 1500 (or_intror (or_introl eq_refl))) as H2.
  lra.
Defined.

(** X24.  Moving the mouse over a chart with no point sets no tooltip; in
    every arithmetic the point that a tooltip shows is a point of the
    series.  Over a chart of points with real fields, at the horizontal
    position [svgX], the tooltip shows a point whose day is at the least
    distance from [(svgX - 60) / 720 * xMax], where [xMax] is the day of the
    last point, and it is drawn at the scaled day and the scaled total value
    of that point. *)
Theorem tooltip_point_closest :
  (forall (T : Type) (N : Num T) (F : Rounding T) (svgX : T),
      Chart.handleMouseMove svgX (@nil (Point.t T)) = None)
  /\ (forall (T : Type) (N : Num T) (F : Rounding T) (svgX : T)
             (data : list (Point.t T)),
         match Chart.handleMouseMove svgX data with
         | Some tip => In (Chart.Tooltip.data tip) data
         | None => data = []
         end)
  /\ forall (svgX : R) (p : Point.t R) (ps : list (Point.t R)),
       exists (scales : Chart.Scales.t xreal) (c : Point.t R),
         Chart.chartData (List.map exactPoint (p :: ps)) = Some scales
         /\ Chart.handleMouseMove (Xreal svgX)
                                  (List.map exactPoint (p :: ps))
            = Some (Chart.Tooltip.mk
                      (Chart.xScale (Chart.Scales.xMax scales)
                                    (Xreal (Point.day c)))
                      (Chart.yScale (Chart.Scales.yDomainMin scales)
                                    (Chart.Scales.yDomainMax scales)
                                    (Xreal (Point.totalValue c)))
                      (exactPoint c))
         /\ In c (p :: ps)
         /\ forall q, In q (p :: ps) ->
              Rabs (Point.day c
                    - (svgX - 60) / 720 * Point.day (List.last ps p))
              <= Rabs (Point.day q
                       - (svgX - 60) / 720 * Point.day (List.last ps p)).
Proof.
  split; [reflexivity|]. split; [|apply handleMouseMove_exact].
  intros T N F svgX [|first rest]; [reflexivity|].
  unfold Chart.handleMouseMove.
  destruct (chartData_xMax first rest) as (scales & -> & _).
  cbn [Chart.Tooltip.data]. apply closestPoint_In.
Qed.

(** A chart of two points, the mouse at 700: the point shown is at least as
    close to the mouse as the second point. *)
Lemma tooltip_point_closest_witness :
  exists c : Point.t R,
    In c [Point.mk 0 1000 1000 0; Point.mk 1 1500 1000 25]
    /\ (exists tip : Chart.Tooltip.t xreal,
           Chart.handleMouseMove (Xreal 700)
             (List.map exactPoint
                [Point.mk 0 1000 1000 0; Point.mk 1 1500 1000 25])
           = Some tip
           /\ Chart.Tooltip.data tip = exactPoint c)
    /\ Rabs (Point.day c - (700 - 60) / 720 * 1)
       <= Rabs (1 - (700 - 60) / 720 * 1).
Proof.
  destruct (proj2 (proj2 tooltip_point_closest) 700 (Point.mk 0 1000 1000 0)
              [Point.mk 1 1500 1000 25])
    as (scales & c & _ & Hmove & Hin & Hmin).
  exists c. split; [exact Hin|]. split.
  - eexists. split; [exact Hmove|reflexivity].
  - apply (Hmin (Point.mk 1 1500 1000 25)). right. now left.
Defined.

(** X25.  For a position with real fields that passes the guard of the
    projection and lasts a whole number [n > 0] of days, the chart draws the
    point of day [i] at the horizontal position [60 + i / n * 720], for
    both paths: the first point at 60, the last at 780, evenly spaced. *)
Theorem projection_x_coordinates (s : Simulation.t R) (n : nat) (a b : R)
    (fuel : nat) (key : Point.t xreal -> xreal) :
  (0 < n)%nat ->
  Simulation.duration s = INR n ->
  Simulation.amountA s = Some a -> a <> 0 ->
  Simulation.amountB s = Some b -> b <> 0 ->
  (n + 2 <= fuel)%nat ->
  exists pts : list (Point.t xreal),
    Engine.chartData fuel (exact s) = Some pts
    /\ List.map fst (Chart.createPath key pts)
       = List.map (fun i => Xreal (60 + INR i / INR n * 720)) (seq 0 (S n)).
Proof.
  intros Hn Hd Ha Ha0 Hb Hb0 Hfuel.
  set (f := pointAt s (Xreal a) (Xreal b)
              (Xreal (a * Simulation.initialPriceA s
                      + b * Simulation.initialPriceB s))).
  exists (List.map f (seq 0 (S n))).
  split; [unfold f; apply chartData_exact; assumption|].
  assert (Hpos : 0 < INR n) by (apply lt_0_INR; lia).
  destruct (chartData_xMax (f 0%nat) (List.map f (seq 1 n)))
    as (scales & Hcd & HxMax).
  change (f 0%nat :: List.map f (seq 1 n))
    with (List.map f (seq 0 (S n))) in Hcd, HxMax.
  rewrite last_map, last_seq in HxMax.
  unfold Chart.createPath. rewrite Hcd, HxMax.
  rewrite !map_map. apply map_ext. intros i.
  cbn [fst]. change (Point.day (f i)) with (Xreal (INR i)).
  change (Point.day (f n)) with (Xreal (INR n)).
  apply xScale_exact. lra.
Qed.

Lemma projection_x_coordinates_witness :
  exists pts : list (Point.t xreal),
    Engine.chartData 32 (exact Scenario.depositR) = Some pts
    /\ List.map fst (Chart.createPath (@Point.totalValue xreal) pts)
       = List.map (fun i => Xreal (60 + INR i / INR 30 * 720)) (seq 0 31).
Proof.
  apply (@projection_x_coordinates Scenario.depositR 30%nat (1 / 2) 1500
           32%nat (@Point.totalValue xreal)).
  - lia.
  - reflexivity.
  - reflexivity.
  - lra.
  - reflexivity.
  - lra.
  - lia.
Defined.
End ChartTheorems.
